(** * Pipeline-ETL-Simple: the rule-driven validate/transform engine

    A shallow embedding of [src/etl_pipeline.py] (class [ETLPipeline]) and the
    properties its specification states about it.

    Modelling choices, all taken from the source:
    - a [DataFrame] is an ordered list of column names, the dtype of each
      column, and an ordered list of rows, each row a list of cells aligned
      with the column names;
    - a cell is a value held in a column: an [int], a finite [float]
      (identified by its exact value), a [str], a timestamp (identified by
      its ISO text), or one of the two missing values [NaN] and [NaT].  A
      column is of dtype [int64], [float64], [datetime64] or [object];
      comparison, [.str], [astype(str)] and arithmetic are decided by the
      dtype of the column first and by the cell second, as pandas does.
      Categorical, boolean and extension dtypes, infinities, and the
      rendering of floats with a fractional part or of timestamps as text
      are outside the model, and so is case folding and stripping of text
      that is not ASCII;
    - Python objects live in a store: a DataFrame variable holds a reference,
      [df.copy()] and [df[mask]] allocate, [df[column] = v] writes in place;
    - a method is a computation over the world (the pipeline object, the
      store, the log) that returns a value, raises, or leaves the modelled
      fragment of Python ([OutOfModel]);
    - the regular-expression engine, the date parser and the outcomes of file
      and database access are parameters. *)

From Stdlib Require Import ZArith QArith String Ascii List Bool Lia DecimalString.
From stdpp Require Import base list strings.

Local Open Scope string_scope.
Local Open Scope list_scope.

(** ** Python exceptions and outcomes *)

Inductive exn : Type :=
  | KeyError (key : string)
  | TypeError
  | AttributeError
  | NameError (name : string)
  | ReError
  | FileNotFoundError (path : string)
  | ExternalError (what : string).

Inductive outcome (A : Type) : Type :=
  | Ok (a : A)
  | Raise (e : exn)
  | OutOfModel.

Arguments Ok {A} a.
Arguments Raise {A} e.
Arguments OutOfModel {A}.

Definition outcome_map {A B} (f : A -> B) (o : outcome A) : outcome B :=
  match o with
  | Ok a => Ok (f a)
  | Raise e => Raise e
  | OutOfModel => OutOfModel
  end.

(** ** Cells, dtypes and datasets *)

Inductive cell : Type :=
  | VInt (z : Z)
  | VStr (s : string)
  | VDate (iso : string)
  | VNaN
  | VNaT
  | VFloat (q : Q).

Inductive dtype : Type := Int64 | Float64 | Object | Datetime64.

Definition is_datetime64 (dt : dtype) : bool :=
  match dt with Datetime64 => true | _ => false end.

(** Equality of two cells of a column as [drop_duplicates] sees it:
    numbers by value, text and timestamps by content, and every missing
    value like every other. *)
Definition cell_eqb (a b : cell) : bool :=
  match a, b with
  | VInt x, VInt y => Z.eqb x y
  | VFloat x, VFloat y => Qeq_bool x y
  | VInt x, VFloat y => Qeq_bool (inject_Z x) y
  | VFloat x, VInt y => Qeq_bool x (inject_Z y)
  | VStr x, VStr y => String.eqb x y
  | VDate x, VDate y => String.eqb x y
  | VNaN, VNaN | VNaN, VNaT | VNaT, VNaN | VNaT, VNaT => true
  | _, _ => false
  end.

Abbreviation row := (list cell) (only parsing).

Fixpoint row_eqb (r1 r2 : row) : bool :=
  match r1, r2 with
  | [], [] => true
  | a :: r1', b :: r2' => cell_eqb a b && row_eqb r1' r2'
  | _, _ => false
  end.

Record DataFrame : Type := mkDataFrame {
  columns : list string;
  dtypes : list dtype;
  rows : list row
}.

(** The frame with the same columns and dtypes and other rows. *)
Definition with_rows (d : DataFrame) (rs : list row) : DataFrame :=
  mkDataFrame (columns d) (dtypes d) rs.

(** [len(df)] *)
Definition df_len (d : DataFrame) : nat := length (rows d).

(** Position of a column name in [df.columns]. *)
Fixpoint col_pos (c : string) (cols : list string) : option nat :=
  match cols with
  | [] => None
  | c' :: cols' =>
      if String.eqb c c' then Some 0
      else match col_pos c cols' with
           | Some i => Some (S i)
           | None => None
           end
  end.

(** [column in df.columns] *)
Definition has_column (c : string) (d : DataFrame) : bool :=
  match col_pos c (columns d) with Some _ => true | None => false end.

(** The cell of a row under a column; a row too short reads as missing. *)
Definition cell_at (cols : list string) (c : string) (r : row) : cell :=
  match col_pos c cols with
  | Some i => default VNaN (r !! i)
  | None => VNaN
  end.

(** [df[column]]: the cells of the column, one per row, and its dtype. *)
Definition get_column (d : DataFrame) (c : string) : list cell :=
  map (cell_at (columns d) c) (rows d).

Definition col_dtype (d : DataFrame) (c : string) : dtype :=
  match col_pos c (columns d) with
  | Some i => default Object (dtypes d !! i)
  | None => Object
  end.

(** [df[mask]]: the rows whose mask entry is [True], in order. *)
Fixpoint select_rows (mask : list bool) (rs : list row) : list row :=
  match mask, rs with
  | b :: mask', r :: rs' =>
      if b then r :: select_rows mask' rs' else select_rows mask' rs'
  | _, _ => []
  end.

Definition df_select (d : DataFrame) (mask : list bool) : DataFrame :=
  with_rows d (select_rows mask (rows d)).

(** [(~mask).sum()] *)
Definition count_false (mask : list bool) : nat :=
  length (List.filter negb mask).

(** [df[column] = values] for a Series aligned with the rows: an existing
    column is overwritten in place and takes the dtype of the Series, a new
    name is appended as last column. *)
Fixpoint zip_rows (f : row -> cell -> row) (rs : list row) (vs : list cell)
  : list row :=
  match rs, vs with
  | r :: rs', v :: vs' => f r v :: zip_rows f rs' vs'
  | _, _ => []
  end.

Definition set_column (d : DataFrame) (c : string) (dt : dtype)
    (vs : list cell) : DataFrame :=
  match col_pos c (columns d) with
  | Some i =>
      mkDataFrame (columns d) (<[i := dt]> (dtypes d))
        (zip_rows (fun r v => <[i := v]> r) (rows d) vs)
  | None =>
      mkDataFrame (columns d ++ [c]) (dtypes d ++ [dt])
        (zip_rows (fun r v => r ++ [v]) (rows d) vs)
  end.

(** [df.drop_duplicates()]: a row equal to an earlier row is dropped; a
    frame with no column or no row is empty and is returned as it is. *)
Fixpoint dedup_rows (seen : list row) (rs : list row) : list row :=
  match rs with
  | [] => []
  | r :: rs' =>
      if existsb (row_eqb r) seen then dedup_rows seen rs'
      else r :: dedup_rows (r :: seen) rs'
  end.

Definition drop_duplicates (d : DataFrame) : DataFrame :=
  match columns d with
  | [] => d
  | _ :: _ => with_rows d (dedup_rows [] (rows d))
  end.

(** ** Cell-level pandas operations *)

(** [Series.notna()] *)
Definition notna (v : cell) : bool :=
  match v with VNaN | VNaT => false | _ => true end.

(** [Series.isnull().sum()] per column, keeping the nonzero counts. *)
Definition null_counts (d : DataFrame) : list (string * nat) :=
  List.filter (fun p => negb (Nat.eqb (snd p) 0))
    (map (fun c => (c, length (List.filter (fun v => negb (notna v)) (get_column d c))))
         (columns d)).

(** [str(z)] for a Python int. *)
Definition str_of_int (z : Z) : string := NilZero.string_of_int (Z.to_int z).

(** [str(x)] for a float with an integral value below [1e16], the floats
    Python prints in positional notation with a trailing [.0]. *)
Definition float_text (q : Q) : option string :=
  let r := Qred q in
  if Pos.eqb (Qden r) 1 && Z.ltb (Z.abs (Qnum r)) (10 ^ 16)
  then Some (String.append (str_of_int (Qnum r)) ".0")
  else None.

(** The text [Series.astype(str)] gives a cell of a column of the given
    dtype; [None] where the model has no text. *)
Definition astype_str (dt : dtype) (v : cell) : option string :=
  match dt, v with
  | Int64, VInt z => Some (str_of_int z)
  | Float64, VFloat q => float_text q
  | Float64, VNaN => Some "nan"
  | Object, VInt z => Some (str_of_int z)
  | Object, VFloat q => float_text q
  | Object, VStr s => Some s
  | Object, VNaN => Some "nan"
  | Object, VNaT => Some "NaT"
  | Datetime64, VNaT => Some "NaT"
  | _, _ => None
  end.

Fixpoint all_ok {A} (l : list (outcome A)) : outcome (list A) :=
  match l with
  | [] => Ok []
  | Ok a :: l' =>
      match all_ok l' with
      | Ok l'' => Ok (a :: l'')
      | Raise e => Raise e
      | OutOfModel => OutOfModel
      end
  | Raise e :: _ => Raise e
  | OutOfModel :: _ => OutOfModel
  end.

Definition of_option {A} (o : option A) : outcome A :=
  match o with Some a => Ok a | None => OutOfModel end.

(** [Series.astype(str)] *)
Definition series_astype_str (dt : dtype) (col : list cell)
  : outcome (list string) :=
  all_ok (map (fun v => of_option (astype_str dt v)) col).

(** A bound of a range rule: a Python [int] or [float]. *)
Inductive number : Type :=
  | NInt (z : Z)
  | NFloat (q : Q).

Definition num_value (n : number) : Q :=
  match n with NInt z => inject_Z z | NFloat q => q end.

(** The two comparisons of a range rule. *)
Inductive cmp_op : Type := Ge | Le.

(** [x >= b], [x <= b] on exact values. *)
Definition q_cmp (op : cmp_op) (x b : Q) : bool :=
  match op with
  | Ge => Qle_bool b x
  | Le => Qle_bool x b
  end.

Definition in_int64 (z : Z) : bool :=
  Z.leb (- 2 ^ 63) z && Z.ltb z (2 ^ 63).

(** The ints a float64 holds exactly. *)
Definition exact_in_float (z : Z) : bool := Z.leb (Z.abs z) (2 ^ 53).

(** One comparison [cell >= bound] or [cell <= bound] in a column of the
    given dtype.  In an int64 or float64 column the comparison is made in
    the common numeric type and is answered where the conversion it needs
    is exact; NaN compares false.  In an object column the cells are
    compared one by one as Python objects: numbers by value, a missing
    cell compares false, a str or timestamp cell raises.  A datetime64
    column refuses the comparison as a whole. *)
Definition cmp_cell (dt : dtype) (op : cmp_op) (b : number) (v : cell)
  : outcome bool :=
  match dt, v with
  | Int64, VInt z =>
      if match b with NInt n => in_int64 n | NFloat _ => exact_in_float z end
      then Ok (q_cmp op (inject_Z z) (num_value b))
      else OutOfModel
  | Float64, VFloat q =>
      if match b with NInt n => exact_in_float n | NFloat _ => true end
      then Ok (q_cmp op q (num_value b))
      else OutOfModel
  | Float64, VNaN => Ok false
  | Object, VInt z => Ok (q_cmp op (inject_Z z) (num_value b))
  | Object, VFloat q => Ok (q_cmp op q (num_value b))
  | Object, VNaN | Object, VNaT => Ok false
  | Object, VStr _ | Object, VDate _ => Raise TypeError
  | Datetime64, _ => Raise TypeError
  | _, _ => OutOfModel
  end.

(** [series >= bound], [series <= bound] *)
Definition series_cmp (dt : dtype) (op : cmp_op) (col : list cell) (b : number)
  : outcome (list bool) :=
  if is_datetime64 dt then Raise TypeError
  else all_ok (map (cmp_cell dt op b) col).

(** [mask1 & mask2] *)
Fixpoint mask_and (m1 m2 : list bool) : list bool :=
  match m1, m2 with
  | a :: m1', b :: m2' => (a && b) :: mask_and m1' m2'
  | _, _ => []
  end.

(** ** The [.str] accessor *)

Definition is_int (v : cell) : bool := match v with VInt _ => true | _ => false end.
Definition is_float (v : cell) : bool := match v with VFloat _ => true | _ => false end.
Definition is_str (v : cell) : bool := match v with VStr _ => true | _ => false end.
Definition is_date (v : cell) : bool := match v with VDate _ => true | _ => false end.
Definition is_NaN (v : cell) : bool := match v with VNaN => true | _ => false end.
Definition is_NaT (v : cell) : bool := match v with VNaT => true | _ => false end.

(** The value [lib.infer_dtype] decides on: the first cell that is neither
    NaN nor NaT. *)
Definition first_value (col : list cell) : option cell :=
  List.find (fun v => negb (is_NaN v || is_NaT v)) col.

(** [lib.infer_dtype(values, skipna=True)] on the cells of an object
    column, read as the [.str] accessor reads it: [true] for the kinds it
    allows (string, empty, mixed, mixed-integer), [false] for the others
    (integer, floating, mixed-integer-float, datetime). *)
Definition str_inferred_ok (col : list cell) : bool :=
  match first_value col with
  | None => negb (existsb is_NaT col)
  | Some (VInt _) | Some (VFloat _) =>
      negb (forallb (fun v => is_int v || is_float v || is_NaN v) col)
  | Some (VDate _) =>
      negb (forallb (fun v => is_date v || is_NaN v || is_NaT v) col)
  | Some _ => true
  end.

(** [Series.str] is refused (AttributeError) on every column that is not of
    dtype object, and on an object column by the kind inferred from its
    cells. *)
Definition str_accessor_ok (dt : dtype) (col : list cell) : bool :=
  match dt with
  | Object => str_inferred_ok col
  | _ => false
  end.

(** A string method through [.str]: applied to str cells; a missing cell
    stays as it is, every other cell becomes NaN. *)
Definition str_method (f : string -> string) (v : cell) : cell :=
  match v with
  | VStr s => VStr (f s)
  | VNaT => VNaT
  | _ => VNaN
  end.

Fixpoint is_ascii (s : string) : bool :=
  match s with
  | EmptyString => true
  | String a s' => Nat.ltb (nat_of_ascii a) 128 && is_ascii s'
  end.

(** The text of the cell, if any, is ASCII. *)
Definition ascii_cell (v : cell) : bool :=
  match v with VStr s => is_ascii s | _ => true end.

(** The accepted columns whose result the model has: the text is ASCII,
    and the result is an object column, which it is when the column holds
    a string or a NaT, or nothing but NaN.  (Where every result is NaN and
    some cell was not missing, numbers mixed with timestamps, pandas
    converts the result to another dtype.) *)
Definition str_result_modelled (col : list cell) : bool :=
  forallb ascii_cell col
  && (existsb is_str col || existsb is_NaT col || forallb is_NaN col).

(** [series.str.upper()] and the like; the result is an object column. *)
Definition series_str (f : string -> string) (dt : dtype) (col : list cell)
  : outcome (list cell) :=
  if str_accessor_ok dt col then
    if str_result_modelled col then Ok (map (str_method f) col)
    else OutOfModel
  else Raise AttributeError.

Definition upper_ascii (a : ascii) : ascii :=
  let n := nat_of_ascii a in
  if Nat.leb 97 n && Nat.leb n 122 then ascii_of_nat (n - 32) else a.

Definition lower_ascii (a : ascii) : ascii :=
  let n := nat_of_ascii a in
  if Nat.leb 65 n && Nat.leb n 90 then ascii_of_nat (n + 32) else a.

Fixpoint map_string (f : ascii -> ascii) (s : string) : string :=
  match s with
  | EmptyString => EmptyString
  | String a s' => String (f a) (map_string f s')
  end.

(** [str.upper], [str.lower] on ASCII text *)
Definition py_upper : string -> string := map_string upper_ascii.
Definition py_lower : string -> string := map_string lower_ascii.

(** The ASCII characters [str.strip()] removes. *)
Definition is_space (a : ascii) : bool :=
  let n := nat_of_ascii a in
  (Nat.leb 9 n && Nat.leb n 13) || (Nat.leb 28 n && Nat.leb n 32).

Fixpoint lstrip (s : string) : string :=
  match s with
  | EmptyString => EmptyString
  | String a s' => if is_space a then lstrip s' else s
  end.

Fixpoint rstrip (s : string) : string :=
  match s with
  | EmptyString => EmptyString
  | String a s' =>
      match rstrip s' with
      | EmptyString => if is_space a then EmptyString else String a EmptyString
      | t => String a t
      end
  end.

Definition py_strip (s : string) : string := rstrip (lstrip s).

(** ** The log *)

Inductive level : Type := INFO | WARNING | ERROR.

Inductive message : Type :=
  | MsgConnected (db : string)
  | MsgConnectFailed (e : exn)
  | MsgConnectionClosed
  | MsgExtracting (path : string)
  | MsgRowsExtracted (n : nat)
  | MsgColumns (cols : list string)
  | MsgExtractFailed (e : exn)
  | MsgCleaning
  | MsgDuplicatesRemoved (n : nat)
  | MsgNullsDetected (counts : list (string * nat))
  | MsgValidating
  | MsgColumnNotFound (column : string)
  | MsgRemovedNull (n : nat) (column : string)
  | MsgRemovedRange (n : nat) (column : string)
  | MsgRemovedPattern (n : nat) (column : string)
  | MsgTotalRemoved (n : nat)
  | MsgTransforming
  | MsgUppercased (column : string)
  | MsgLowercased (column : string)
  | MsgDateConverted (column : string)
  | MsgCategoryConverted (column : string)
  | MsgStripped (column : string)
  | MsgCalculated (column formula : string)
  | MsgLoading (table : string)
  | MsgRowsLoaded (n : nat) (table : string)
  | MsgLoadFailed (e : exn)
  | MsgIndexCreated (index : string)
  | MsgIndexFailed (e : exn)
  | MsgRule
  | MsgPipelineStart
  | MsgStatsHeader
  | MsgStatExtracted (n : nat)
  | MsgStatTransformed (n : nat)
  | MsgStatLoaded (n : nat)
  | MsgStatErrors (n : nat)
  | MsgDuration
  | MsgPipelineSuccess
  | MsgPipelineFailed (e : exn).

Definition log_record : Type := level * message.

Definition is_warning (r : log_record) : bool :=
  match fst r with WARNING => true | _ => false end.

(** ** The pipeline object and the world *)

Record Stats : Type := mkStats {
  extracted : nat;
  transformed : nat;
  loaded : nat;
  errors : nat
}.

Inductive connection_state : Type := NoConnection | ConnOpen | ConnClosed.

Record ETLPipeline : Type := mkPipeline {
  db_name : string;
  connection : connection_state;
  stats : Stats
}.

(** [ETLPipeline.__init__] *)
Definition init_pipeline (db : string) : ETLPipeline :=
  mkPipeline db NoConnection (mkStats 0 0 0 0).

(** A reference into the store. *)
Abbreviation loc := nat (only parsing).

Record world : Type := mkWorld {
  pipeline : ETLPipeline;
  heap : list DataFrame;
  log : list log_record
}.

(** ** Computations *)

Definition M (A : Type) : Type := world -> outcome A * world.

Definition ret {A} (a : A) : M A := fun w => (Ok a, w).

Definition bind {A B} (m : M A) (k : A -> M B) : M B :=
  fun w =>
    match m w with
    | (Ok a, w') => k a w'
    | (Raise e, w') => (Raise e, w')
    | (OutOfModel, w') => (OutOfModel, w')
    end.

Notation "x <- m ;; k" := (bind m (fun x => k))
  (at level 100, m at next level, right associativity).
Notation "m ;;; k" := (bind m (fun _ => k))
  (at level 100, right associativity).

Definition raise {A} (e : exn) : M A := fun w => (Raise e, w).

Definition out_of_model {A} : M A := fun w => (OutOfModel, w).

Definition lift {A} (o : outcome A) : M A := fun w => (o, w).

(** [try: m except Exception as e: h e] *)
Definition try_except {A} (m : M A) (h : exn -> M A) : M A :=
  fun w =>
    match m w with
    | (Raise e, w') => h e w'
    | r => r
    end.

(** [try: m finally: f] *)
Definition try_finally {A} (m : M A) (f : M unit) : M A :=
  fun w =>
    match m w with
    | (Ok a, w') => (f ;;; ret a) w'
    | (Raise e, w') => (f ;;; raise e) w'
    | (OutOfModel, w') => (OutOfModel, w')
    end.

Definition when (b : bool) (m : M unit) : M unit := if b then m else ret tt.

Definition logging (lv : level) (m : message) : M unit :=
  fun w => (Ok tt, mkWorld (pipeline w) (heap w) (log w ++ [(lv, m)])).

(** A new object in the store. *)
Definition alloc (d : DataFrame) : M loc :=
  fun w => (Ok (length (heap w)), mkWorld (pipeline w) (heap w ++ [d]) (log w)).

Definition read (l : loc) : M DataFrame :=
  fun w =>
    match heap w !! l with
    | Some d => (Ok d, w)
    | None => (OutOfModel, w)
    end.

Definition write (l : loc) (d : DataFrame) : M unit :=
  fun w => (Ok tt, mkWorld (pipeline w) (<[l := d]> (heap w)) (log w)).

Definition get_stats : M Stats := fun w => (Ok (stats (pipeline w)), w).

(** An assignment to entries of [self.stats]. *)
Definition update_stats (f : Stats -> Stats) : M unit :=
  fun w =>
    (Ok tt,
     mkWorld (mkPipeline (db_name (pipeline w)) (connection (pipeline w))
                         (f (stats (pipeline w))))
             (heap w) (log w)).

Definition get_db_name : M string := fun w => (Ok (db_name (pipeline w)), w).

Definition get_connection : M connection_state :=
  fun w => (Ok (connection (pipeline w)), w).

Definition set_connection (c : connection_state) : M unit :=
  fun w =>
    (Ok tt,
     mkWorld (mkPipeline (db_name (pipeline w)) c (stats (pipeline w)))
             (heap w) (log w)).

(** [d[key]] on a descriptor: a missing key raises [KeyError]. *)
Definition getitem {A} (key : string) (field : option A) : M A :=
  match field with
  | Some a => ret a
  | None => raise (KeyError key)
  end.

(** [df.copy()] *)
Definition df_copy (df : loc) : M loc := d <- read df ;; alloc d.

(** ** Formula text: the fragment of Python expressions the model evaluates

    [eval(transform['formula'])] runs the text as a Python expression in the
    scope of [transform_data].  The model covers names, int and str
    literals, subscripts [e[k]], the one-argument method call [e.m(a)], the
    operators [+], [-], [*] and parentheses; any other text is [OutOfModel]. *)

Inductive token : Type :=
  | TName (s : string)
  | TInt (z : Z)
  | TStr (s : string)
  | TLBrack | TRBrack | TLParen | TRParen | TDot
  | TPlus | TMinus | TStar.

Inductive lex_state : Type :=
  | LIdle
  | LName (acc : string)
  | LInt (acc : Z)
  | LStr (quote : ascii) (acc : string).

Definition is_letter (a : ascii) : bool :=
  let n := nat_of_ascii a in
  (Nat.leb 65 n && Nat.leb n 90) || (Nat.leb 97 n && Nat.leb n 122) || Nat.eqb n 95.

Definition is_digit (a : ascii) : bool :=
  let n := nat_of_ascii a in Nat.leb 48 n && Nat.leb n 57.

Definition digit_value (a : ascii) : Z := Z.of_nat (nat_of_ascii a - 48).

Definition is_quote (a : ascii) : bool :=
  let n := nat_of_ascii a in Nat.eqb n 39 || Nat.eqb n 34.

Definition is_blank (a : ascii) : bool :=
  let n := nat_of_ascii a in Nat.eqb n 32 || Nat.eqb n 9.

Definition punct (a : ascii) : option token :=
  match nat_of_ascii a with
  | 91 => Some TLBrack
  | 93 => Some TRBrack
  | 40 => Some TLParen
  | 41 => Some TRParen
  | 46 => Some TDot
  | 43 => Some TPlus
  | 45 => Some TMinus
  | 42 => Some TStar
  | _ => None
  end.

Definition snoc_char (s : string) (a : ascii) : string :=
  s ++ String a EmptyString.

(** The token a pending name or number closes with. *)
Definition flush (st : lex_state) : option (list token) :=
  match st with
  | LIdle => Some []
  | LName acc => Some [TName acc]
  | LInt z => Some [TInt z]
  | LStr _ _ => None
  end.

Definition cons_tokens (pre : option (list token)) (rest : option (list token))
  : option (list token) :=
  match pre, rest with
  | Some p, Some r => Some (p ++ r)
  | _, _ => None
  end.

Fixpoint lex (st : lex_state) (s : string) : option (list token) :=
  match s with
  | EmptyString => flush st
  | String a s' =>
      match st with
      | LStr q acc =>
          if Ascii.eqb a q then cons_tokens (Some [TStr acc]) (lex LIdle s')
          else if existsb (Nat.eqb (nat_of_ascii a)) [92; 10; 13] then None
          else lex (LStr q (snoc_char acc a)) s'
      | _ =>
          if is_letter a then
            match st with
            | LName acc => lex (LName (snoc_char acc a)) s'
            | LInt _ => None
            | _ => lex (LName (String a EmptyString)) s'
            end
          else if is_digit a then
            match st with
            | LName acc => lex (LName (snoc_char acc a)) s'
            | LInt z =>
                if Z.eqb z 0 then None else lex (LInt (10 * z + digit_value a)) s'
            | _ => lex (LInt (digit_value a)) s'
            end
          else if is_quote a then
            cons_tokens (flush st) (lex (LStr a EmptyString) s')
          else if is_blank a then
            cons_tokens (flush st) (lex LIdle s')
          else
            match punct a with
            | Some t => cons_tokens (flush st) (cons_tokens (Some [t]) (lex LIdle s'))
            | None => None
            end
      end
  end.

(** Reserved words: never a name, and no other use of them is modelled. *)
Definition reserved_words : list string :=
  ["False"; "None"; "True"; "and"; "as"; "assert"; "async"; "await"; "break";
   "class"; "continue"; "def"; "del"; "elif"; "else"; "except"; "finally";
   "for"; "from"; "global"; "if"; "import"; "in"; "is"; "lambda"; "nonlocal";
   "not"; "or"; "pass"; "raise"; "return"; "try"; "while"; "with"; "yield"].

Definition is_reserved (x : string) : bool := existsb (String.eqb x) reserved_words.

Inductive binop : Type := OpAdd | OpSub | OpMul.

Inductive expr : Type :=
  | EName (x : string)
  | EInt (z : Z)
  | EStr (s : string)
  | ESubscript (e key : expr)
  | ECall (e : expr) (method : string) (arg : expr)
  | EBin (op : binop) (l r : expr).

Fixpoint parse_sum (fuel : nat) (ts : list token) : option (expr * list token) :=
  match fuel with
  | 0 => None
  | S f =>
      match parse_product f ts with
      | Some (l, rest) => parse_sum_rest f l rest
      | None => None
      end
  end
with parse_sum_rest (fuel : nat) (l : expr) (ts : list token)
  : option (expr * list token) :=
  match fuel with
  | 0 => None
  | S f =>
      match ts with
      | TPlus :: rest =>
          match parse_product f rest with
          | Some (r, rest') => parse_sum_rest f (EBin OpAdd l r) rest'
          | None => None
          end
      | TMinus :: rest =>
          match parse_product f rest with
          | Some (r, rest') => parse_sum_rest f (EBin OpSub l r) rest'
          | None => None
          end
      | _ => Some (l, ts)
      end
  end
with parse_product (fuel : nat) (ts : list token) : option (expr * list token) :=
  match fuel with
  | 0 => None
  | S f =>
      match parse_postfix f ts with
      | Some (l, rest) => parse_product_rest f l rest
      | None => None
      end
  end
with parse_product_rest (fuel : nat) (l : expr) (ts : list token)
  : option (expr * list token) :=
  match fuel with
  | 0 => None
  | S f =>
      match ts with
      | TStar :: rest =>
          match parse_postfix f rest with
          | Some (r, rest') => parse_product_rest f (EBin OpMul l r) rest'
          | None => None
          end
      | _ => Some (l, ts)
      end
  end
with parse_postfix (fuel : nat) (ts : list token) : option (expr * list token) :=
  match fuel with
  | 0 => None
  | S f =>
      match parse_atom f ts with
      | Some (e, rest) => parse_postfix_rest f e rest
      | None => None
      end
  end
with parse_postfix_rest (fuel : nat) (e : expr) (ts : list token)
  : option (expr * list token) :=
  match fuel with
  | 0 => None
  | S f =>
      match ts with
      | TLBrack :: rest =>
          match parse_sum f rest with
          | Some (k, TRBrack :: rest') => parse_postfix_rest f (ESubscript e k) rest'
          | _ => None
          end
      | TDot :: TName m :: TLParen :: rest =>
          match parse_sum f rest with
          | Some (a, TRParen :: rest') => parse_postfix_rest f (ECall e m a) rest'
          | _ => None
          end
      | TDot :: _ => None
      | TLParen :: _ => None
      | _ => Some (e, ts)
      end
  end
with parse_atom (fuel : nat) (ts : list token) : option (expr * list token) :=
  match fuel with
  | 0 => None
  | S f =>
      match ts with
      | TName x :: rest => if is_reserved x then None else Some (EName x, rest)
      | TInt z :: rest => Some (EInt z, rest)
      | TStr s :: rest => Some (EStr s, rest)
      | TLParen :: rest =>
          match parse_sum f rest with
          | Some (e, TRParen :: rest') => Some (e, rest')
          | _ => None
          end
      | _ => None
      end
  end.

Definition parse_formula (text : string) : option expr :=
  match lex LIdle text with
  | Some ts =>
      match parse_sum (8 * length ts + 8) ts with
      | Some (e, []) => Some e
      | _ => None
      end
  | None => None
  end.

(** ** Evaluation of a formula in the scope of [transform_data] *)

Inductive pyval : Type :=
  | PInt (z : Z)
  | PStr (s : string)
  | PSeries (dt : dtype) (col : list cell)
  | PFrame (l : loc).

(** The local variables of [transform_data] a formula can read. *)
Record scope : Type := mkScope {
  sc_df : loc;
  sc_df_transformed : loc;
  sc_column : string
}.

(** Names bound in the function, the module or the builtins to objects
    the model has no value for. *)
Definition unmodelled_names : list string :=
  ["self"; "transformations"; "transform";
   "pd"; "sqlite3"; "logging"; "datetime"; "os"; "re"; "main";
   "abs"; "aiter"; "all"; "anext"; "any"; "ascii"; "bin"; "bool";
   "breakpoint"; "bytearray"; "bytes"; "callable"; "chr"; "classmethod";
   "compile"; "complex"; "copyright"; "credits"; "delattr"; "dict"; "dir";
   "divmod"; "enumerate"; "eval"; "exec"; "exit"; "filter"; "float";
   "format"; "frozenset"; "getattr"; "globals"; "hasattr"; "hash"; "help";
   "hex"; "id"; "input"; "int"; "isinstance"; "issubclass"; "iter"; "len";
   "license"; "list"; "locals"; "map"; "max"; "memoryview"; "min"; "next";
   "object"; "oct"; "open"; "ord"; "pow"; "print"; "property"; "quit";
   "range"; "repr"; "reversed"; "round"; "set"; "setattr"; "slice";
   "sorted"; "staticmethod"; "str"; "sum"; "super"; "tuple"; "type"; "vars";
   "zip"].

(** Classes, exceptions and dunder names start with a capital or an
    underscore; the model takes none of them for unbound. *)
Definition maybe_bound (x : string) : bool :=
  match x with
  | EmptyString => true
  | String a _ =>
      let n := nat_of_ascii a in
      (Nat.leb 65 n && Nat.leb n 90) || Nat.eqb n 95
      || existsb (String.eqb x) unmodelled_names
  end.

Definition lookup_name (sc : scope) (x : string) : outcome pyval :=
  if String.eqb x "df" then Ok (PFrame (sc_df sc))
  else if String.eqb x "df_transformed" then Ok (PFrame (sc_df_transformed sc))
  else if String.eqb x "column" then Ok (PStr (sc_column sc))
  else if maybe_bound x then OutOfModel
  else Raise (NameError x).

Definition int_op (op : binop) : Z -> Z -> Z :=
  match op with OpAdd => Z.add | OpSub => Z.sub | OpMul => Z.mul end.

(** The int64 a result wraps to. *)
Definition wrap64 (z : Z) : Z := ((z + 2 ^ 63) mod 2 ^ 64 - 2 ^ 63)%Z.

(** The dtype of the result of arithmetic on two columns of numbers. *)
Definition arith_dtype (dt1 dt2 : dtype) : dtype :=
  match dt1, dt2 with
  | Int64, Int64 => Int64
  | Object, _ | _, Object => Object
  | _, _ => Float64
  end.

(** Arithmetic between a datetime64 column and a column of the given
    dtype, or a Python int ([None]): pandas refuses to multiply timestamps,
    whatever the cells and even with no row; sums and differences, and an
    object column as other operand, are outside the model. *)
Definition datetime_arith {A} (op : binop) (other : option dtype) : outcome A :=
  match op, other with
  | OpMul, Some Object => OutOfModel
  | OpMul, _ => Raise TypeError
  | _, _ => OutOfModel
  end.

(** Arithmetic on two cells.  Two ints of int64 columns compute in int64
    and wrap; outside int64 columns two ints compute where the result is
    an int64; NaN is absorbing among numbers; arithmetic on floats, text
    and timestamps is outside the model. *)
Definition cell_arith (dt : dtype) (op : binop) (a b : cell) : outcome cell :=
  match a, b with
  | VInt x, VInt y =>
      match dt with
      | Int64 => Ok (VInt (wrap64 (int_op op x y)))
      | _ => if in_int64 (int_op op x y) then Ok (VInt (int_op op x y))
             else OutOfModel
      end
  | VNaN, VInt _ | VInt _, VNaN | VNaN, VNaN
  | VNaN, VFloat _ | VFloat _, VNaN => Ok VNaN
  | _, _ => OutOfModel
  end.

Fixpoint zip_arith (dt : dtype) (op : binop) (l1 l2 : list cell)
  : outcome (list cell) :=
  match l1, l2 with
  | [], [] => Ok []
  | a :: l1', b :: l2' =>
      match cell_arith dt op a b, zip_arith dt op l1' l2' with
      | Ok c, Ok l => Ok (c :: l)
      | Raise e, _ => Raise e
      | Ok _, Raise e => Raise e
      | _, _ => OutOfModel
      end
  | _, _ => OutOfModel
  end.

(** Arithmetic is decided by the dtypes first: a datetime64 operand is
    refused or outside the model; otherwise the cells are combined one by
    one.  A Python int operand of a column takes the dtype of the column
    when it is an int64. *)
Definition eval_binop (op : binop) (v1 v2 : pyval) : outcome pyval :=
  match v1, v2 with
  | PInt x, PInt y => Ok (PInt (int_op op x y))
  | PSeries dt1 l1, PSeries dt2 l2 =>
      if is_datetime64 dt1 then datetime_arith op (Some dt2)
      else if is_datetime64 dt2 then datetime_arith op (Some dt1)
      else
        let dt := arith_dtype dt1 dt2 in
        outcome_map (PSeries dt) (zip_arith dt op l1 l2)
  | PSeries dt l1, PInt y =>
      if is_datetime64 dt then datetime_arith op None
      else if in_int64 y then
        outcome_map (PSeries dt)
          (all_ok (map (fun a => cell_arith dt op a (VInt y)) l1))
      else OutOfModel
  | PInt x, PSeries dt l2 =>
      if is_datetime64 dt then datetime_arith op None
      else if in_int64 x then
        outcome_map (PSeries dt)
          (all_ok (map (fun b => cell_arith dt op (VInt x) b) l2))
      else OutOfModel
  | _, _ => OutOfModel
  end.

(** [del df[column]] on the contents. *)
Definition drop_column (d : DataFrame) (c : string) : DataFrame :=
  match col_pos c (columns d) with
  | Some i =>
      mkDataFrame (delete i (columns d)) (delete i (dtypes d))
                  (map (delete i) (rows d))
  | None => d
  end.

(** [frame[key]] *)
Definition eval_subscript (v k : pyval) : M pyval :=
  match v, k with
  | PFrame l, PStr c =>
      d <- read l ;;
      if has_column c d then ret (PSeries (col_dtype d c) (get_column d c))
      else raise (KeyError c)
  | _, _ => out_of_model
  end.

(** [frame.pop(key)]: returns the column and deletes it from the frame. *)
Definition eval_call (v : pyval) (method : string) (a : pyval) : M pyval :=
  match v, a with
  | PFrame l, PStr c =>
      if String.eqb method "pop" then
        d <- read l ;;
        if has_column c d then
          write l (drop_column d c) ;;;
          ret (PSeries (col_dtype d c) (get_column d c))
        else raise (KeyError c)
      else out_of_model
  | _, _ => out_of_model
  end.

Fixpoint eval_expr (sc : scope) (e : expr) : M pyval :=
  match e with
  | EName x => lift (lookup_name sc x)
  | EInt z => ret (PInt z)
  | EStr s => ret (PStr s)
  | ESubscript e1 k =>
      v <- eval_expr sc e1 ;; kv <- eval_expr sc k ;; eval_subscript v kv
  | ECall e1 m a =>
      v <- eval_expr sc e1 ;; av <- eval_expr sc a ;; eval_call v m av
  | EBin op l r =>
      vl <- eval_expr sc l ;; vr <- eval_expr sc r ;; lift (eval_binop op vl vr)
  end.

(** [eval(text)] *)
Definition py_eval (sc : scope) (text : string) : M pyval :=
  match parse_formula text with
  | Some e => eval_expr sc e
  | None => out_of_model
  end.

(** [df[column] = value]: a scalar is broadcast to every row (an int that
    fits gives an int64 column, a str an object column), a Series is
    stored cell by cell with its dtype. *)
Definition assign_column (l : loc) (c : string) (v : pyval) : M unit :=
  d <- read l ;;
  match v with
  | PInt z =>
      if in_int64 z then write l (set_column d c Int64 (repeat (VInt z) (df_len d)))
      else out_of_model
  | PStr s => write l (set_column d c Object (repeat (VStr s) (df_len d)))
  | PSeries dt vs =>
      if Nat.eqb (length vs) (df_len d) then write l (set_column d c dt vs)
      else out_of_model
  | PFrame _ => out_of_model
  end.

(** ** Rule and transform descriptors, and the outside world *)

(** A descriptor is the dict of one rule or transform; an absent key is
    [None]. *)
Record descriptor : Type := mkDescriptor {
  d_type : option string;
  d_min : option number;
  d_max : option number;
  d_regex : option string;
  d_formula : option string
}.

Definition ruleset : Type := list (string * descriptor).

(** What file and database access answer during one run; [None] in the
    database fields is success. *)
Record io : Type := mkIo {
  io_connect : option exn;
  io_exists : string -> bool;
  io_read_csv : string -> outcome DataFrame;
  io_to_sql : string -> DataFrame -> option exn;
  io_create_index : string -> string -> option exn
}.

Definition raise_if (r : option exn) : M unit :=
  match r with Some e => raise e | None => ret tt end.

Definition truthy {A} (d : option (list A)) : bool :=
  match d with Some (_ :: _) => true | _ => false end.

(** [self.stats['errors'] += 1] *)
Definition incr_errors : M unit :=
  update_stats
    (fun s => mkStats (extracted s) (transformed s) (loaded s) (errors s + 1)).

(** ** The methods of [ETLPipeline] *)

Section Engine.

(** [re.compile(pattern)] and the compiled pattern's [match]. *)
Variable re_compile : string -> option (string -> bool).
(** [pd.to_datetime(series, errors='coerce')] *)
Variable to_datetime : list cell -> list cell.

Definition connect_db (env : io) : M unit :=
  try_except
    (raise_if (io_connect env) ;;;
     set_connection ConnOpen ;;;
     db <- get_db_name ;;
     logging INFO (MsgConnected db))
    (fun e => logging ERROR (MsgConnectFailed e) ;;; raise e).

(** A connection object, open or already closed, is truthy; only [None]
    skips the close. *)
Definition close_db : M unit :=
  c <- get_connection ;;
  match c with
  | NoConnection => ret tt
  | _ => set_connection ConnClosed ;;; logging INFO MsgConnectionClosed
  end.

Definition extract_csv (env : io) (file_path : string) : M loc :=
  try_except
    (logging INFO (MsgExtracting file_path) ;;;
     (if io_exists env file_path then ret tt
      else raise (FileNotFoundError file_path)) ;;;
     d <- lift (io_read_csv env file_path) ;;
     df <- alloc d ;;
     update_stats
       (fun s => mkStats (df_len d) (transformed s) (loaded s) (errors s)) ;;;
     logging INFO (MsgRowsExtracted (df_len d)) ;;;
     logging INFO (MsgColumns (columns d)) ;;;
     ret df)
    (fun e =>
       logging ERROR (MsgExtractFailed e) ;;; incr_errors ;;; raise e).

Definition clean_data (df : loc) : M loc :=
  logging INFO MsgCleaning ;;;
  d <- read df ;;
  let initial_count := df_len d in
  let d_clean := drop_duplicates d in
  df_clean <- alloc d_clean ;;
  let duplicates_removed := initial_count - df_len d_clean in
  when (Nat.ltb 0 duplicates_removed)
       (logging INFO (MsgDuplicatesRemoved duplicates_removed)) ;;;
  let counts := null_counts d_clean in
  when (negb (Nat.eqb (length counts) 0))
       (logging INFO (MsgNullsDetected counts)) ;;;
  ret df_clean.

(** One iteration of the loop of [validate_data]. *)
Definition validate_rule (df_valid : loc) (column : string) (rule : descriptor)
  : M loc :=
  d <- read df_valid ;;
  if negb (has_column column d) then
    logging WARNING (MsgColumnNotFound column) ;;; ret df_valid
  else
    ty <- getitem "type" (d_type rule) ;;
    if String.eqb ty "not_null" then
      let mask := map notna (get_column d column) in
      let removed := count_false mask in
      df_valid' <- alloc (df_select d mask) ;;
      when (Nat.ltb 0 removed) (logging INFO (MsgRemovedNull removed column)) ;;;
      ret df_valid'
    else if String.eqb ty "range" then
      let dt := col_dtype d column in
      lo <- getitem "min" (d_min rule) ;;
      m1 <- lift (series_cmp dt Ge (get_column d column) lo) ;;
      hi <- getitem "max" (d_max rule) ;;
      m2 <- lift (series_cmp dt Le (get_column d column) hi) ;;
      let mask := mask_and m1 m2 in
      let removed := count_false mask in
      df_valid' <- alloc (df_select d mask) ;;
      when (Nat.ltb 0 removed) (logging INFO (MsgRemovedRange removed column)) ;;;
      ret df_valid'
    else if String.eqb ty "pattern" then
      (* astype(str) raises nothing; where the model has no text for a
         cell the computation leaves the model when the texts are matched *)
      let texts := series_astype_str (col_dtype d column) (get_column d column) in
      pat <- getitem "regex" (d_regex rule) ;;
      matcher <- match re_compile pat with
                 | Some m => ret m
                 | None => raise ReError
                 end ;;
      texts <- lift texts ;;
      let mask := map matcher texts in
      let removed := count_false mask in
      df_valid' <- alloc (df_select d mask) ;;
      when (Nat.ltb 0 removed) (logging INFO (MsgRemovedPattern removed column)) ;;;
      ret df_valid'
    else ret df_valid.

Fixpoint validate_loop (rules : ruleset) (df_valid : loc) : M loc :=
  match rules with
  | [] => ret df_valid
  | (column, rule) :: rest =>
      df_valid' <- validate_rule df_valid column rule ;;
      validate_loop rest df_valid'
  end.

Definition validate_data (df : loc) (rules : ruleset) : M loc :=
  logging INFO MsgValidating ;;;
  df_valid <- df_copy df ;;
  d0 <- read df_valid ;;
  let rows_before := df_len d0 in
  df_valid' <- validate_loop rules df_valid ;;
  d1 <- read df_valid' ;;
  let total_removed := rows_before - df_len d1 in
  when (Nat.ltb 0 total_removed) (logging INFO (MsgTotalRemoved total_removed)) ;;;
  ret df_valid'.

(** One iteration of the loop of [transform_data]. *)
Definition transform_rule (df df_transformed : loc) (column : string)
    (transform : descriptor) : M unit :=
  d <- read df_transformed ;;
  if negb (has_column column d) then
    logging WARNING (MsgColumnNotFound column)
  else
    ty <- getitem "type" (d_type transform) ;;
    if String.eqb ty "uppercase" then
      vs <- lift (series_str py_upper (col_dtype d column) (get_column d column)) ;;
      assign_column df_transformed column (PSeries Object vs) ;;;
      logging INFO (MsgUppercased column)
    else if String.eqb ty "lowercase" then
      vs <- lift (series_str py_lower (col_dtype d column) (get_column d column)) ;;
      assign_column df_transformed column (PSeries Object vs) ;;;
      logging INFO (MsgLowercased column)
    else if String.eqb ty "date" then
      (* the result is a datetime64 column: timestamps and NaT *)
      let vs := to_datetime (get_column d column) in
      (if forallb (fun v => is_date v || is_NaT v) vs
       then assign_column df_transformed column (PSeries Datetime64 vs)
       else out_of_model) ;;;
      logging INFO (MsgDateConverted column)
    else if String.eqb ty "category" then
      (* the categorical dtype astype('category') gives is outside the model *)
      out_of_model
    else if String.eqb ty "strip" then
      vs <- lift (series_str py_strip (col_dtype d column) (get_column d column)) ;;
      assign_column df_transformed column (PSeries Object vs) ;;;
      logging INFO (MsgStripped column)
    else if String.eqb ty "calculate" then
      formula <- getitem "formula" (d_formula transform) ;;
      v <- py_eval (mkScope df df_transformed column) formula ;;
      assign_column df_transformed column v ;;;
      logging INFO (MsgCalculated column formula)
    else ret tt.

Fixpoint transform_loop (df df_transformed : loc) (transformations : ruleset)
  : M unit :=
  match transformations with
  | [] => ret tt
  | (column, transform) :: rest =>
      transform_rule df df_transformed column transform ;;;
      transform_loop df df_transformed rest
  end.

Definition transform_data (df : loc) (transformations : ruleset) : M loc :=
  logging INFO MsgTransforming ;;;
  df_transformed <- df_copy df ;;
  transform_loop df df_transformed transformations ;;;
  d <- read df_transformed ;;
  update_stats
    (fun s => mkStats (extracted s) (df_len d) (loaded s) (errors s)) ;;;
  ret df_transformed.

(** [self.connection.cursor()] and [execute] need an open connection; any
    failure is logged as a warning and swallowed. *)
Definition create_indexes (env : io) (table_name : string)
    (cols : list string) : M unit :=
  try_except
    (c <- get_connection ;;
     match c with
     | ConnOpen =>
         match cols with
         | c0 :: _ =>
             raise_if (io_create_index env table_name c0) ;;;
             logging INFO
               (MsgIndexCreated
                  (String.append "idx_"
                     (String.append table_name (String.append "_" c0))))
         | [] => ret tt
         end
     | _ => raise (ExternalError "no open connection")
     end)
    (fun e => logging WARNING (MsgIndexFailed e)).

(** [df.to_sql] writes through [self.connection] and fails without an open
    one. *)
Definition load_to_db (env : io) (df : loc) (table_name : string) : M unit :=
  try_except
    (logging INFO (MsgLoading table_name) ;;;
     d <- read df ;;
     c <- get_connection ;;
     match c with
     | ConnOpen => raise_if (io_to_sql env table_name d)
     | _ => raise (ExternalError "no open connection")
     end ;;;
     update_stats
       (fun s => mkStats (extracted s) (transformed s) (df_len d) (errors s)) ;;;
     logging INFO (MsgRowsLoaded (df_len d) table_name) ;;;
     create_indexes env table_name (columns d))
    (fun e => logging ERROR (MsgLoadFailed e) ;;; incr_errors ;;; raise e).

(** The body of the [try] statement of [run_pipeline]. *)
Definition run_stages (env : io) (csv_file table_name : string)
    (validation_rules transformations : option ruleset) : M unit :=
  connect_db env ;;;
  df <- extract_csv env csv_file ;;
  df <- clean_data df ;;
  df <- (if truthy validation_rules
         then validate_data df (default [] validation_rules)
         else ret df) ;;
  df <- (if truthy transformations
         then transform_data df (default [] transformations)
         else ret df) ;;
  load_to_db env df table_name ;;;
  s <- get_stats ;;
  logging INFO MsgRule ;;;
  logging INFO MsgStatsHeader ;;;
  logging INFO MsgRule ;;;
  logging INFO (MsgStatExtracted (extracted s)) ;;;
  logging INFO (MsgStatTransformed (transformed s)) ;;;
  logging INFO (MsgStatLoaded (loaded s)) ;;;
  logging INFO (MsgStatErrors (errors s)) ;;;
  logging INFO MsgDuration ;;;
  logging INFO MsgRule ;;;
  logging INFO MsgPipelineSuccess ;;;
  logging INFO MsgRule.

(** The three records [run_pipeline] logs before the [try] statement. *)
Definition log_start : M unit :=
  logging INFO MsgRule ;;;
  logging INFO MsgPipelineStart ;;;
  logging INFO MsgRule.

Definition run_pipeline (env : io) (csv_file table_name : string)
    (validation_rules transformations : option ruleset) : M unit :=
  log_start ;;;
  try_finally
    (try_except
       (run_stages env csv_file table_name validation_rules transformations)
       (fun e => logging ERROR (MsgPipelineFailed e) ;;; raise e))
    close_db.

End Engine.

(** ** Instances of the parameters, to run the model on concrete inputs *)

(** A matcher for patterns made of literal characters: [re.match] succeeds
    when the text starts with the pattern. *)
Definition re_compile_literal (pat : string) : option (string -> bool) :=
  Some (fun text => String.prefix pat text).

(** A date parser that keeps timestamps and coerces everything else to NaT. *)
Definition to_datetime_coerce (col : list cell) : list cell :=
  map (fun v => match v with VDate iso => VDate iso | _ => VNaT end) col.

(** A file system and database where every access succeeds. *)
Definition io_ok (d : DataFrame) : io :=
  mkIo None (fun _ => true) (fun _ => Ok d) (fun _ _ => None) (fun _ _ => None).

(** A file system where the source file is missing. *)
Definition io_missing_file : io :=
  mkIo None (fun _ => false) (fun _ => OutOfModel) (fun _ _ => None)
       (fun _ _ => None).

Definition rule_not_null : descriptor :=
  mkDescriptor (Some "not_null") None None None None.
Definition rule_between (lo hi : number) : descriptor :=
  mkDescriptor (Some "range") (Some lo) (Some hi) None None.
Definition rule_range (lo hi : Z) : descriptor := rule_between (NInt lo) (NInt hi).
Definition rule_pattern (regex : string) : descriptor :=
  mkDescriptor (Some "pattern") None None (Some regex) None.
Definition transform_kind (kind : string) : descriptor :=
  mkDescriptor (Some kind) None None None None.
Definition transform_calculate (formula : string) : descriptor :=
  mkDescriptor (Some "calculate") None None None (Some formula).

(** A fresh pipeline object and a store holding the given frames. *)
Definition world_of (frames : list DataFrame) : world :=
  mkWorld (init_pipeline "data_warehouse.db") frames [].

(** Sample data, with the dtypes [read_csv] gives: an age column with a
    non-numeric entry is read as text, one with a missing entry as
    floats. *)
Definition df_bad_age : DataFrame :=
  mkDataFrame ["name"; "age"] [Object; Object]
    [[VStr "ann"; VStr "25"]; [VStr "bob"; VStr "abc"]; [VStr "cid"; VStr "40"]].

Definition df_clients : DataFrame :=
  mkDataFrame ["name"; "age"] [Object; Float64]
    [[VStr "ann"; VFloat 25]; [VStr "bob"; VFloat 17]; [VStr "cid"; VNaN];
     [VStr "dan"; VFloat 100]].

Definition df_prices : DataFrame :=
  mkDataFrame ["price"; "qty"; "total"] [Int64; Int64; Float64]
    [[VInt 10; VInt 3; VFloat 0]; [VInt 10; VInt 3; VNaN]].

Definition rules_clients : ruleset :=
  [("age", rule_range 18 100); ("email", rule_not_null);
   ("name", rule_pattern "")].

(** Every row has one cell per column. *)
Definition wf_df (d : DataFrame) : Prop :=
  Forall (fun r : row => length r = length (columns d)) (rows d).

(** ** Vocabulary of the specification *)

Definition validation_kinds : list string := ["not_null"; "range"; "pattern"].

Definition transformation_kinds : list string :=
  ["uppercase"; "lowercase"; "date"; "category"; "strip"; "calculate"].

Definition known_kind (kinds : list string) (ty : string) : bool :=
  existsb (String.eqb ty) kinds.

(** The number a cell holds. *)
Definition cell_value (v : cell) : option Q :=
  match v with
  | VInt z => Some (inject_Z z)
  | VFloat q => Some q
  | _ => None
  end.

(** [min <= cell <= max] on a numeric cell; no other cell is in range. *)
Definition in_range (lo hi : number) (v : cell) : bool :=
  match cell_value v with
  | Some x => Qle_bool (num_value lo) x && Qle_bool x (num_value hi)
  | None => false
  end.

(** The records a computation appended to the log. *)
Definition count_warnings (l : list log_record) : nat :=
  length (List.filter is_warning l).

(** The frame a reference holds. *)
Definition frame_at (w : world) (l : loc) : option DataFrame := heap w !! l.

(** A comparison against a bound as a predicate on cells. *)
Definition cmp_bool (op : cmp_op) (bound : number) (v : cell) : bool :=
  match cell_value v with
  | Some x => q_cmp op x (num_value bound)
  | None => false
  end.

(** The cells of a column of the given dtype a comparison with the bound
    accepts: in an int64 column ints, in a float64 column floats and NaN,
    provided the conversion the comparison needs is exact (the bound is an
    int64 against ints, the int is below [2^53] in size against floats); in
    an object column numbers and missing values.  A datetime64 column has
    none. *)
Definition comparable (dt : dtype) (b : number) (v : cell) : bool :=
  match dt, v with
  | Int64, VInt z =>
      match b with NInt n => in_int64 n | NFloat _ => exact_in_float z end
  | Float64, VFloat _ =>
      match b with NInt n => exact_in_float n | NFloat _ => true end
  | Float64, VNaN => true
  | Object, VInt _ | Object, VFloat _ | Object, VNaN | Object, VNaT => true
  | _, _ => false
  end.

(** A column a range comparison with the bound can be made on. *)
Definition range_ready (dt : dtype) (b : number) (col : list cell) : bool :=
  negb (is_datetime64 dt) && forallb (comparable dt b) col.

(** A str or timestamp cell of an object column: what makes the
    comparison with a number raise. *)
Definition refuses_number (dt : dtype) (col : list cell) : bool :=
  match dt with
  | Datetime64 => true
  | Object => existsb (fun v => is_str v || is_date v) col
  | _ => false
  end.

(** Every cell of the column has a text under [astype(str)]. *)
Definition has_text (dt : dtype) (v : cell) : bool :=
  match astype_str dt v with Some _ => true | None => false end.

Section Vocabulary.

Variable re_compile : string -> option (string -> bool).

(** The keep-predicate a rule puts on the cell of its column, in a frame
    with the columns and dtypes of [d]: the rows a rule of an unrecognised
    kind would drop are none. *)
Definition satisfies (d : DataFrame) (column : string)
    (rule : descriptor) (r : row) : bool :=
  let v := cell_at (columns d) column r in
  match d_type rule with
  | Some ty =>
      if String.eqb ty "not_null" then notna v
      else if String.eqb ty "range" then
        match d_min rule, d_max rule with
        | Some lo, Some hi => in_range lo hi v
        | _, _ => false
        end
      else if String.eqb ty "pattern" then
        match d_regex rule with
        | Some pat =>
            match re_compile pat, astype_str (col_dtype d column) v with
            | Some matcher, Some text => matcher text
            | _, _ => false
            end
        | None => false
        end
      else true
  | None => false
  end.

(** What one iteration of the validation loop keeps: a rule whose column
    is absent keeps every row. *)
Definition keeps (d : DataFrame) (cr : string * descriptor) (r : row)
  : bool :=
  match col_pos (fst cr) (columns d) with
  | Some _ => satisfies d (fst cr) (snd cr) r
  | None => true
  end.

(** A rule the loop runs on the dataset to a result the model has: its
    kind is given; a range rule has both bounds and a column both
    comparisons can be made on; a pattern rule has a pattern that compiles
    and a column whose every cell has a text. *)
Definition runs_on (d : DataFrame) (cr : string * descriptor) : bool :=
  match col_pos (fst cr) (columns d) with
  | None => true
  | Some _ =>
      let dt := col_dtype d (fst cr) in
      let col := get_column d (fst cr) in
      match d_type (snd cr) with
      | None => false
      | Some ty =>
          if String.eqb ty "not_null" then true
          else if String.eqb ty "range" then
            match d_min (snd cr), d_max (snd cr) with
            | Some lo, Some hi => range_ready dt lo col && range_ready dt hi col
            | _, _ => false
            end
          else if String.eqb ty "pattern" then
            match d_regex (snd cr) with
            | Some pat =>
                match re_compile pat with
                | Some _ => forallb (has_text dt) col
                | None => false
                end
            | None => false
            end
          else true
      end
  end.

(** The rules whose column exists in the dataset, in declaration order. *)
Definition applied (cols : list string) (rules : ruleset) : ruleset :=
  List.filter (fun cr => match col_pos (fst cr) cols with
                         | Some _ => true
                         | None => false
                         end) rules.

Definition satisfies_all (d : DataFrame) (rules : ruleset) (r : row)
  : bool :=
  forallb (fun cr => satisfies d (fst cr) (snd cr) r) (applied (columns d) rules).

End Vocabulary.

(** The connection is released: either none was ever opened, or it is
    closed and closing it was the last thing logged. *)
Definition released (w : world) : Prop :=
  connection (pipeline w) = NoConnection \/
  (connection (pipeline w) = ConnClosed /\
   last (log w) = Some (INFO, MsgConnectionClosed)).

(** The dataset a computation returns, read from the store it leaves. *)
Definition result_frame (r : outcome nat * world) : outcome (option DataFrame) :=
  outcome_map (fun l => heap (snd r) !! l) (fst r).

(** A stage applied to its own result. *)
Definition twice (stage : nat -> M nat) (df : nat) : M nat :=
  out <- stage df ;; stage out.



(** The formula of the price-times-quantity example, as [eval] needs it
    written: the columns are reached through the frame being transformed. *)
Definition formula_price_qty : string :=
  "df_transformed['price'] * df_transformed['qty']".

(** The int a cell holds. *)
Definition cell_int (v : cell) : Z :=
  match v with VInt z => z | _ => 0%Z end.

(** The product of the price and qty cells of a row. *)
Definition price_times_qty (cols : list string) (r : list cell) : cell :=
  VInt (cell_int (cell_at cols "price" r) * cell_int (cell_at cols "qty" r)).

(** The failure records the handlers of [extract_csv] and [load_to_db]
    write. *)
Definition is_io_failure (r : log_record) : bool :=
  match r with
  | (ERROR, MsgExtractFailed _) | (ERROR, MsgLoadFailed _) => true
  | _ => false
  end.

Definition io_failures (l : list log_record) : nat :=
  length (List.filter is_io_failure l).

Definition errors_of (w : world) : nat := errors (stats (pipeline w)).

(** The error counter moves with the failure records of the two handlers. *)
Definition errors_track (w w' : world) : Prop :=
  errors_of w' + io_failures (log w) = errors_of w + io_failures (log w').

(** A counter of the statistics keeps its value. *)
Definition same_on (f : Stats -> nat) (w w' : world) : Prop :=
  f (stats (pipeline w')) = f (stats (pipeline w)).

(** The objects below [n] in the store keep their contents. *)
Definition frame_below (n : nat) (w w' : world) : Prop :=
  n <= length (heap w) ->
  n <= length (heap w') /\ forall l, l < n -> heap w' !! l = heap w !! l.

(** A computation leaves the error counter as it was, whenever its outcome
    is one the model covers. *)
Definition keeps_errors {A} (m : M A) : Prop :=
  forall w, fst (m w) <> OutOfModel -> errors_of (snd (m w)) = errors_of w.

(** A computation relates every world it starts in to the world it leaves,
    whatever its outcome. *)
Definition preserves {A} (R : world -> world -> Prop) (m : M A) : Prop :=
  forall w, R w (snd (m w)).

(** A formula of the modelled fragment with no method call. *)
Fixpoint call_free (e : expr) : bool :=
  match e with
  | EName _ | EInt _ | EStr _ => true
  | ESubscript e1 k => call_free e1 && call_free k
  | ECall _ _ _ => false
  | EBin _ l r => call_free l && call_free r
  end.

Definition call_free_formula (text : string) : bool :=
  match parse_formula text with
  | Some e => call_free e
  | None => false
  end.

Definition call_free_descriptor (t : descriptor) : bool :=
  match d_formula t with
  | Some text => call_free_formula text
  | None => true
  end.

Definition call_free_rules (ts : ruleset) : bool :=
  forallb (fun ct => call_free_descriptor (snd ct)) ts.

(** What a [.str] transform does to one existing column of the copy. *)
Definition str_step (f : string -> string) (m : message) (l : loc) (c : string)
    (d : DataFrame) (w : world) : outcome unit * world :=
  if str_accessor_ok (col_dtype d c) (get_column d c) then
    if str_result_modelled (get_column d c) then
      (Ok tt,
       mkWorld (pipeline w)
         (<[l := set_column d c Object (map (str_method f) (get_column d c))]>
            (heap w))
         (log w ++ [(INFO, m)]))
    else (OutOfModel, w)
  else (Raise AttributeError, w).

(** ** Vocabulary of the further properties *)

(** The pipeline object (statistics and connection) keeps its state. *)
Definition same_pipeline (w w' : world) : Prop := pipeline w' = pipeline w.

(** Every object of the store keeps its number of rows. *)
Definition lens_kept (w w' : world) : Prop :=
  forall l d, heap w !! l = Some d ->
    exists d', heap w' !! l = Some d' /\ df_len d' = df_len d.


(** No row equals a later row. *)
Fixpoint distinct_rows (rs : list row) : bool :=
  match rs with
  | [] => true
  | r :: rs' => negb (existsb (fun x => row_eqb x r) rs') && distinct_rows rs'
  end.

(** What [clean_data] logs when it returns the dataset [d'] for the
    dataset [d]. *)
Definition cleaning_log (d d' : DataFrame) : list log_record :=
  (INFO, MsgCleaning)
  :: (if Nat.ltb 0 (df_len d - df_len d')
      then [(INFO, MsgDuplicatesRemoved (df_len d - df_len d'))] else [])
  ++ (if Nat.eqb (length (null_counts d')) 0 then []
      else [(INFO, MsgNullsDetected (null_counts d'))]).




Section Vocabulary2.

Variable re_compile : string -> option (string -> bool).

(** The dataset the validation loop leaves after a list of rules. *)
Definition run_rules (rules : ruleset) (d : DataFrame) : DataFrame :=
  with_rows d
    (fold_left (fun rs cr => List.filter (keeps re_compile d cr) rs)
               rules (rows d)).

(** Every rule, taken in order, can run on the dataset the earlier rules
    left. *)
Fixpoint loop_runs (rules : ruleset) (d : DataFrame) : bool :=
  match rules with
  | [] => true
  | cr :: rest =>
      runs_on re_compile d cr && loop_runs rest (run_rules [cr] d)
  end.



End Vocabulary2.

(** A transform that is not a calculate transform. *)
Definition not_calculate (t : descriptor) : bool :=
  match d_type t with
  | Some ty => negb (String.eqb ty "calculate")
  | None => true
  end.

(** In the object at [l], the column list and row count stay and only the
    columns named in [names] may change. *)
Definition only_named (l : nat) (names : list string) (w w' : world) : Prop :=
  forall d, heap w !! l = Some d ->
    exists d', heap w' !! l = Some d' /\
      columns d' = columns d /\
      df_len d' = df_len d /\
      forall c, ~ In c names -> get_column d' c = get_column d c.

(** The name [create_indexes] gives the index on a column. *)
Definition index_name (table column : string) : string :=
  String.append "idx_" (String.append table (String.append "_" column)).

(** The last record [load_to_db] logs after a successful write. *)
Definition index_record (env : io) (table : string) (d : DataFrame) : log_record :=
  match columns d with
  | [] => (INFO, MsgRowsLoaded (df_len d) table)
  | c0 :: _ =>
      match io_create_index env table c0 with
      | None => (INFO, MsgIndexCreated (index_name table c0))
      | Some e => (WARNING, MsgIndexFailed e)
      end
  end.

(** The statistics with one more error. *)
Definition one_more_error (s : Stats) : Stats :=
  mkStats (extracted s) (transformed s) (loaded s) (errors s + 1).

(** The pipeline object with other statistics. *)
Definition with_stats (p : ETLPipeline) (s : Stats) : ETLPipeline :=
  mkPipeline (db_name p) (connection p) s.

(** Sample data for the further properties: repeated rows, padded city
    names, and worlds whose pipeline holds an open connection. *)
Definition df_repeats : DataFrame :=
  mkDataFrame ["name"; "age"] [Object; Float64]
    [[VStr "ann"; VFloat 25]; [VStr "bob"; VNaN]; [VStr "ann"; VFloat 25];
     [VStr "bob"; VNaN]; [VStr "cid"; VFloat 40]].




Definition df_cities : DataFrame :=
  mkDataFrame ["id"; "city"] [Int64; Object]
    [[VInt 1; VStr "  Paris  "]; [VInt 2; VStr "Lyon"]; [VInt 3; VNaN]].

Definition world_open (frames : list DataFrame) : world :=
  mkWorld (mkPipeline "data_warehouse.db" ConnOpen (mkStats 0 0 0 0)) frames
          [(INFO, MsgConnected "data_warehouse.db")].

(** A database that takes the table and refuses the index, and one that
    refuses the table. *)
Definition io_no_index (d : DataFrame) : io :=
  mkIo None (fun _ => true) (fun _ => Ok d) (fun _ _ => None)
       (fun _ _ => Some (ExternalError "index")).

Definition io_no_table (d : DataFrame) : io :=
  mkIo None (fun _ => true) (fun _ => Ok d)
       (fun _ _ => Some (ExternalError "table")) (fun _ _ => None).

Definition io_no_connection : io :=
  mkIo (Some (ExternalError "connect")) (fun _ => true) (fun _ => OutOfModel)
       (fun _ _ => None) (fun _ _ => None).

(** * Properties *)

(** ** The store and the monad *)

Lemma lookup_alloc (h : list DataFrame) (d : DataFrame) :
  (h ++ [d]) !! length h = Some d.
Proof. by apply list_lookup_middle. Qed.

Lemma lookup_alloc_old (h : list DataFrame) (d d' : DataFrame) (l : loc) :
  h !! l = Some d -> (h ++ [d']) !! l = Some d.
Proof. intros H. by apply lookup_app_l_Some. Qed.

Lemma bind_ok_inv {A B} (m : M A) (k : A -> M B) (w w' : world) (b : B) :
  bind m k w = (Ok b, w') ->
  exists a w1, m w = (Ok a, w1) /\ k a w1 = (Ok b, w').
Proof.
  unfold bind. destruct (m w) as [[a | e |] w1]; intros H; try discriminate.
  exists a, w1. by split.
Qed.

Lemma select_rows_map (p : row -> bool) (rs : list row) :
  select_rows (map p rs) rs = List.filter p rs.
Proof.
  induction rs as [| r rs IH]; simpl; [done |].
  destruct (p r); by rewrite IH.
Qed.

Lemma select_rows_map_cell (p : cell -> bool) (f : row -> cell) (rs : list row) :
  select_rows (map p (map f rs)) rs = List.filter (fun r => p (f r)) rs.
Proof. rewrite map_map. apply select_rows_map. Qed.

(** ** Masks, filters and comparisons *)

Lemma all_ok_map_total {A B} (f : A -> outcome B) (g : A -> B) (l : list A) :
  (forall a, In a l -> f a = Ok (g a)) -> all_ok (map f l) = Ok (map g l).
Proof.
  induction l as [| a l IH]; simpl; intros H; [reflexivity |].
  rewrite (H a) by auto. rewrite IH by auto. reflexivity.
Qed.

Lemma all_ok_map_inv {A B} (f : A -> outcome B) (g : A -> B) (l : list A)
    (m : list B) :
  (forall a r, f a = Ok r -> r = g a) ->
  all_ok (map f l) = Ok m -> m = map g l.
Proof.
  intros Hf. revert m. induction l as [| a l IH]; simpl; intros m H.
  - by inversion H.
  - destruct (f a) as [r | |] eqn:E; try discriminate.
    destruct (all_ok (map f l)) as [m' | |]; try discriminate.
    inversion H; subst. by rewrite (Hf a r E), (IH m').
Qed.

Lemma cmp_cell_ok (dt : dtype) (op : cmp_op) (b : number) (v : cell) (r : bool) :
  cmp_cell dt op b v = Ok r -> r = cmp_bool op b v.
Proof.
  unfold cmp_bool. destruct dt, v; simpl; try discriminate;
    repeat match goal with
           | |- context [if ?g then _ else _] => destruct g
           end;
    intros H; inversion H; reflexivity.
Qed.

Lemma cmp_cell_comparable (dt : dtype) (op : cmp_op) (b : number) (v : cell) :
  comparable dt b v = true -> cmp_cell dt op b v = Ok (cmp_bool op b v).
Proof.
  unfold cmp_bool. destruct dt, v; simpl; try discriminate; try reflexivity;
    intros ->; reflexivity.
Qed.

Lemma series_cmp_ok (dt : dtype) (op : cmp_op) (col : list cell) (b : number)
    (m : list bool) :
  series_cmp dt op col b = Ok m -> m = map (cmp_bool op b) col.
Proof.
  unfold series_cmp. destruct (is_datetime64 dt); [discriminate |].
  apply all_ok_map_inv. intros v r. apply cmp_cell_ok.
Qed.

Lemma series_cmp_ready (dt : dtype) (op : cmp_op) (col : list cell) (b : number) :
  range_ready dt b col = true ->
  series_cmp dt op col b = Ok (map (cmp_bool op b) col).
Proof.
  unfold range_ready, series_cmp. intros H. apply andb_prop in H as [Hdt H].
  apply negb_true_iff in Hdt. rewrite Hdt. apply all_ok_map_total.
  intros v Hv. rewrite forallb_forall in H. by apply cmp_cell_comparable, H.
Qed.

Lemma series_cmp_refuses (dt : dtype) (op : cmp_op) (col : list cell) (b : number) :
  refuses_number dt col = true -> series_cmp dt op col b = Raise TypeError.
Proof.
  unfold series_cmp. destruct dt; simpl; try discriminate; [| reflexivity].
  induction col as [| v col IH]; simpl; [discriminate |].
  destruct v; simpl; intros H; try reflexivity; rewrite IH by exact H; reflexivity.
Qed.

Lemma mask_and_map {A} (f g : A -> bool) (l : list A) :
  mask_and (map f l) (map g l) = map (fun a => f a && g a) l.
Proof. induction l as [| a l IH]; simpl; [done | by rewrite IH]. Qed.

Lemma in_range_cmp (lo hi : number) (v : cell) :
  cmp_bool Ge lo v && cmp_bool Le hi v = in_range lo hi v.
Proof. unfold cmp_bool, in_range. by destruct (cell_value v). Qed.

Lemma filter_ext_in {A} (p q : A -> bool) (l : list A) :
  (forall a, In a l -> p a = q a) -> List.filter p l = List.filter q l.
Proof.
  induction l as [| a l IH]; simpl; intros H; [done |].
  rewrite (H a) by auto. rewrite IH by auto. done.
Qed.

Lemma filter_true {A} (l : list A) : List.filter (fun _ => true) l = l.
Proof. induction l as [| a l IH]; simpl; [done | by rewrite IH]. Qed.

Lemma filter_filter {A} (p q : A -> bool) (l : list A) :
  List.filter q (List.filter p l) = List.filter (fun a => p a && q a) l.
Proof.
  induction l as [| a l IH]; simpl; [done |].
  destruct (p a); simpl; [destruct (q a) |]; by rewrite IH.
Qed.

Lemma frame_eta (d : DataFrame) : with_rows d (rows d) = d.
Proof. by destruct d. Qed.

Lemma has_column_pos (c : string) (d : DataFrame) :
  has_column c d = true -> exists i, col_pos c (columns d) = Some i.
Proof. unfold has_column. destruct (col_pos c (columns d)); eauto; discriminate. Qed.

Lemma fold_filter {A P} (pr : P -> A -> bool) (ps : list P) (l : list A) :
  fold_left (fun rs p => List.filter (pr p) rs) ps l =
  List.filter (fun a => forallb (fun p => pr p a) ps) l.
Proof.
  revert l. induction ps as [| p ps IH]; intros l; simpl.
  - by rewrite filter_true.
  - rewrite IH. apply filter_filter.
Qed.

Lemma filter_incl_map {A B} (f : A -> B) (p : A -> bool) (l : list A) (b : B) :
  In b (map f (List.filter p l)) -> In b (map f l).
Proof.
  rewrite !in_map_iff. intros (a & Ha & Hin). exists a. split; [done |].
  apply filter_In in Hin. tauto.
Qed.

(** ** Case folding and columns of strings *)
























Lemma zip_rows_map (h : row -> cell -> row) (g : row -> cell) (rs : list row) :
  zip_rows h rs (map g rs) = map (fun r => h r (g r)) rs.
Proof. induction rs as [| r rs IH]; simpl; [done | by rewrite IH]. Qed.


Lemma insert_alloc (h : list DataFrame) (x y : DataFrame) :
  <[length h := x]> (h ++ [y]) = h ++ [x].
Proof. induction h as [| z h IH]; simpl; [done | by rewrite IH]. Qed.

(** The cell a row holds under a column after the column was assigned:
    the new value, or still missing when the row is too short. *)
Lemma cell_at_insert (cols : list string) (c : string) (i : nat) (v : cell)
    (r : row) :
  col_pos c cols = Some i ->
  cell_at cols c (<[i := v]> r) = if decide (i < length r) then v else VNaN.
Proof.
  intros Hpos. unfold cell_at. rewrite Hpos.
  destruct (decide (i < length r)) as [Hlt | Hge].
  - by rewrite list_lookup_insert_eq.
  - rewrite list_insert_ge by lia. rewrite lookup_ge_None_2 by lia. reflexivity.
Qed.






(** ** Assigning a column *)

Lemma col_pos_lt (c : string) (cols : list string) (i : nat) :
  col_pos c cols = Some i -> i < length cols.
Proof.
  revert i. induction cols as [| c' cols IH]; simpl; intros i; [discriminate |].
  destruct (String.eqb c c').
  - intros H; inversion H. lia.
  - destruct (col_pos c cols) as [j |]; [| discriminate].
    intros H; inversion H. specialize (IH j eq_refl). lia.
Qed.

Lemma col_pos_inj (c c' : string) (cols : list string) (i : nat) :
  col_pos c cols = Some i -> col_pos c' cols = Some i -> c = c'.
Proof.
  revert i. induction cols as [| x cols IH]; simpl; intros i; [discriminate |].
  destruct (String.eqb c x) eqn:E1, (String.eqb c' x) eqn:E2.
  - intros _ _. apply String.eqb_eq in E1, E2. congruence.
  - intros H1. destruct (col_pos c' cols); [| discriminate].
    intros H2. inversion H1; inversion H2; lia.
  - destruct (col_pos c cols); [| discriminate].
    intros H1 H2. inversion H1; inversion H2; lia.
  - destruct (col_pos c cols) as [j |]; [| discriminate].
    destruct (col_pos c' cols) as [j' |]; [| discriminate].
    intros H1 H2. inversion H1; inversion H2; subst. apply (IH j'); congruence.
Qed.

Lemma set_column_map (d : DataFrame) (c : string) (i : nat) (dt : dtype)
    (g : row -> cell) :
  col_pos c (columns d) = Some i ->
  set_column d c dt (map g (rows d)) =
    mkDataFrame (columns d) (<[i := dt]> (dtypes d))
                (map (fun r => <[i := g r]> r) (rows d)).
Proof. intros Hpos. unfold set_column. by rewrite Hpos, zip_rows_map. Qed.

Lemma get_column_set_same (d : DataFrame) (c : string) (dt : dtype)
    (g : row -> cell) :
  wf_df d -> has_column c d = true ->
  get_column (set_column d c dt (map g (rows d))) c = map g (rows d).
Proof.
  intros Hwf Hc. destruct (has_column_pos _ _ Hc) as [i Hpos].
  rewrite (set_column_map _ _ _ _ _ Hpos). unfold get_column; simpl.
  rewrite List.map_map. apply map_ext_in. intros r Hr.
  rewrite (cell_at_insert _ _ _ _ _ Hpos).
  unfold wf_df in Hwf. rewrite List.Forall_forall in Hwf.
  specialize (Hwf r Hr). apply col_pos_lt in Hpos.
  destruct (decide (i < length r)); [reflexivity | lia].
Qed.

Lemma get_column_set_other (d : DataFrame) (c c' : string) (dt : dtype)
    (g : row -> cell) :
  has_column c d = true -> c' <> c ->
  get_column (set_column d c dt (map g (rows d))) c' = get_column d c'.
Proof.
  intros Hc Hne. destruct (has_column_pos _ _ Hc) as [i Hpos].
  rewrite (set_column_map _ _ _ _ _ Hpos). unfold get_column; simpl.
  rewrite List.map_map. apply map_ext. intros r. unfold cell_at.
  destruct (col_pos c' (columns d)) as [j |] eqn:Hj; [| reflexivity].
  rewrite list_lookup_insert_ne; [reflexivity |].
  intros ->. apply Hne. symmetry. by eapply col_pos_inj.
Qed.

Lemma wrap64_small (z : Z) : in_int64 z = true -> wrap64 z = z.
Proof.
  unfold in_int64, wrap64. intros H. apply andb_prop in H as [H1 H2].
  apply Z.leb_le in H1. apply Z.ltb_lt in H2.
  rewrite Z.mod_small; lia.
Qed.

Lemma cell_arith_small (dt : dtype) (op : binop) (x y : Z) :
  in_int64 (int_op op x y) = true ->
  cell_arith dt op (VInt x) (VInt y) = Ok (VInt (int_op op x y)).
Proof.
  intros H. simpl. destruct dt; rewrite ?H, ?wrap64_small; auto.
Qed.

(** Arithmetic on two columns of ints whose results are int64: no wrap,
    whatever the dtypes. *)
Lemma zip_arith_ints (dt : dtype) (op : binop) (fa fb : row -> cell)
    (rs : list row) :
  Forall (fun r => is_int (fa r) = true /\ is_int (fb r) = true /\
                   in_int64 (int_op op (cell_int (fa r)) (cell_int (fb r))) = true)
         rs ->
  zip_arith dt op (map fa rs) (map fb rs) =
    Ok (map (fun r => VInt (int_op op (cell_int (fa r)) (cell_int (fb r)))) rs).
Proof.
  induction 1 as [| r rs (Ha & Hb & Hr) _ IH]; simpl; [reflexivity |].
  destruct (fa r) as [x | | | | |], (fb r) as [y | | | | |]; try discriminate.
  simpl in Hr. rewrite IH. change (cell_arith dt op (VInt x) (VInt y)) with
    (cell_arith dt op (VInt x) (VInt y)).
  by rewrite (cell_arith_small dt op x y Hr).
Qed.

Lemma parse_formula_price_qty :
  parse_formula formula_price_qty =
    Some (EBin OpMul (ESubscript (EName "df_transformed") (EStr "price"))
                     (ESubscript (EName "df_transformed") (EStr "qty"))).
Proof. vm_compute. reflexivity. Qed.

Lemma parse_formula_bare_names :
  parse_formula "price * qty" = Some (EBin OpMul (EName "price") (EName "qty")).
Proof. vm_compute. reflexivity. Qed.

(** ** Relations every step of a computation keeps *)

Section Preservation.

Context {R : world -> world -> Prop} `{!PreOrder R}.

Lemma preserves_ret {A} (a : A) : preserves R (ret a).
Proof. intros w. reflexivity. Qed.

Lemma preserves_raise {A} (e : exn) : preserves R (@raise A e).
Proof. intros w. reflexivity. Qed.

Lemma preserves_out_of_model {A} : preserves R (@out_of_model A).
Proof. intros w. reflexivity. Qed.

Lemma preserves_lift {A} (o : outcome A) : preserves R (lift o).
Proof. intros w. reflexivity. Qed.

Lemma preserves_read (l : loc) : preserves R (read l).
Proof. intros w. unfold read. destruct (heap w !! l); reflexivity. Qed.

Lemma preserves_get_stats : preserves R get_stats.
Proof. intros w. reflexivity. Qed.

Lemma preserves_get_connection : preserves R get_connection.
Proof. intros w. reflexivity. Qed.

Lemma preserves_get_db_name : preserves R get_db_name.
Proof. intros w. reflexivity. Qed.

Lemma preserves_bind {A B} (m : M A) (k : A -> M B) :
  preserves R m -> (forall a, preserves R (k a)) -> preserves R (bind m k).
Proof.
  intros Hm Hk w. unfold bind. specialize (Hm w).
  destruct (m w) as [[a | e |] w1]; simpl in *; auto.
  etrans; [exact Hm | apply Hk].
Qed.

Lemma preserves_try_except {A} (m : M A) (h : exn -> M A) :
  preserves R m -> (forall e, preserves R (h e)) -> preserves R (try_except m h).
Proof.
  intros Hm Hh w. unfold try_except. specialize (Hm w).
  destruct (m w) as [[a | e |] w1]; simpl in *; auto.
  etrans; [exact Hm | apply Hh].
Qed.

Lemma preserves_try_finally {A} (m : M A) (f : M unit) :
  preserves R m -> preserves R f -> preserves R (try_finally m f).
Proof.
  intros Hm Hf w. unfold try_finally. specialize (Hm w).
  destruct (m w) as [[a | e |] w1]; simpl in *; auto;
    (etrans; [exact Hm |]);
    apply preserves_bind; auto; intros; first [apply preserves_ret | apply preserves_raise].
Qed.

Lemma preserves_when (b : bool) (m : M unit) :
  preserves R m -> preserves R (when b m).
Proof. intros Hm. destruct b; simpl; [exact Hm | apply preserves_ret]. Qed.

Lemma preserves_getitem {A} (key : string) (field : option A) :
  preserves R (getitem key field).
Proof. destruct field; [apply preserves_ret | apply preserves_raise]. Qed.

Lemma preserves_bind_getitem {A B} (key : string) (field : option A)
    (k : A -> M B) :
  (forall a, field = Some a -> preserves R (k a)) ->
  preserves R (bind (getitem key field) k).
Proof.
  intros Hk. destruct field as [a |]; simpl.
  - intros w. apply (Hk a eq_refl).
  - intros w. reflexivity.
Qed.

Lemma preserves_raise_if (r : option exn) : preserves R (raise_if r).
Proof. destruct r; [apply preserves_raise | apply preserves_ret]. Qed.

End Preservation.

(** The three relations are preorders. *)

#[global] Instance errors_track_preorder : PreOrder errors_track.
Proof.
  split.
  - intros w. unfold errors_track. lia.
  - intros w1 w2 w3. unfold errors_track. lia.
Qed.

#[global] Instance same_on_preorder (f : Stats -> nat) : PreOrder (same_on f).
Proof.
  split.
  - intros w. reflexivity.
  - intros w1 w2 w3. unfold same_on. congruence.
Qed.

#[global] Instance frame_below_preorder (n : nat) : PreOrder (frame_below n).
Proof.
  split.
  - intros w Hn. split; [exact Hn | reflexivity].
  - intros w1 w2 w3 H12 H23 Hn.
    destruct (H12 Hn) as [Hn2 E12]. destruct (H23 Hn2) as [Hn3 E23].
    split; [exact Hn3 |]. intros l Hl. rewrite E23, E12; auto.
Qed.

Lemma io_failures_snoc (l : list log_record) (r : log_record) :
  io_failures (l ++ [r]) = io_failures l + (if is_io_failure r then 1 else 0).
Proof.
  unfold io_failures. rewrite List.filter_app, length_app. simpl.
  destruct (is_io_failure r); reflexivity.
Qed.

(** The error counter. *)

Lemma track_logging (lv : level) (m : message) :
  is_io_failure (lv, m) = false -> preserves errors_track (logging lv m).
Proof.
  intros Hm w. unfold errors_track, errors_of; simpl.
  rewrite io_failures_snoc, Hm. lia.
Qed.

Lemma track_alloc (d : DataFrame) : preserves errors_track (alloc d).
Proof. intros w. unfold errors_track, errors_of; simpl. lia. Qed.

Lemma track_write (l : loc) (d : DataFrame) : preserves errors_track (write l d).
Proof. intros w. unfold errors_track, errors_of; simpl. lia. Qed.

Lemma track_set_connection (c : connection_state) :
  preserves errors_track (set_connection c).
Proof. intros w. unfold errors_track, errors_of; simpl. lia. Qed.

Lemma track_update_stats (f : Stats -> Stats) :
  (forall s, errors (f s) = errors s) -> preserves errors_track (update_stats f).
Proof. intros Hf w. unfold errors_track, errors_of; simpl. rewrite Hf. lia. Qed.

(** A handler that logs its failure record and counts it. *)
Lemma track_counted_failure {A} (m : message) (e : exn) :
  is_io_failure (ERROR, m) = true ->
  preserves errors_track (logging ERROR m ;;; incr_errors ;;; @raise A e).
Proof.
  intros Hm w. unfold errors_track, errors_of; simpl.
  rewrite io_failures_snoc, Hm. lia.
Qed.

(** One counter of the statistics. *)

Lemma same_logging (f : Stats -> nat) (lv : level) (m : message) :
  preserves (same_on f) (logging lv m).
Proof. intros w. reflexivity. Qed.

Lemma same_alloc (f : Stats -> nat) (d : DataFrame) : preserves (same_on f) (alloc d).
Proof. intros w. reflexivity. Qed.

Lemma same_write (f : Stats -> nat) (l : loc) (d : DataFrame) :
  preserves (same_on f) (write l d).
Proof. intros w. reflexivity. Qed.

Lemma same_set_connection (f : Stats -> nat) (c : connection_state) :
  preserves (same_on f) (set_connection c).
Proof. intros w. reflexivity. Qed.

Lemma same_update_stats (f : Stats -> nat) (g : Stats -> Stats) :
  (forall s, f (g s) = f s) -> preserves (same_on f) (update_stats g).
Proof. intros Hg w. unfold same_on; simpl. apply Hg. Qed.

(** The objects of the caller. *)

Lemma frame_logging (n : nat) (lv : level) (m : message) :
  preserves (frame_below n) (logging lv m).
Proof. intros w Hn; simpl. split; auto. Qed.

Lemma frame_update_stats (n : nat) (g : Stats -> Stats) :
  preserves (frame_below n) (update_stats g).
Proof. intros w Hn; simpl. split; auto. Qed.

Lemma frame_alloc (n : nat) (d : DataFrame) : preserves (frame_below n) (alloc d).
Proof.
  intros w Hn; simpl. split.
  - rewrite length_app. lia.
  - intros l Hl. apply lookup_app_l. lia.
Qed.

Lemma frame_write (n : nat) (l : loc) (d : DataFrame) :
  n <= l -> preserves (frame_below n) (write l d).
Proof.
  intros Hnl w Hn; simpl. split.
  - rewrite length_insert. exact Hn.
  - intros l' Hl'. apply list_lookup_insert_ne. lia.
Qed.

(** Structural steps of a preservation proof. *)
Ltac pres_step :=
  lazymatch goal with
  | |- preserves _ (bind (getitem _ _) _) =>
      apply preserves_bind_getitem; intros ? ?
  | |- preserves _ (bind _ _) => apply preserves_bind; [| intros ?]
  | |- preserves _ (try_except _ _) => apply preserves_try_except; [| intros ?]
  | |- preserves _ (try_finally _ _) => apply preserves_try_finally
  | |- preserves _ (when _ _) => apply preserves_when
  | |- preserves _ (ret _) => apply preserves_ret
  | |- preserves _ (raise _) => apply preserves_raise
  | |- preserves _ out_of_model => apply preserves_out_of_model
  | |- preserves _ (lift _) => apply preserves_lift
  | |- preserves _ (read _) => apply preserves_read
  | |- preserves _ get_stats => apply preserves_get_stats
  | |- preserves _ get_connection => apply preserves_get_connection
  | |- preserves _ get_db_name => apply preserves_get_db_name
  | |- preserves _ (getitem _ _) => apply preserves_getitem
  | |- preserves _ (raise_if _) => apply preserves_raise_if
  | |- preserves errors_track (logging _ _) => apply track_logging; reflexivity
  | |- preserves errors_track (alloc _) => apply track_alloc
  | |- preserves errors_track (write _ _) => apply track_write
  | |- preserves errors_track (set_connection _) => apply track_set_connection
  | |- preserves errors_track (update_stats _) =>
      apply track_update_stats; intros ?; reflexivity
  | |- preserves (same_on _) (logging _ _) => apply same_logging
  | |- preserves (same_on _) (alloc _) => apply same_alloc
  | |- preserves (same_on _) (write _ _) => apply same_write
  | |- preserves (same_on _) (set_connection _) => apply same_set_connection
  | |- preserves (same_on _) (update_stats _) =>
      apply same_update_stats; intros ?; reflexivity
  | |- preserves (frame_below _) (logging _ _) => apply frame_logging
  | |- preserves (frame_below _) (alloc _) => apply frame_alloc
  | |- preserves (frame_below _) (update_stats _) => apply frame_update_stats
  | |- preserves (frame_below _) (write _ _) => apply frame_write; lia
  | |- preserves _ (if ?b then _ else _) => destruct b
  | |- preserves _ (match ?x with _ => _ end) => destruct x
  end.

Create HintDb pres.

Ltac pres := repeat pres_step; eauto with pres.

Section Properties.

Variable re_compile : string -> option (string -> bool).
Variable to_datetime : list cell -> list cell.

(** *** What validation keeps *)

Lemma series_astype_str_ok (dt : dtype) (col : list cell) (ts : list string)
    (matcher : string -> bool) :
  series_astype_str dt col = Ok ts ->
  map matcher ts =
    map (fun v => match astype_str dt v with
                  | Some t => matcher t
                  | None => false
                  end) col.
Proof.
  unfold series_astype_str. revert ts.
  induction col as [| v col IH]; simpl; intros ts H.
  - by inversion H.
  - destruct (astype_str dt v) as [t |]; simpl in H; try discriminate.
    destruct (all_ok _) as [ts' | |]; try discriminate.
    inversion H; subst; simpl. by rewrite (IH ts').
Qed.

Lemma series_astype_str_total (dt : dtype) (col : list cell) :
  forallb (has_text dt) col = true ->
  exists ts, series_astype_str dt col = Ok ts.
Proof.
  unfold series_astype_str, has_text.
  induction col as [| v col IH]; simpl; intros H; [eauto |].
  apply andb_prop in H as [Hv H]. destruct (IH H) as [ts E].
  destruct (astype_str dt v) as [t |]; [| discriminate]. simpl.
  rewrite E. eauto.
Qed.

Lemma validate_rule_ok (w w' : world) (l l' : loc) (c : string)
    (rule : descriptor) (d : DataFrame) :
  heap w !! l = Some d ->
  validate_rule re_compile l c rule w = (Ok l', w') ->
  heap w' !! l' =
    Some (with_rows d (List.filter (keeps re_compile d (c, rule)) (rows d))).
Proof.
  intros Hd. unfold validate_rule, keeps, satisfies. simpl.
  unfold bind at 1. unfold read. rewrite Hd.
  unfold has_column.
  destruct (col_pos c (columns d)) as [i |] eqn:Hpos; simpl.
  2:{ unfold bind, logging, ret; simpl. intros H; inversion H; subst; simpl.
      rewrite filter_true, frame_eta. exact Hd. }
  destruct (d_type rule) as [ty |]; simpl; [| unfold bind, raise; simpl; discriminate].
  unfold bind at 1. simpl.
  destruct (String.eqb ty "not_null").
  { unfold bind, alloc, when, logging, ret; simpl.
    destruct (Nat.ltb 0 _); simpl; intros H; inversion H; subst; simpl;
      rewrite lookup_alloc; unfold df_select, get_column;
      by rewrite select_rows_map_cell. }
  destruct (String.eqb ty "range").
  { destruct (d_min rule) as [lo |]; simpl; [| unfold bind, raise; simpl; discriminate].
    unfold bind at 1. simpl. unfold bind at 1. unfold lift at 1.
    destruct (series_cmp _ Ge (get_column d c) lo) as [m1 | |] eqn:H1; try discriminate.
    destruct (d_max rule) as [hi |]; simpl; [| unfold bind, raise; simpl; discriminate].
    unfold bind at 1. simpl. unfold bind at 1. unfold lift at 1.
    destruct (series_cmp _ Le (get_column d c) hi) as [m2 | |] eqn:H2; try discriminate.
    apply series_cmp_ok in H1, H2. subst m1 m2.
    rewrite mask_and_map.
    unfold bind, alloc, when, logging, ret; simpl.
    destruct (Nat.ltb 0 _); simpl; intros H; inversion H; subst; simpl;
      rewrite lookup_alloc; unfold df_select, get_column;
      rewrite select_rows_map_cell; unfold with_rows; do 2 f_equal;
      apply filter_ext_in; intros r _; apply in_range_cmp. }
  destruct (String.eqb ty "pattern").
  { destruct (d_regex rule) as [pat |]; simpl; [| unfold bind, raise; simpl; discriminate].
    unfold bind at 1. simpl. unfold bind at 1.
    destruct (re_compile pat) as [matcher |]; simpl; [| discriminate].
    unfold bind at 1. unfold lift at 1.
    destruct (series_astype_str _ (get_column d c)) as [ts | |] eqn:Ht;
      try discriminate.
    rewrite (series_astype_str_ok _ _ _ matcher Ht).
    unfold bind, alloc, when, logging, ret; simpl.
    destruct (Nat.ltb 0 _); simpl; intros H; inversion H; subst; simpl;
      rewrite lookup_alloc; unfold df_select, get_column;
      by rewrite select_rows_map_cell. }
  unfold ret. intros H; inversion H; subst.
  rewrite filter_true, frame_eta. exact Hd.
Qed.

Lemma validate_loop_ok (rules : ruleset) (w w' : world) (l l' : loc)
    (d : DataFrame) :
  heap w !! l = Some d ->
  validate_loop re_compile rules l w = (Ok l', w') ->
  heap w' !! l' =
    Some (with_rows d
            (fold_left (fun rs cr => List.filter (keeps re_compile d cr) rs)
                       rules (rows d))).
Proof.
  revert w l d. induction rules as [| [c rule] rules IH]; intros w l d Hd; simpl.
  - unfold ret. intros H; inversion H; subst. by rewrite frame_eta.
  - intros H. apply bind_ok_inv in H as (l1 & w1 & H1 & H2).
    pose proof (validate_rule_ok _ _ _ _ _ _ _ Hd H1) as Hd1.
    apply (IH _ _ _ Hd1) in H2. exact H2.
Qed.

Lemma when_heap (b : bool) (lv : level) (m : message) (w : world) :
  when b (logging lv m) w =
    (Ok tt, mkWorld (pipeline w) (heap w) (log (snd (when b (logging lv m) w)))).
Proof. destruct b; simpl; [reflexivity | by destruct w]. Qed.

Lemma validate_data_ok (rules : ruleset) (w w' : world) (df out : loc) :
  validate_data re_compile df rules w = (Ok out, w') ->
  exists d, heap w !! df = Some d /\
    heap w' !! out =
      Some (with_rows d
              (fold_left
                 (fun rs cr => List.filter (keeps re_compile d cr) rs)
                 rules (rows d))).
Proof.
  unfold validate_data, df_copy. intros H.
  apply bind_ok_inv in H as (? & w0 & H0 & H).
  apply bind_ok_inv in H as (l & w1 & H1 & H).
  apply bind_ok_inv in H1 as (d & w0' & Hr & Ha).
  apply bind_ok_inv in H as (d0 & w1' & Hr0 & H).
  apply bind_ok_inv in H as (l' & w2 & Hloop & H).
  apply bind_ok_inv in H as (d1 & w2' & Hr1 & H).
  apply bind_ok_inv in H as (? & w3 & Hw & H).
  unfold logging in H0. inversion H0; subst; clear H0.
  unfold read in Hr; simpl in Hr.
  destruct (heap w !! df) as [d' |] eqn:Hd; inversion Hr; subst; clear Hr.
  unfold alloc in Ha; simpl in Ha. inversion Ha; subst; clear Ha.
  unfold read in Hr0; simpl in Hr0. rewrite lookup_alloc in Hr0.
  inversion Hr0; subst; clear Hr0.
  assert (Hd0 : heap (mkWorld (pipeline w) (heap w ++ [d0])
                        (log w ++ [(INFO, MsgValidating)])) !! length (heap w)
                = Some d0) by (simpl; apply lookup_alloc).
  pose proof (validate_loop_ok _ _ _ _ _ _ Hd0 Hloop) as Hout.
  unfold read in Hr1. destruct (heap w2 !! l') eqn:E; inversion Hr1; subst; clear Hr1.
  rewrite when_heap in Hw. inversion Hw; subst; clear Hw.
  unfold ret in H. inversion H; subst; clear H. simpl.
  exists d0. split; [reflexivity | by rewrite E].
Qed.

Lemma fold_keeps_applied (d : DataFrame) (rules : ruleset) (l : list row) :
  fold_left (fun rs cr => List.filter (keeps re_compile d cr) rs) rules l =
  fold_left (fun rs cr => List.filter (satisfies re_compile d (fst cr) (snd cr)) rs)
            (applied (columns d) rules) l.
Proof.
  revert l. induction rules as [| [c rule] rules IH]; intros l; simpl; [done |].
  unfold keeps at 2; simpl.
  destruct (col_pos c (columns d)); simpl.
  - apply IH.
  - rewrite filter_true. apply IH.
Qed.

Lemma forallb_filter_map {A B} (q : B -> bool) (f : A -> B) (p : A -> bool)
    (l : list A) :
  forallb q (map f l) = true -> forallb q (map f (List.filter p l)) = true.
Proof.
  rewrite !forallb_forall. intros H b Hb. apply H. by eapply filter_incl_map.
Qed.

Lemma col_dtype_with_rows (d : DataFrame) (rs : list row) (c : string) :
  col_dtype (with_rows d rs) c = col_dtype d c.
Proof. reflexivity. Qed.

Lemma range_ready_filter (d : DataFrame) (c : string) (b : number)
    (p : row -> bool) :
  range_ready (col_dtype d c) b (get_column d c) = true ->
  range_ready (col_dtype d c) b
    (get_column (with_rows d (List.filter p (rows d))) c) = true.
Proof.
  unfold range_ready. intros H. apply andb_prop in H as [H1 H2].
  rewrite H1. simpl. unfold get_column in *; simpl. by apply forallb_filter_map.
Qed.

Lemma runs_on_filter (d : DataFrame) (p : row -> bool) (cr : string * descriptor) :
  runs_on re_compile d cr = true ->
  runs_on re_compile (with_rows d (List.filter p (rows d))) cr = true.
Proof.
  unfold runs_on; simpl.
  destruct (col_pos (fst cr) (columns d)); [| done].
  destruct (d_type (snd cr)) as [ty |]; [| done].
  destruct (String.eqb ty "not_null"); [done |].
  destruct (String.eqb ty "range").
  - destruct (d_min (snd cr)), (d_max (snd cr)); try done.
    intros H. apply andb_prop in H as [H1 H2]. rewrite !col_dtype_with_rows.
    apply andb_true_intro. split; by apply range_ready_filter.
  - destruct (String.eqb ty "pattern"); [| done].
    destruct (d_regex (snd cr)) as [pat |]; [| done].
    destruct (re_compile pat); [| done]. rewrite !col_dtype_with_rows.
    unfold get_column; simpl. apply forallb_filter_map.
Qed.

Lemma validate_rule_total (w : world) (l : loc) (c : string) (rule : descriptor)
    (d : DataFrame) :
  heap w !! l = Some d ->
  runs_on re_compile d (c, rule) = true ->
  exists l' w', validate_rule re_compile l c rule w = (Ok l', w').
Proof.
  intros Hd. unfold validate_rule, runs_on; simpl.
  unfold bind at 1. unfold read. rewrite Hd. unfold has_column.
  destruct (col_pos c (columns d)) as [i |]; simpl.
  2:{ intros _. unfold bind, logging, ret; simpl. eauto. }
  destruct (d_type rule) as [ty |]; simpl; [| discriminate].
  unfold bind at 1; simpl.
  destruct (String.eqb ty "not_null").
  { intros _. unfold bind, alloc, when, logging, ret; simpl.
    destruct (Nat.ltb 0 _); simpl; eauto. }
  destruct (String.eqb ty "range").
  { destruct (d_min rule) as [lo |]; simpl; [| discriminate].
    destruct (d_max rule) as [hi |]; simpl; [| discriminate].
    intros Hc. apply andb_prop in Hc as [Hlo Hhi].
    unfold bind at 1; simpl. unfold bind at 1. unfold lift at 1.
    rewrite (series_cmp_ready _ _ _ _ Hlo).
    unfold bind at 1; simpl. unfold bind at 1. unfold lift at 1.
    rewrite (series_cmp_ready _ _ _ _ Hhi).
    unfold bind, alloc, when, logging, ret; simpl.
    destruct (Nat.ltb 0 _); simpl; eauto. }
  destruct (String.eqb ty "pattern").
  { destruct (d_regex rule) as [pat |]; simpl; [| discriminate].
    unfold bind at 1; simpl. unfold bind at 1.
    destruct (re_compile pat) as [matcher |]; simpl; [| discriminate].
    intros Ht. destruct (series_astype_str_total _ _ Ht) as [ts E].
    unfold bind at 1. unfold lift at 1. rewrite E.
    unfold bind, alloc, when, logging, ret; simpl.
    destruct (Nat.ltb 0 _); simpl; eauto. }
  intros _. unfold ret. eauto.
Qed.

Lemma validate_loop_total (rules : ruleset) (w : world) (l : loc) (d : DataFrame) :
  heap w !! l = Some d ->
  forallb (runs_on re_compile d) rules = true ->
  exists l' w', validate_loop re_compile rules l w = (Ok l', w').
Proof.
  revert w l d. induction rules as [| [c rule] rules IH]; intros w l d Hd; simpl.
  - intros _. unfold ret. eauto.
  - intros H. apply andb_prop in H as [H1 H2].
    destruct (validate_rule_total _ _ _ _ _ Hd H1) as (l1 & w1 & E1).
    pose proof (validate_rule_ok _ _ _ _ _ _ _ Hd E1) as Hd1.
    destruct (IH w1 l1 _ Hd1) as (l2 & w2 & E2).
    { rewrite forallb_forall in *. intros cr Hin.
      apply runs_on_filter. by apply H2. }
    exists l2, w2. unfold bind. by rewrite E1.
Qed.

Lemma validate_data_total (rules : ruleset) (w : world) (df : loc) (d : DataFrame) :
  heap w !! df = Some d ->
  forallb (runs_on re_compile d) rules = true ->
  exists out w', validate_data re_compile df rules w = (Ok out, w').
Proof.
  intros Hd Hruns. unfold validate_data, df_copy.
  unfold bind at 1. unfold logging at 1. simpl.
  unfold bind at 1. unfold bind at 1. unfold read at 1. simpl. rewrite Hd.
  unfold alloc at 1. simpl.
  unfold bind at 1. unfold read at 1. simpl. rewrite lookup_alloc.
  unfold bind at 1.
  match goal with
  | |- context [validate_loop _ _ ?l ?w0] =>
      destruct (validate_loop_total rules w0 l d) as (l' & w2 & E);
        [simpl; apply lookup_alloc | exact Hruns |];
      assert (Hd0 : heap w0 !! l = Some d) by (simpl; apply lookup_alloc);
      pose proof (validate_loop_ok _ _ _ _ _ d Hd0 E) as Hout
  end.
  rewrite E.
  unfold bind at 1. unfold read at 1. rewrite Hout.
  unfold bind at 1. rewrite when_heap. unfold ret. eauto.
Qed.

(** *** C1: validation keeps exactly the rows that satisfy every applied rule *)


(** *** The two engines step by step *)

Lemma validate_data_unfold (w : world) (df : loc) (d : DataFrame) (rules : ruleset) :
  heap w !! df = Some d ->
  validate_data re_compile df rules w =
    match validate_loop re_compile rules (length (heap w))
            (mkWorld (pipeline w) (heap w ++ [d])
                     (log w ++ [(INFO, MsgValidating)])) with
    | (Ok l', w2) =>
        match heap w2 !! l' with
        | Some d1 =>
            (Ok l',
             snd (when (Nat.ltb 0 (df_len d - df_len d1))
                       (logging INFO (MsgTotalRemoved (df_len d - df_len d1))) w2))
        | None => (OutOfModel, w2)
        end
    | (Raise e, w2) => (Raise e, w2)
    | (OutOfModel, w2) => (OutOfModel, w2)
    end.
Proof.
  intros Hd. unfold validate_data, df_copy.
  unfold bind at 1. unfold logging at 1. simpl.
  unfold bind at 1. unfold bind at 1. unfold read at 1. simpl. rewrite Hd.
  unfold alloc at 1. simpl.
  unfold bind at 1. unfold read at 1. simpl. rewrite lookup_alloc.
  unfold bind at 1.
  destruct (validate_loop _ _ _ _) as [[l' | e |] w2]; try reflexivity.
  unfold bind at 1. unfold read at 1.
  destruct (heap w2 !! l') as [d1 |]; [| reflexivity].
  unfold bind at 1. rewrite when_heap. unfold ret. simpl.
  destruct (Nat.ltb 0 _); simpl; [reflexivity | by destruct w2].
Qed.

Lemma transform_data_unfold (w : world) (df : loc) (d : DataFrame) (ts : ruleset) :
  heap w !! df = Some d ->
  transform_data to_datetime df ts w =
    match transform_loop to_datetime df (length (heap w)) ts
            (mkWorld (pipeline w) (heap w ++ [d])
                     (log w ++ [(INFO, MsgTransforming)])) with
    | (Ok _, w2) =>
        match heap w2 !! length (heap w) with
        | Some d1 =>
            (Ok (length (heap w)),
             snd (update_stats
                    (fun s => mkStats (extracted s) (df_len d1) (loaded s) (errors s))
                    w2))
        | None => (OutOfModel, w2)
        end
    | (Raise e, w2) => (Raise e, w2)
    | (OutOfModel, w2) => (OutOfModel, w2)
    end.
Proof.
  intros Hd. unfold transform_data, df_copy.
  unfold bind at 1. unfold logging at 1. simpl.
  unfold bind at 1. unfold bind at 1. unfold read at 1. simpl. rewrite Hd.
  unfold alloc at 1. simpl.
  unfold bind at 1.
  destruct (transform_loop _ _ _ _ _) as [[u | e |] w2]; try reflexivity.
  unfold bind at 1. unfold read at 1. simpl.
  destruct (heap w2 !! length (heap w)) as [d1 |]; reflexivity.
Qed.

Lemma validate_rule_absent (w : world) (l : loc) (c : string) (rule : descriptor)
    (d : DataFrame) :
  heap w !! l = Some d -> has_column c d = false ->
  validate_rule re_compile l c rule w =
    (Ok l, mkWorld (pipeline w) (heap w)
             (log w ++ [(WARNING, MsgColumnNotFound c)])).
Proof.
  intros Hd Hc. unfold validate_rule. unfold bind at 1. unfold read.
  rewrite Hd, Hc. reflexivity.
Qed.

Lemma transform_rule_absent (w : world) (df l : loc) (c : string) (t : descriptor)
    (d : DataFrame) :
  heap w !! l = Some d -> has_column c d = false ->
  transform_rule to_datetime df l c t w =
    (Ok tt, mkWorld (pipeline w) (heap w)
              (log w ++ [(WARNING, MsgColumnNotFound c)])).
Proof.
  intros Hd Hc. unfold transform_rule. unfold bind at 1. unfold read.
  rewrite Hd, Hc. reflexivity.
Qed.

Lemma known_kind_false (ty : string) (kinds : list string) (k : string) :
  known_kind kinds ty = false -> In k kinds -> String.eqb ty k = false.
Proof.
  unfold known_kind. intros H Hin.
  destruct (String.eqb ty k) eqn:E; [| reflexivity].
  rewrite <- H. symmetry. apply existsb_exists. eauto.
Qed.

Lemma validate_rule_unknown (w : world) (l : loc) (c ty : string)
    (rule : descriptor) (d : DataFrame) :
  heap w !! l = Some d -> has_column c d = true ->
  d_type rule = Some ty -> known_kind validation_kinds ty = false ->
  validate_rule re_compile l c rule w = (Ok l, w).
Proof.
  intros Hd Hc Hty Hk. unfold validate_rule. unfold bind at 1. unfold read.
  rewrite Hd, Hc, Hty. simpl. unfold bind at 1. simpl.
  rewrite !(known_kind_false ty validation_kinds) by (auto; simpl; auto).
  reflexivity.
Qed.

Lemma transform_rule_unknown (w : world) (df l : loc) (c ty : string)
    (t : descriptor) (d : DataFrame) :
  heap w !! l = Some d -> has_column c d = true ->
  d_type t = Some ty -> known_kind transformation_kinds ty = false ->
  transform_rule to_datetime df l c t w = (Ok tt, w).
Proof.
  intros Hd Hc Hty Hk. unfold transform_rule. unfold bind at 1. unfold read.
  rewrite Hd, Hc, Hty. simpl. unfold bind at 1. simpl.
  rewrite !(known_kind_false ty transformation_kinds) by (auto; simpl; auto 10).
  reflexivity.
Qed.

Lemma validate_rule_range_raises (w : world) (l : loc) (c : string)
    (lo hi : number) (d : DataFrame) :
  heap w !! l = Some d -> has_column c d = true ->
  refuses_number (col_dtype d c) (get_column d c) = true ->
  validate_rule re_compile l c (rule_between lo hi) w = (Raise TypeError, w).
Proof.
  intros Hd Hc Hcmp. unfold validate_rule. unfold bind at 1. unfold read.
  rewrite Hd, Hc. simpl. unfold bind at 1. simpl.
  unfold bind at 1. simpl. unfold bind at 1. unfold lift.
  by rewrite (series_cmp_refuses _ _ _ _ Hcmp).
Qed.

(** *** C7: empty rule sets *)

(** C7.  With an empty rule set [validate_data], and with an empty
    transformation set [transform_data], return a dataset equal to the
    input: same columns, same rows in the same order, same cells. *)
Theorem empty_rule_sets_are_noops (w : world) (df : loc) (d : DataFrame) :
  heap w !! df = Some d ->
  (exists out w',
     validate_data re_compile df [] w = (Ok out, w') /\ heap w' !! out = Some d)
  /\ (exists out w',
        transform_data to_datetime df [] w = (Ok out, w') /\
        heap w' !! out = Some d).
Proof.
  intros Hd. split.
  - rewrite (validate_data_unfold _ _ _ _ Hd). simpl. rewrite lookup_alloc. eexists _, _. split; [reflexivity |].
    rewrite when_heap. simpl. apply lookup_alloc.
  - rewrite (transform_data_unfold _ _ _ _ Hd). simpl. rewrite lookup_alloc. eexists _, _. split; [reflexivity |].
    simpl. apply lookup_alloc.
Qed.

(** *** C9: a rule on an absent column *)

(** C9.  A single validation rule or transformation whose column is absent
    from the dataset makes [validate_data] and [transform_data] return
    normally a dataset equal to the input (row count, columns and cells),
    leave the input as it was, and log exactly one warning after the
    opening message. *)
Theorem absent_column_is_skipped (w : world) (df : loc) (d : DataFrame)
    (c : string) (rule : descriptor) :
  heap w !! df = Some d ->
  has_column c d = false ->
  (exists out w',
     validate_data re_compile df [(c, rule)] w = (Ok out, w') /\
     heap w' !! out = Some d /\ heap w' !! df = Some d /\
     log w' = log w ++ [(INFO, MsgValidating); (WARNING, MsgColumnNotFound c)] /\
     count_warnings (log w') = count_warnings (log w) + 1)
  /\ (exists out w',
        transform_data to_datetime df [(c, rule)] w = (Ok out, w') /\
        heap w' !! out = Some d /\ heap w' !! df = Some d /\
        log w' = log w ++ [(INFO, MsgTransforming); (WARNING, MsgColumnNotFound c)] /\
        count_warnings (log w') = count_warnings (log w) + 1).
Proof.
  intros Hd Hc. split.
  - rewrite (validate_data_unfold _ _ _ _ Hd). cbn [validate_loop].
    unfold bind at 1.
    erewrite validate_rule_absent; [| simpl; apply lookup_alloc | exact Hc].
    simpl. rewrite lookup_alloc. rewrite Nat.sub_diag. simpl.
    eexists _, _. split; [reflexivity |]. simpl.
    split; [apply lookup_alloc |]. split; [by apply lookup_alloc_old |].
    rewrite <- app_assoc. split; [reflexivity |].
    unfold count_warnings. rewrite List.filter_app, length_app. reflexivity.
  - rewrite (transform_data_unfold _ _ _ _ Hd). cbn [transform_loop].
    unfold bind at 1.
    erewrite transform_rule_absent; [| simpl; apply lookup_alloc | exact Hc].
    simpl. rewrite lookup_alloc.
    eexists _, _. split; [reflexivity |]. simpl.
    split; [apply lookup_alloc |]. split; [by apply lookup_alloc_old |].
    rewrite <- app_assoc. split; [reflexivity |].
    unfold count_warnings. rewrite List.filter_app, length_app. reflexivity.
Qed.

(** *** C4: a descriptor of an unknown kind *)

(** C4 (amended).  A rule or transform whose kind is none of the recognised
    kinds, on an existing column, is silently skipped: [validate_data] and
    [transform_data] return normally a dataset equal to the input and log
    nothing but their opening message; no error is reported. *)
Theorem unknown_kind_is_skipped (w : world) (df : loc) (d : DataFrame)
    (c ty : string) (t : descriptor) :
  heap w !! df = Some d ->
  has_column c d = true ->
  d_type t = Some ty ->
  (known_kind validation_kinds ty = false ->
   exists out w',
     validate_data re_compile df [(c, t)] w = (Ok out, w') /\
     heap w' !! out = Some d /\
     log w' = log w ++ [(INFO, MsgValidating)])
  /\ (known_kind transformation_kinds ty = false ->
      exists out w',
        transform_data to_datetime df [(c, t)] w = (Ok out, w') /\
        heap w' !! out = Some d /\
        log w' = log w ++ [(INFO, MsgTransforming)]).
Proof.
  intros Hd Hc Hty. split; intros Hk.
  - rewrite (validate_data_unfold _ _ _ _ Hd). cbn [validate_loop].
    unfold bind at 1.
    erewrite validate_rule_unknown;
      [| simpl; apply lookup_alloc | exact Hc | exact Hty | exact Hk].
    simpl. rewrite lookup_alloc. rewrite Nat.sub_diag. simpl.
    eexists _, _. split; [reflexivity |]. simpl.
    split; [apply lookup_alloc | reflexivity].
  - rewrite (transform_data_unfold _ _ _ _ Hd). cbn [transform_loop].
    unfold bind at 1.
    erewrite transform_rule_unknown;
      [| simpl; apply lookup_alloc | exact Hc | exact Hty | exact Hk].
    simpl. rewrite lookup_alloc.
    eexists _, _. split; [reflexivity |]. simpl.
    split; [apply lookup_alloc | reflexivity].
Qed.

(** *** C2: the range rule *)

Lemma in_range_spec (lo hi : number) (v : cell) :
  in_range lo hi v = true <->
  exists x, cell_value v = Some x /\ (num_value lo <= x <= num_value hi)%Q.
Proof.
  unfold in_range. destruct (cell_value v) as [x |]; split.
  - intros H. apply andb_prop in H as [H1 H2].
    apply Qle_bool_iff in H1, H2. eauto.
  - intros (x' & Hx & H1 & H2). inversion Hx; subst x'.
    apply andb_true_intro. split; by apply Qle_bool_iff.
  - discriminate.
  - intros (x & Hx & _). discriminate.
Qed.

(** C2 (amended).  For a range rule [min, max] on an existing column: when
    the column is numeric, that is of dtype int64 or float64, or an object
    column holding only numbers and missing values, [validate_data] returns
    exactly the rows whose cell is a number with min <= cell <= max, both
    bounds inclusive, so a row with a missing cell is removed; when the
    column is not, that is an object column with a str or timestamp cell,
    or a datetime64 column, [validate_data] raises [TypeError] and removes
    nothing.  Cells and bounds are ints or floats; in an int64 or float64
    column the comparison is covered where the conversion between int and
    float it needs is exact. *)
Theorem range_rule_keeps_in_range (w : world) (df : loc) (d : DataFrame)
    (c : string) (lo hi : number) :
  heap w !! df = Some d ->
  has_column c d = true ->
  let dt := col_dtype d c in
  let col := get_column d c in
  let kept := List.filter (fun r => in_range lo hi (cell_at (columns d) c r))
                          (rows d) in
  (range_ready dt lo col = true -> range_ready dt hi col = true ->
   exists out w',
     validate_data re_compile df [(c, rule_between lo hi)] w = (Ok out, w') /\
     heap w' !! out = Some (with_rows d kept))
  /\ (refuses_number dt col = true ->
      fst (validate_data re_compile df [(c, rule_between lo hi)] w)
      = Raise TypeError)
  /\ Forall (fun r => exists x, cell_value (cell_at (columns d) c r) = Some x /\
                                (num_value lo <= x <= num_value hi)%Q) kept.
Proof.
  intros Hd Hc dt col kept. split; [| split].
  - intros Hlo Hhi.
    destruct (has_column_pos _ _ Hc) as [i Hpos].
    destruct (validate_data_total [(c, rule_between lo hi)] w df d Hd)
      as (out & w' & E).
    { simpl. unfold runs_on; simpl. rewrite Hpos.
      fold dt col. by rewrite Hlo, Hhi. }
    exists out, w'. split; [exact E |].
    apply validate_data_ok in E as (d' & Hd' & Hout).
    rewrite Hd in Hd'. inversion Hd'; subst d'. rewrite Hout. simpl.
    unfold with_rows. do 2 f_equal. apply filter_ext_in. intros r _.
    unfold keeps, satisfies; simpl. by rewrite Hpos.
  - intros Hcmp. rewrite (validate_data_unfold _ _ _ _ Hd). cbn [validate_loop].
    unfold bind at 1.
    erewrite validate_rule_range_raises;
      [reflexivity | simpl; apply lookup_alloc | exact Hc | exact Hcmp].
  - subst kept. apply List.Forall_forall. intros r Hr.
    apply filter_In in Hr as [_ Hr]. by apply in_range_spec.
Qed.

(** *** C8: case folding twice *)

Lemma length_get_column (d : DataFrame) (c : string) :
  length (get_column d c) = df_len d.
Proof. unfold get_column, df_len. apply length_map. Qed.

Lemma transform_rule_upper (w : world) (df l : loc) (c : string) (t : descriptor)
    (d : DataFrame) :
  heap w !! l = Some d -> has_column c d = true ->
  d_type t = Some "uppercase" ->
  transform_rule to_datetime df l c t w = str_step py_upper (MsgUppercased c) l c d w.
Proof.
  intros Hd Hc Hty. unfold transform_rule, str_step. unfold bind at 1. unfold read.
  rewrite Hd, Hc, Hty. simpl. unfold bind at 1. simpl.
  unfold series_str. destruct (str_accessor_ok _ (get_column d c)); [| reflexivity].
  destruct (str_result_modelled (get_column d c)); [| reflexivity].
  unfold bind at 1. unfold lift at 1. unfold assign_column.
  unfold bind at 1. unfold bind at 1. unfold read. rewrite Hd.
  rewrite length_map, length_get_column, Nat.eqb_refl. reflexivity.
Qed.

Lemma transform_rule_lower (w : world) (df l : loc) (c : string) (t : descriptor)
    (d : DataFrame) :
  heap w !! l = Some d -> has_column c d = true ->
  d_type t = Some "lowercase" ->
  transform_rule to_datetime df l c t w = str_step py_lower (MsgLowercased c) l c d w.
Proof.
  intros Hd Hc Hty. unfold transform_rule, str_step. unfold bind at 1. unfold read.
  rewrite Hd, Hc, Hty. simpl. unfold bind at 1. simpl.
  unfold series_str. destruct (str_accessor_ok _ (get_column d c)); [| reflexivity].
  destruct (str_result_modelled (get_column d c)); [| reflexivity].
  unfold bind at 1. unfold lift at 1. unfold assign_column.
  unfold bind at 1. unfold bind at 1. unfold read. rewrite Hd.
  rewrite length_map, length_get_column, Nat.eqb_refl. reflexivity.
Qed.


(** A single [.str] transform on an existing column, start to end. *)
Lemma transform_data_str (f : string -> string) (m : message) (w : world)
    (df : loc) (d : DataFrame) (c : string) (t : descriptor) :
  (forall w0 l d0, heap w0 !! l = Some d0 -> has_column c d0 = true ->
     transform_rule to_datetime df l c t w0 = str_step f m l c d0 w0) ->
  heap w !! df = Some d -> has_column c d = true ->
  if str_accessor_ok (col_dtype d c) (get_column d c) then
    if str_result_modelled (get_column d c) then
      exists w',
        transform_data to_datetime df [(c, t)] w = (Ok (length (heap w)), w') /\
        heap w' =
          heap w ++ [set_column d c Object (map (str_method f) (get_column d c))]
    else fst (transform_data to_datetime df [(c, t)] w) = OutOfModel
  else fst (transform_data to_datetime df [(c, t)] w) = Raise AttributeError.
Proof.
  intros Hrule Hd Hc.
  destruct (str_accessor_ok _ (get_column d c)) eqn:Hok;
    [destruct (str_result_modelled (get_column d c)) eqn:Hascii |];
    rewrite (transform_data_unfold _ _ _ _ Hd);
    cbn [transform_loop]; unfold bind at 1;
    (erewrite Hrule; [| simpl; apply lookup_alloc | exact Hc]);
    unfold str_step; rewrite Hok, ?Hascii; try reflexivity.
  simpl. rewrite insert_alloc, lookup_alloc. eexists. split; reflexivity.
Qed.



(** *** C3: a column computed from a formula *)

Lemma lookup_df_transformed (df l : loc) (c : string) :
  lookup_name (mkScope df l c) "df_transformed" = Ok (PFrame l).
Proof. reflexivity. Qed.

Lemma eval_column (df l : loc) (c k : string) (w : world) (d : DataFrame) :
  heap w !! l = Some d -> has_column k d = true ->
  eval_expr (mkScope df l c) (ESubscript (EName "df_transformed") (EStr k)) w =
    (Ok (PSeries (col_dtype d k) (get_column d k)), w).
Proof.
  intros Hd Hk. cbn [eval_expr]. rewrite lookup_df_transformed.
  unfold eval_subscript. unfold bind, lift, ret, read; simpl.
  by rewrite Hd, Hk.
Qed.

Lemma py_eval_price_qty (df l : loc) (c : string) (w : world) (d : DataFrame) :
  heap w !! l = Some d ->
  has_column "price" d = true -> has_column "qty" d = true ->
  is_datetime64 (col_dtype d "price") = false ->
  is_datetime64 (col_dtype d "qty") = false ->
  Forall (fun r => is_int (cell_at (columns d) "price" r) = true /\
                   is_int (cell_at (columns d) "qty" r) = true /\
                   in_int64 (int_op OpMul (cell_int (cell_at (columns d) "price" r))
                                          (cell_int (cell_at (columns d) "qty" r)))
                   = true) (rows d) ->
  py_eval (mkScope df l c) formula_price_qty w =
    (Ok (PSeries (arith_dtype (col_dtype d "price") (col_dtype d "qty"))
                 (map (price_times_qty (columns d)) (rows d))), w).
Proof.
  intros Hd Hp Hq Hdp Hdq Hints. unfold py_eval. rewrite parse_formula_price_qty.
  change (eval_expr ?sc (EBin ?op ?a ?b)) with
    (vl <- eval_expr sc a ;; vr <- eval_expr sc b ;; lift (eval_binop op vl vr)).
  unfold bind at 1. rewrite (eval_column _ _ _ _ _ _ Hd Hp).
  unfold bind at 1. rewrite (eval_column _ _ _ _ _ _ Hd Hq).
  unfold lift, eval_binop, get_column. rewrite Hdp, Hdq.
  by rewrite (zip_arith_ints _ _ _ _ _ Hints).
Qed.

Lemma transform_rule_price_qty (w : world) (df l : loc) (c : string)
    (t : descriptor) (d : DataFrame) :
  heap w !! l = Some d -> has_column c d = true ->
  d_type t = Some "calculate" -> d_formula t = Some formula_price_qty ->
  has_column "price" d = true -> has_column "qty" d = true ->
  is_datetime64 (col_dtype d "price") = false ->
  is_datetime64 (col_dtype d "qty") = false ->
  Forall (fun r => is_int (cell_at (columns d) "price" r) = true /\
                   is_int (cell_at (columns d) "qty" r) = true /\
                   in_int64 (int_op OpMul (cell_int (cell_at (columns d) "price" r))
                                          (cell_int (cell_at (columns d) "qty" r)))
                   = true) (rows d) ->
  transform_rule to_datetime df l c t w =
    (Ok tt,
     mkWorld (pipeline w)
       (<[l := set_column d c
                (arith_dtype (col_dtype d "price") (col_dtype d "qty"))
                (map (price_times_qty (columns d)) (rows d))]> (heap w))
       (log w ++ [(INFO, MsgCalculated c formula_price_qty)])).
Proof.
  intros Hd Hc Hty Hf Hp Hq Hdp Hdq Hints. unfold transform_rule.
  unfold bind at 1. unfold read. rewrite Hd, Hc, Hty, Hf.
  cbn [negb getitem]. unfold bind at 1. unfold ret at 1.
  change (String.eqb "calculate" "uppercase") with false.
  change (String.eqb "calculate" "lowercase") with false.
  change (String.eqb "calculate" "date") with false.
  change (String.eqb "calculate" "category") with false.
  change (String.eqb "calculate" "strip") with false.
  change (String.eqb "calculate" "calculate") with true.
  cbv iota. unfold bind at 1. unfold ret at 1. cbv iota beta.
  unfold bind at 1. rewrite (py_eval_price_qty _ _ _ _ _ Hd Hp Hq Hdp Hdq Hints).
  unfold assign_column. unfold bind at 1. unfold bind at 1. unfold read.
  rewrite Hd. rewrite length_map. unfold df_len. rewrite Nat.eqb_refl.
  reflexivity.
Qed.

Lemma map_const_repeat {A B} (g : A -> B) (b : B) (l : list A) :
  Forall (fun a => g a = b) l -> map g l = repeat b (length l).
Proof. induction 1 as [| a l Ha _ IH]; simpl; [done | by rewrite Ha, IH]. Qed.

(** C3 (amended).  The formula is Python text evaluated by [eval] in the
    scope of [transform_data], where a column is reached through the frame:
    on a dataset whose every row has price 10 and qty 3, a calculate
    transform with the formula [df_transformed['price'] * df_transformed['qty']]
    on an existing column returns a dataset with the same columns and row
    count whose target column is 30 in every row, each row computed from
    its own price and qty cells, every other column unchanged; the target
    column takes the dtype of the product.  The two columns are columns of
    numbers: a datetime64 column, which a dataset without rows can have
    under these names, is not multiplied but refused. *)
Theorem calculate_price_times_qty (w : world) (df : loc) (d : DataFrame)
    (c : string) (t : descriptor) :
  heap w !! df = Some d ->
  wf_df d ->
  has_column c d = true ->
  has_column "price" d = true ->
  has_column "qty" d = true ->
  is_datetime64 (col_dtype d "price") = false ->
  is_datetime64 (col_dtype d "qty") = false ->
  d_type t = Some "calculate" ->
  d_formula t = Some formula_price_qty ->
  Forall (fun r => cell_at (columns d) "price" r = VInt 10 /\
                   cell_at (columns d) "qty" r = VInt 3) (rows d) ->
  exists out w' d',
    transform_data to_datetime df [(c, t)] w = (Ok out, w') /\
    heap w' !! out = Some d' /\
    columns d' = columns d /\
    df_len d' = df_len d /\
    get_column d' c = repeat (VInt 30) (df_len d) /\
    (forall c', c' <> c -> get_column d' c' = get_column d c') /\
    d' = set_column d c (arith_dtype (col_dtype d "price") (col_dtype d "qty"))
           (map (price_times_qty (columns d)) (rows d)).
Proof.
  intros Hd Hwf Hc Hp Hq Hdp Hdq Hty Hf Hrows.
  assert (Hints :
            Forall (fun r =>
                      is_int (cell_at (columns d) "price" r) = true /\
                      is_int (cell_at (columns d) "qty" r) = true /\
                      in_int64 (int_op OpMul
                                  (cell_int (cell_at (columns d) "price" r))
                                  (cell_int (cell_at (columns d) "qty" r)))
                      = true) (rows d)).
  { eapply Forall_impl; [exact Hrows |]. intros r [-> ->]. by repeat split. }
  rewrite (transform_data_unfold _ _ _ _ Hd). cbn [transform_loop].
  unfold bind at 1.
  erewrite transform_rule_price_qty;
    [| simpl; apply lookup_alloc | exact Hc | exact Hty | exact Hf | exact Hp
     | exact Hq | exact Hdp | exact Hdq | exact Hints].
  simpl. rewrite insert_alloc, lookup_alloc.
  eexists _, _, _. split; [reflexivity |]. simpl.
  split; [apply lookup_alloc |].
  destruct (has_column_pos _ _ Hc) as [i Hpos].
  split; [by rewrite (set_column_map _ _ _ _ _ Hpos) |].
  split; [rewrite (set_column_map _ _ _ _ _ Hpos); unfold df_len; simpl;
          apply length_map |].
  split; [| split; [| reflexivity]].
  - rewrite (get_column_set_same _ _ _ _ Hwf Hc). unfold df_len.
    apply map_const_repeat. eapply Forall_impl; [exact Hrows |].
    intros r [Hr1 Hr2]. unfold price_times_qty. by rewrite Hr1, Hr2.
  - intros c' Hne. by apply get_column_set_other.
Qed.

(** *** C10: the caller's dataset *)

Lemma clean_data_frame (n : nat) (df : loc) :
  preserves (frame_below n) (clean_data df).
Proof. unfold clean_data. pres. Qed.

Lemma validate_rule_frame (n : nat) (l : loc) (c : string) (r : descriptor) :
  preserves (frame_below n) (validate_rule re_compile l c r).
Proof. unfold validate_rule. pres. Qed.

Lemma validate_loop_frame (n : nat) (rules : ruleset) (l : loc) :
  preserves (frame_below n) (validate_loop re_compile rules l).
Proof.
  revert l. induction rules as [| [c r] rules IH]; intros l; simpl; pres.
  apply validate_rule_frame.
Qed.

Lemma validate_data_frame (n : nat) (df : loc) (rules : ruleset) :
  preserves (frame_below n) (validate_data re_compile df rules).
Proof. unfold validate_data, df_copy. pres. apply validate_loop_frame. Qed.

Lemma eval_expr_frame (n : nat) (sc : scope) (e : expr) :
  call_free e = true -> preserves (frame_below n) (eval_expr sc e).
Proof.
  induction e as [| | | e1 IH1 k IHk | | op l IHl r IHr]; simpl; intros Hfree;
    try discriminate; try (apply andb_prop in Hfree as [H1 H2]); pres;
    unfold eval_subscript; pres.
Qed.

Lemma py_eval_frame (n : nat) (sc : scope) (text : string) :
  call_free_formula text = true -> preserves (frame_below n) (py_eval sc text).
Proof.
  unfold call_free_formula, py_eval.
  destruct (parse_formula text) as [e |]; intros H; [| discriminate].
  by apply eval_expr_frame.
Qed.

Lemma assign_column_frame (n : nat) (l : loc) (c : string) (v : pyval) :
  n <= l -> preserves (frame_below n) (assign_column l c v).
Proof. intros Hl. unfold assign_column. pres. Qed.

Lemma transform_rule_frame (n : nat) (df l : loc) (c : string) (t : descriptor) :
  n <= l -> call_free_descriptor t = true ->
  preserves (frame_below n) (transform_rule to_datetime df l c t).
Proof.
  intros Hl Hfree. unfold transform_rule. pres;
    try (apply assign_column_frame; exact Hl).
  apply py_eval_frame. unfold call_free_descriptor in Hfree.
  match goal with H : d_formula t = Some _ |- _ => rewrite H in Hfree end.
  exact Hfree.
Qed.

Lemma transform_loop_frame (n : nat) (df l : loc) (ts : ruleset) :
  n <= l -> call_free_rules ts = true ->
  preserves (frame_below n) (transform_loop to_datetime df l ts).
Proof.
  intros Hl. induction ts as [| [c t] ts IH]; simpl; intros Hfree; pres.
  - apply andb_prop in Hfree as [H1 _]. by apply transform_rule_frame.
  - apply andb_prop in Hfree as [_ H2]. by apply IH.
Qed.

Lemma transform_data_frame (w : world) (df : loc) (d : DataFrame) (ts : ruleset) :
  heap w !! df = Some d -> call_free_rules ts = true ->
  heap (snd (transform_data to_datetime df ts w)) !! df = Some d.
Proof.
  intros Hd Hfree. rewrite (transform_data_unfold _ _ _ _ Hd).
  set (w0 := mkWorld _ _ _).
  pose proof (transform_loop_frame (length (heap w)) df (length (heap w)) ts
                (le_n _) Hfree w0) as Hframe.
  assert (Hlt : df < length (heap w)) by (eapply lookup_lt_Some; eauto).
  destruct Hframe as [_ Hsame]; [subst w0; simpl; rewrite length_app; lia |].
  specialize (Hsame df Hlt).
  assert (H0 : heap w0 !! df = Some d) by (subst w0; simpl; by apply lookup_alloc_old).
  destruct (transform_loop _ _ _ _ _) as [[u | e |] w2]; simpl in *;
    try (by rewrite Hsame).
  destruct (heap w2 !! length (heap w)); simpl; by rewrite Hsame.
Qed.

(** C10 (amended).  [clean_data] and [validate_data] never change the
    dataset object passed in, whatever their outcome: they build new
    objects.  [transform_data] works on a copy and leaves the object passed
    in as it was whenever every calculate formula is an expression over
    names, literals, subscripts and [+], [-], [*] that calls no method; a
    formula is evaluated with the caller's object in scope and can change
    it. *)
Theorem input_dataset_unchanged (w : world) (df : loc) (d : DataFrame) :
  heap w !! df = Some d ->
  heap (snd (clean_data df w)) !! df = Some d
  /\ (forall rules,
        heap (snd (validate_data re_compile df rules w)) !! df = Some d)
  /\ (forall ts,
        call_free_rules ts = true ->
        heap (snd (transform_data to_datetime df ts w)) !! df = Some d).
Proof.
  intros Hd.
  assert (Hlt : df < length (heap w)) by (eapply lookup_lt_Some; eauto).
  split; [| split].
  - destruct (clean_data_frame (length (heap w)) df w (le_n _)) as [_ H].
    by rewrite H.
  - intros rules.
    destruct (validate_data_frame (length (heap w)) df rules w (le_n _)) as [_ H].
    by rewrite H.
  - intros ts Hfree. by apply transform_data_frame.
Qed.

(** *** The error counter through the methods *)

Lemma connect_db_same (f : Stats -> nat) (env : io) :
  preserves (same_on f) (connect_db env).
Proof. unfold connect_db. pres. Qed.

Lemma close_db_same (f : Stats -> nat) : preserves (same_on f) close_db.
Proof. unfold close_db. pres. Qed.

Lemma clean_data_same (f : Stats -> nat) (df : loc) :
  preserves (same_on f) (clean_data df).
Proof. unfold clean_data. pres. Qed.

Lemma validate_rule_same (f : Stats -> nat) (l : loc) (c : string) (r : descriptor) :
  preserves (same_on f) (validate_rule re_compile l c r).
Proof. unfold validate_rule. pres. Qed.

Lemma validate_loop_same (f : Stats -> nat) (rules : ruleset) (l : loc) :
  preserves (same_on f) (validate_loop re_compile rules l).
Proof.
  revert l. induction rules as [| [c r] rules IH]; intros l; simpl; pres.
  apply validate_rule_same.
Qed.

Lemma validate_data_same (f : Stats -> nat) (df : loc) (rules : ruleset) :
  preserves (same_on f) (validate_data re_compile df rules).
Proof. unfold validate_data, df_copy. pres. apply validate_loop_same. Qed.

Lemma create_indexes_same (f : Stats -> nat) (env : io) (t : string)
    (cols : list string) :
  preserves (same_on f) (create_indexes env t cols).
Proof. unfold create_indexes. pres. Qed.

Lemma eval_expr_same (f : Stats -> nat) (sc : scope) (e : expr) :
  preserves (same_on f) (eval_expr sc e).
Proof.
  induction e; simpl; pres; unfold eval_subscript, eval_call; pres.
Qed.

Lemma py_eval_same (f : Stats -> nat) (sc : scope) (text : string) :
  preserves (same_on f) (py_eval sc text).
Proof. unfold py_eval. pres. apply eval_expr_same. Qed.

Lemma assign_column_same (f : Stats -> nat) (l : loc) (c : string) (v : pyval) :
  preserves (same_on f) (assign_column l c v).
Proof. unfold assign_column. pres. Qed.

#[local] Hint Resolve connect_db_same close_db_same clean_data_same
  validate_data_same create_indexes_same py_eval_same assign_column_same : pres.

Lemma transform_rule_same (f : Stats -> nat) (df l : loc) (c : string)
    (t : descriptor) :
  preserves (same_on f) (transform_rule to_datetime df l c t).
Proof. unfold transform_rule. pres. Qed.

Lemma transform_loop_same (f : Stats -> nat) (df l : loc) (ts : ruleset) :
  preserves (same_on f) (transform_loop to_datetime df l ts).
Proof.
  induction ts as [| [c t] ts IH]; simpl; pres. apply transform_rule_same.
Qed.

(** [transform_data] writes the transformed count and no other counter. *)
Lemma transform_data_same (f : Stats -> nat) (df : loc) (ts : ruleset) :
  (forall s n, f (mkStats (extracted s) n (loaded s) (errors s)) = f s) ->
  preserves (same_on f) (transform_data to_datetime df ts).
Proof.
  intros Hf. unfold transform_data, df_copy. pres.
  - apply transform_loop_same.
  - apply same_update_stats. intros s. apply Hf.
Qed.

(** [extract_csv] and [load_to_db] leave the transformed count alone. *)
Lemma extract_csv_same_transformed (env : io) (path : string) :
  preserves (same_on transformed) (extract_csv env path).
Proof. unfold extract_csv, incr_errors. pres. Qed.

Lemma load_to_db_same_transformed (env : io) (df : loc) (t : string) :
  preserves (same_on transformed) (load_to_db env df t).
Proof. unfold load_to_db, incr_errors. pres. Qed.

(** The counter moves with the failure records. *)

Lemma connect_db_track (env : io) : preserves errors_track (connect_db env).
Proof. unfold connect_db. pres. Qed.

Lemma close_db_track : preserves errors_track close_db.
Proof. unfold close_db. pres. Qed.

Lemma extract_csv_track (env : io) (path : string) :
  preserves errors_track (extract_csv env path).
Proof.
  unfold extract_csv. apply preserves_try_except; [pres |].
  intros e. by apply track_counted_failure.
Qed.

Lemma clean_data_track (df : loc) : preserves errors_track (clean_data df).
Proof. unfold clean_data. pres. Qed.

Lemma validate_rule_track (l : loc) (c : string) (r : descriptor) :
  preserves errors_track (validate_rule re_compile l c r).
Proof. unfold validate_rule. pres. Qed.

Lemma validate_loop_track (rules : ruleset) (l : loc) :
  preserves errors_track (validate_loop re_compile rules l).
Proof.
  revert l. induction rules as [| [c r] rules IH]; intros l; simpl; pres.
  apply validate_rule_track.
Qed.

Lemma validate_data_track (df : loc) (rules : ruleset) :
  preserves errors_track (validate_data re_compile df rules).
Proof. unfold validate_data, df_copy. pres. apply validate_loop_track. Qed.

Lemma eval_expr_track (sc : scope) (e : expr) :
  preserves errors_track (eval_expr sc e).
Proof.
  induction e; simpl; pres; unfold eval_subscript, eval_call; pres.
Qed.

Lemma py_eval_track (sc : scope) (text : string) :
  preserves errors_track (py_eval sc text).
Proof. unfold py_eval. pres. apply eval_expr_track. Qed.

Lemma assign_column_track (l : loc) (c : string) (v : pyval) :
  preserves errors_track (assign_column l c v).
Proof. unfold assign_column. pres. Qed.

#[local] Hint Resolve py_eval_track assign_column_track : pres.

Lemma transform_rule_track (df l : loc) (c : string) (t : descriptor) :
  preserves errors_track (transform_rule to_datetime df l c t).
Proof. unfold transform_rule. pres. Qed.

Lemma transform_loop_track (df l : loc) (ts : ruleset) :
  preserves errors_track (transform_loop to_datetime df l ts).
Proof.
  induction ts as [| [c t] ts IH]; simpl; pres. apply transform_rule_track.
Qed.

Lemma transform_data_track (df : loc) (ts : ruleset) :
  preserves errors_track (transform_data to_datetime df ts).
Proof. unfold transform_data, df_copy. pres. apply transform_loop_track. Qed.

Lemma create_indexes_track (env : io) (t : string) (cols : list string) :
  preserves errors_track (create_indexes env t cols).
Proof. unfold create_indexes. pres. Qed.

Lemma load_to_db_track (env : io) (df : loc) (t : string) :
  preserves errors_track (load_to_db env df t).
Proof.
  unfold load_to_db. apply preserves_try_except.
  - pres. apply create_indexes_track.
  - intros e. by apply track_counted_failure.
Qed.

#[local] Hint Resolve connect_db_track close_db_track extract_csv_track
  clean_data_track validate_data_track transform_data_track
  load_to_db_track : pres.

Lemma run_pipeline_track (env : io) (csv table : string)
    (vr tr : option ruleset) :
  preserves errors_track (run_pipeline re_compile to_datetime env csv table vr tr).
Proof. unfold run_pipeline, run_stages, log_start. pres. Qed.

(** *** The shape of a run *)

Lemma close_db_ok (w : world) : fst (close_db w) = Ok tt.
Proof.
  unfold close_db, bind, get_connection; simpl.
  destruct (connection (pipeline w)); reflexivity.
Qed.

Lemma close_db_released (w : world) : released (snd (close_db w)).
Proof.
  unfold close_db, bind, get_connection, released; simpl.
  destruct (connection (pipeline w)) eqn:Hc; simpl; auto;
    right; (split; [reflexivity | apply last_snoc]).
Qed.

Lemma close_db_log (w : world) (r : log_record) :
  In r (log w) -> In r (log (snd (close_db w))).
Proof.
  unfold close_db, bind, get_connection; simpl.
  destruct (connection (pipeline w)); simpl; auto;
    intros H; apply in_or_app; auto.
Qed.

Lemma run_pipeline_unfold (env : io) (csv table : string)
    (vr tr : option ruleset) (w : world) :
  run_pipeline re_compile to_datetime env csv table vr tr w =
    match run_stages re_compile to_datetime env csv table vr tr
            (snd (log_start w)) with
    | (Ok a, w1) => (Ok a, snd (close_db w1))
    | (Raise e, w1) =>
        (Raise e, snd (close_db (snd (logging ERROR (MsgPipelineFailed e) w1))))
    | (OutOfModel, w1) => (OutOfModel, w1)
    end.
Proof.
  unfold run_pipeline, try_finally, try_except.
  unfold bind at 1. unfold log_start at 1. simpl.
  match goal with
  | |- context [run_stages _ _ _ _ _ _ _ ?w0] =>
      destruct (run_stages re_compile to_datetime env csv table vr tr w0)
        as [[a | e |] w1] eqn:Hs
  end; simpl; try reflexivity.
  - unfold bind. pose proof (close_db_ok w1) as Hc.
    destruct (close_db w1) as [o w2]; simpl in *. subst o. reflexivity.
  - unfold bind.
    set (w2 := mkWorld _ _ _).
    pose proof (close_db_ok w2) as Hc.
    destruct (close_db w2) as [o w3]; simpl in *. subst o. reflexivity.
Qed.

Lemma extract_csv_raise (env : io) (path : string) (w w' : world) (e : exn) :
  extract_csv env path w = (Raise e, w') -> errors_of w' = errors_of w + 1.
Proof.
  unfold extract_csv, try_except, bind, logging, lift, alloc, update_stats,
    incr_errors, raise, ret, errors_of; simpl.
  destruct (io_exists env path); simpl;
    [destruct (io_read_csv env path) as [d | e' |]; simpl |];
    intros H; inversion H; subst; simpl; reflexivity.
Qed.

Lemma create_indexes_ok (env : io) (t : string) (cols : list string) (w : world) :
  fst (create_indexes env t cols w) = Ok tt /\
  stats (pipeline (snd (create_indexes env t cols w))) = stats (pipeline w).
Proof.
  unfold create_indexes, try_except, bind, get_connection, raise_if, logging,
    raise, ret; simpl.
  destruct (connection (pipeline w)); simpl; auto.
  destruct cols as [| c0 cols]; simpl; auto.
  destruct (io_create_index env t c0); simpl; auto.
Qed.

Lemma load_to_db_raise (env : io) (df : loc) (t : string) (w w' : world)
    (e : exn) :
  load_to_db env df t w = (Raise e, w') -> errors_of w' = errors_of w + 1.
Proof.
  unfold load_to_db, try_except. unfold bind at 1. unfold logging at 1. simpl.
  unfold bind at 1. unfold read at 1. simpl.
  destruct (heap w !! df) as [d |]; simpl; [| discriminate].
  unfold bind at 1. unfold get_connection at 1. simpl.
  unfold bind at 1.
  destruct (connection (pipeline w)) eqn:Hc; simpl;
    try (unfold incr_errors, update_stats, bind, logging, raise, errors_of; simpl;
         intros H; inversion H; subst; simpl; reflexivity).
  unfold raise_if.
  destruct (io_to_sql env t d) as [e' |]; simpl.
  - unfold incr_errors, update_stats, bind, logging, raise, errors_of; simpl.
    intros H; inversion H; subst; simpl; reflexivity.
  - unfold bind at 1. unfold update_stats at 1. simpl.
    unfold bind at 1. unfold logging at 1. simpl.
    match goal with
    | |- context [create_indexes env t ?cs ?w0] =>
        destruct (create_indexes_ok env t cs w0) as [Ho _];
        destruct (create_indexes env t cs w0) as [o w1]
    end.
    simpl in Ho. subst o. discriminate.
Qed.

Lemma extract_csv_ok (env : io) (path : string) (w w' : world) (df : loc) :
  extract_csv env path w = (Ok df, w') ->
  exists d, io_read_csv env path = Ok d /\
    stats (pipeline w') =
      mkStats (df_len d) (transformed (stats (pipeline w)))
              (loaded (stats (pipeline w))) (errors (stats (pipeline w))).
Proof.
  unfold extract_csv, try_except, bind, logging, lift, alloc, update_stats,
    incr_errors, raise, ret; simpl.
  destruct (io_exists env path); simpl;
    [destruct (io_read_csv env path) as [d | e' |]; simpl |];
    intros H; inversion H; subst; simpl; eauto.
Qed.

Lemma load_to_db_ok (env : io) (df : loc) (t : string) (w w' : world) (u : unit) :
  load_to_db env df t w = (Ok u, w') ->
  exists d, heap w !! df = Some d /\
    stats (pipeline w') =
      mkStats (extracted (stats (pipeline w))) (transformed (stats (pipeline w)))
              (df_len d) (errors (stats (pipeline w))).
Proof.
  unfold load_to_db, try_except. unfold bind at 1. unfold logging at 1. simpl.
  unfold bind at 1. unfold read at 1. simpl.
  destruct (heap w !! df) as [d |]; simpl; [| discriminate].
  unfold bind at 1. unfold get_connection at 1. simpl.
  unfold bind at 1.
  destruct (connection (pipeline w)) eqn:Hc; simpl;
    try (unfold incr_errors, update_stats, bind, logging, raise; simpl;
         discriminate).
  unfold raise_if.
  destruct (io_to_sql env t d) as [e' |]; simpl.
  - unfold incr_errors, update_stats, bind, logging, raise; simpl. discriminate.
  - unfold bind at 1. unfold update_stats at 1. simpl.
    unfold bind at 1. unfold logging at 1. simpl.
    match goal with
    | |- context [create_indexes env t ?cs ?w0] =>
        destruct (create_indexes_ok env t cs w0) as [Ho Hst];
        destruct (create_indexes env t cs w0) as [o w1]
    end.
    simpl in Ho, Hst. subst o. intros H. inversion H; subst.
    exists d. split; [reflexivity |]. rewrite Hst. reflexivity.
Qed.

Lemma preserves_run {A} (R : world -> world -> Prop) (m : M A) w o w' :
  preserves R m -> m w = (o, w') -> R w w'.
Proof. intros Hm H. specialize (Hm w). rewrite H in Hm. exact Hm. Qed.

(** *** C5: failures, the error counter and the release of the connection *)

(** C5 (amended).  The outcome of [run_pipeline] is the outcome of its
    stages, so an exception of any stage reaches the caller; on every exit
    path, success or failure, the connection is released by [close_db];
    the error counter is incremented once when [extract_csv] or
    [load_to_db] raises, moving exactly with the failure records of these
    two handlers, and a failure while connecting, cleaning, validating or
    transforming leaves it as it was. *)
Theorem run_pipeline_failure_accounting (env : io) (csv table : string)
    (vr tr : option ruleset) (w : world) :
  let r := run_pipeline re_compile to_datetime env csv table vr tr w in
  fst r = fst (run_stages re_compile to_datetime env csv table vr tr
                 (snd (log_start w)))
  /\ (fst r <> OutOfModel -> released (snd r))
  /\ (fst r <> OutOfModel -> errors_track w (snd r))
  /\ (forall path w1 e w2,
        extract_csv env path w1 = (Raise e, w2) -> errors_of w2 = errors_of w1 + 1)
  /\ (forall df t w1 e w2,
        load_to_db env df t w1 = (Raise e, w2) -> errors_of w2 = errors_of w1 + 1)
  /\ keeps_errors (connect_db env)
  /\ (forall df, keeps_errors (clean_data df))
  /\ (forall df rules, keeps_errors (validate_data re_compile df rules))
  /\ (forall df ts, keeps_errors (transform_data to_datetime df ts)).
Proof.
  intros r. subst r. repeat split.
  - rewrite run_pipeline_unfold.
    destruct (run_stages _ _ _ _ _ _ _ _) as [[a | e |] w1]; reflexivity.
  - rewrite run_pipeline_unfold.
    destruct (run_stages _ _ _ _ _ _ _ _) as [[a | e |] w1]; simpl;
      intros H; try apply close_db_released. by destruct H.
  - intros _. apply run_pipeline_track.
  - intros path w1 e w2. apply extract_csv_raise.
  - intros df t w1 e w2. apply load_to_db_raise.
  - intros w1 _. apply (connect_db_same errors).
  - intros df w1 _. apply (clean_data_same errors).
  - intros df rules w1 _. apply (validate_data_same errors).
  - intros df ts w1 _. by apply (transform_data_same errors).
Qed.

(** *** C6: the counters across runs *)

(** C6 (amended).  [run_pipeline] never resets the counters: they are zero
    only in a new pipeline object.  On a successful run the summary shows
    the error count the object had before the run, which the run leaves
    as it was; with no transformation set the transformed count of the
    earlier run is kept and shown; the extracted count is overwritten with
    this run's row count. *)
Theorem run_pipeline_counters_carry_over (env : io) (csv table : string) (vr tr : option ruleset) (w w' : world) (u : unit) :
  run_pipeline re_compile to_datetime env csv table vr tr w = (Ok u, w') ->
  errors_of w' = errors_of w
  /\ In (INFO, MsgStatErrors (errors_of w)) (log w')
  /\ (truthy tr = false ->
      transformed (stats (pipeline w')) = transformed (stats (pipeline w)) /\
      In (INFO, MsgStatTransformed (transformed (stats (pipeline w)))) (log w'))
  /\ (exists d, io_read_csv env csv = Ok d /\
        extracted (stats (pipeline w')) = df_len d /\
        In (INFO, MsgStatExtracted (df_len d)) (log w')).
Proof.
  intros H. rewrite run_pipeline_unfold in H.
  destruct (run_stages re_compile to_datetime env csv table vr tr (snd (log_start w)))
    as [[a | e |] w1] eqn:Hs; try discriminate.
  inversion H; subst; clear H.
  unfold run_stages in Hs.
  apply bind_ok_inv in Hs as (? & wa & Ha & Hs).
  apply bind_ok_inv in Hs as (df1 & wb & Hb & Hs).
  apply bind_ok_inv in Hs as (df2 & wc & Hc & Hs).
  apply bind_ok_inv in Hs as (df3 & wd & Hd & Hs).
  apply bind_ok_inv in Hs as (df4 & we & He & Hs).
  apply bind_ok_inv in Hs as (? & wf & Hf & Hs).
  cbv [bind get_stats logging] in Hs. simpl in Hs. inversion Hs; subst; clear Hs.
  destruct (extract_csv_ok _ _ _ _ _ Hb) as (d & Hread & Hsb).
  destruct (load_to_db_ok _ _ _ _ _ _ Hf) as (dl & _ & Hsf).
  assert (Hcd : forall f : Stats -> nat, f (stats (pipeline wd)) = f (stats (pipeline wb))).
  { intros f.
    pose proof (preserves_run _ _ _ _ _ (clean_data_same f df1) Hc) as E1.
    destruct (truthy vr).
    - pose proof (preserves_run _ _ _ _ _
                    (validate_data_same f df2 _) Hd) as E2.
      unfold same_on in *. congruence.
    - inversion Hd; subst. exact E1. }
  assert (Hde : forall f : Stats -> nat,
            (forall s n, f (mkStats (extracted s) n (loaded s) (errors s)) = f s) ->
            f (stats (pipeline we)) = f (stats (pipeline wd))).
  { intros f Hfn. destruct (truthy tr).
    - exact (preserves_run _ _ _ _ _
               (transform_data_same f df3 _ Hfn) He).
    - inversion He; subst. reflexivity. }
  assert (Hwa : forall f : Stats -> nat, f (stats (pipeline wa)) = f (stats (pipeline w))).
  { intros f. exact (preserves_run _ _ _ _ _ (connect_db_same f env) Ha). }
  set (ws := mkWorld _ _ _).
  assert (Hclose : forall f : Stats -> nat, f (stats (pipeline (snd (close_db ws)))) =
                             f (stats (pipeline wf))).
  { intros f. exact (close_db_same f ws). }
  assert (Herr : errors (stats (pipeline wf)) = errors_of w).
  { rewrite Hsf; simpl. rewrite (Hde errors) by reflexivity.
    rewrite (Hcd errors), Hsb; simpl. apply (Hwa errors). }
  assert (Hext : extracted (stats (pipeline wf)) = df_len d).
  { rewrite Hsf; simpl. rewrite (Hde extracted) by reflexivity.
    rewrite (Hcd extracted), Hsb. reflexivity. }
  assert (Hlog : forall r, In r (log ws) -> In r (log (snd (close_db ws)))).
  { intros r. apply close_db_log. }
  split; [| split; [| split]].
  - unfold errors_of at 1. rewrite (Hclose errors). exact Herr.
  - apply Hlog. subst ws; simpl. rewrite Herr.
    repeat (apply in_or_app; first [right; left; reflexivity | left]).
  - intros Htr. rewrite Htr in He. inversion He; subst.
    assert (Htrf : transformed (stats (pipeline wf)) =
                   transformed (stats (pipeline w))).
    { rewrite Hsf; simpl. rewrite (Hcd transformed), Hsb; simpl.
      apply (Hwa transformed). }
    split.
    + rewrite (Hclose transformed). exact Htrf.
    + apply Hlog. subst ws; simpl. rewrite Htrf.
      repeat (apply in_or_app; first [right; left; reflexivity | left]).
  - exists d. split; [exact Hread |]. split.
    + rewrite (Hclose extracted). exact Hext.
    + apply Hlog. subst ws; simpl. rewrite Hext.
      repeat (apply in_or_app; first [right; left; reflexivity | left]).
Qed.

End Properties.

(** * Further properties of the methods *)

(** ** Cleaning *)

Lemma cell_eqb_refl (a : cell) : cell_eqb a a = true.
Proof.
  destruct a; simpl; auto using Z.eqb_refl, String.eqb_refl, Qeq_bool_refl.
Qed.

Lemma cell_eqb_sym (a b : cell) : cell_eqb a b = cell_eqb b a.
Proof.
  destruct a, b; simpl; auto using Z.eqb_sym, String.eqb_sym, Qeq_bool_comm.
Qed.


Lemma row_eqb_refl (r : list cell) : row_eqb r r = true.
Proof. induction r as [| a r IH]; simpl; [done | by rewrite cell_eqb_refl]. Qed.

Lemma row_eqb_sym (r1 r2 : list cell) : row_eqb r1 r2 = row_eqb r2 r1.
Proof.
  revert r2. induction r1 as [| a r1 IH]; intros [| b r2]; simpl; try done.
  by rewrite cell_eqb_sym, IH.
Qed.




Lemma dedup_rows_spec (rs seen : list (list cell)) :
  (forall x, In x (dedup_rows seen rs) -> existsb (row_eqb x) seen = false)
  /\ distinct_rows (dedup_rows seen rs) = true
  /\ (forall r, In r rs ->
        existsb (row_eqb r) seen = true \/
        exists r', In r' (dedup_rows seen rs) /\ row_eqb r r' = true)
  /\ length (dedup_rows seen rs) <= length rs.
Proof.
  revert seen. induction rs as [| r rs IH]; intros seen; simpl.
  - repeat split; auto; intros ? [].
  - destruct (existsb (row_eqb r) seen) eqn:E.
    + destruct (IH seen) as (H1 & H2 & H3 & H4).
      split; [exact H1 |]. split; [exact H2 |]. split; [| lia].
      intros x [<- | Hx]; [by left | by apply H3].
    + destruct (IH (r :: seen)) as (H1 & H2 & H3 & H4).
      split; [| split; [| split]].
      * intros x [<- | Hx]; [exact E |].
        specialize (H1 x Hx). simpl in H1. by apply orb_false_elim in H1 as [_ ?].
      * simpl. rewrite H2, andb_true_r. apply negb_true_iff.
        apply not_true_is_false. intros Hex.
        apply existsb_exists in Hex as (x & Hx & Hxr).
        specialize (H1 x Hx). simpl in H1. by rewrite Hxr in H1.
      * intros x [<- | Hx].
        -- right. exists r. split; [by left | apply row_eqb_refl].
        -- destruct (H3 x Hx) as [Hs | (r' & Hr' & Hxr')].
           ++ simpl in Hs. apply orb_prop in Hs as [Hs | Hs].
              ** right. exists r. split; [by left | exact Hs].
              ** by left.
           ++ right. exists r'. split; [by right | exact Hxr'].
      * simpl. lia.
Qed.

Lemma dedup_rows_fixed (rs seen : list (list cell)) :
  distinct_rows rs = true ->
  (forall x, In x rs -> existsb (row_eqb x) seen = false) ->
  dedup_rows seen rs = rs.
Proof.
  revert seen. induction rs as [| r rs IH]; intros seen Hd Hout; simpl;
    [reflexivity |].
  simpl in Hd. apply andb_prop in Hd as [Hr Hd]. apply negb_true_iff in Hr.
  rewrite (Hout r) by (by left). f_equal. apply IH; [exact Hd |].
  intros x Hx. simpl. rewrite (Hout x) by (by right). rewrite orb_false_r.
  destruct (row_eqb x r) eqn:E; [| reflexivity].
  rewrite <- Hr. symmetry. apply existsb_exists. eauto.
Qed.

Lemma clean_data_unfold (w : world) (df : nat) (d : DataFrame) :
  heap w !! df = Some d ->
  clean_data df w =
    (Ok (length (heap w)),
     mkWorld (pipeline w) (heap w ++ [drop_duplicates d])
             (log w ++ cleaning_log d (drop_duplicates d))).
Proof.
  intros Hd. unfold clean_data, cleaning_log.
  unfold bind at 1. unfold logging at 1. simpl.
  unfold bind at 1. unfold read at 1. simpl. rewrite Hd.
  unfold bind at 1. unfold alloc at 1. simpl.
  unfold bind at 1.
  destruct (Nat.ltb 0 (df_len d - df_len (drop_duplicates d))); simpl;
    unfold bind at 1;
    destruct (Nat.eqb (length (null_counts (drop_duplicates d))) 0); simpl;
    unfold ret; rewrite <- ?app_assoc; simpl; try reflexivity;
    by destruct w.
Qed.




Lemma drop_duplicates_idem (d : DataFrame) :
  drop_duplicates (drop_duplicates d) = drop_duplicates d.
Proof.
  unfold drop_duplicates. destruct (columns d) as [| c cols] eqn:Hc.
  - by rewrite Hc.
  - simpl. rewrite Hc. unfold with_rows; simpl. f_equal.
    destruct (dedup_rows_spec (rows d) []) as (_ & Hdist & _).
    by apply dedup_rows_fixed.
Qed.

(** X2.  Cleaning is idempotent: [clean_data] applied to its own result
    returns the same dataset as applied once. *)
Theorem clean_data_idempotent (w : world) (df : nat) :
  result_frame (twice clean_data df w) = result_frame (clean_data df w).
Proof.
  unfold twice, result_frame, bind.
  destruct (heap w !! df) as [d |] eqn:Hd.
  - rewrite (clean_data_unfold w df d Hd).
    set (w1 := mkWorld _ _ _).
    assert (Hd1 : heap w1 !! length (heap w) = Some (drop_duplicates d))
      by (subst w1; simpl; apply lookup_alloc).
    rewrite (clean_data_unfold w1 _ _ Hd1). simpl.
    rewrite lookup_alloc. subst w1; simpl. rewrite lookup_alloc.
    by rewrite drop_duplicates_idem.
  - unfold clean_data, bind, logging, read; simpl. by rewrite Hd.
Qed.

(** ** Validation: when it returns, and how rule sets compose *)

Section Validation.

Variable re_compile : string -> option (string -> bool).

Lemma run_rules_cons (cr : string * descriptor) (rules : ruleset) (d : DataFrame) :
  run_rules re_compile (cr :: rules) d =
  run_rules re_compile rules (run_rules re_compile [cr] d).
Proof. reflexivity. Qed.

Lemma run_rules_app (r1 r2 : ruleset) (d : DataFrame) :
  run_rules re_compile (r1 ++ r2) d =
  run_rules re_compile r2 (run_rules re_compile r1 d).
Proof. unfold run_rules, with_rows; simpl. by rewrite fold_left_app. Qed.

Lemma run_rules_validated (rules : ruleset) (d : DataFrame) :
  run_rules re_compile rules d =
  with_rows d (List.filter (satisfies_all re_compile d rules) (rows d)).
Proof.
  unfold run_rules, satisfies_all. f_equal.
  rewrite fold_keeps_applied. apply fold_filter.
Qed.

Lemma loop_runs_app (r1 r2 : ruleset) (d : DataFrame) :
  loop_runs re_compile (r1 ++ r2) d =
  loop_runs re_compile r1 d && loop_runs re_compile r2 (run_rules re_compile r1 d).
Proof.
  revert d. induction r1 as [| cr r1 IH]; intros d; simpl.
  - by destruct d.
  - rewrite IH, <- andb_assoc. reflexivity.
Qed.

(** *** The three outcomes of one rule *)

Lemma cmp_cell_ok_comparable (dt : dtype) (op : cmp_op) (b : number) (v : cell)
    (r : bool) :
  cmp_cell dt op b v = Ok r -> comparable dt b v = true.
Proof.
  destruct dt, v; simpl; try discriminate; try reflexivity;
    destruct b; simpl;
    repeat match goal with
           | |- context [if ?g then _ else _] => destruct g
           end; try discriminate; reflexivity.
Qed.

Lemma all_ok_forall {A} (f : cell -> outcome A) (p : cell -> bool)
    (col : list cell) (m : list A) :
  (forall v r, f v = Ok r -> p v = true) ->
  all_ok (map f col) = Ok m -> forallb p col = true.
Proof.
  intros Hf. revert m. induction col as [| v col IH]; simpl; intros m H;
    [reflexivity |].
  destruct (f v) as [r | |] eqn:E; try discriminate.
  destruct (all_ok (map f col)) as [m' | |]; try discriminate.
  by rewrite (Hf v r E), (IH m').
Qed.

Lemma series_cmp_ok_ready (dt : dtype) (op : cmp_op) (col : list cell)
    (b : number) (m : list bool) :
  series_cmp dt op col b = Ok m -> range_ready dt b col = true.
Proof.
  unfold series_cmp, range_ready.
  destruct (is_datetime64 dt); [discriminate |]. simpl.
  apply all_ok_forall. intros v r. apply cmp_cell_ok_comparable.
Qed.

Lemma series_astype_str_ok_text (dt : dtype) (col : list cell) (ts : list string) :
  series_astype_str dt col = Ok ts -> forallb (has_text dt) col = true.
Proof.
  unfold series_astype_str. apply all_ok_forall. intros v r.
  unfold has_text. by destruct (astype_str dt v).
Qed.




(** A rule that ran could run. *)
Lemma validate_rule_ok_runs (w w' : world) (l l' : nat) (c : string)
    (rule : descriptor) (d : DataFrame) :
  heap w !! l = Some d ->
  validate_rule re_compile l c rule w = (Ok l', w') ->
  runs_on re_compile d (c, rule) = true.
Proof.
  intros Hd. unfold validate_rule, runs_on; simpl.
  unfold bind at 1. unfold read. rewrite Hd. unfold has_column.
  destruct (col_pos c (columns d)) as [i |]; simpl; [| done].
  destruct (d_type rule) as [ty |]; simpl; [| discriminate].
  unfold bind at 1; simpl.
  destruct (String.eqb ty "not_null"); [done |].
  destruct (String.eqb ty "range").
  { destruct (d_min rule) as [lo |]; simpl; [| discriminate].
    unfold bind at 1; simpl. unfold bind at 1. unfold lift at 1.
    destruct (series_cmp _ Ge (get_column d c) lo) as [m1 | |] eqn:H1;
      try discriminate.
    destruct (d_max rule) as [hi |]; simpl; [| discriminate].
    unfold bind at 1; simpl. unfold bind at 1. unfold lift at 1.
    destruct (series_cmp _ Le (get_column d c) hi) as [m2 | |] eqn:H2;
      try discriminate.
    intros _. by rewrite (series_cmp_ok_ready _ _ _ _ _ H1),
                       (series_cmp_ok_ready _ _ _ _ _ H2). }
  destruct (String.eqb ty "pattern"); [| done].
  destruct (d_regex rule) as [pat |]; simpl; [| discriminate].
  unfold bind at 1; simpl. unfold bind at 1.
  destruct (re_compile pat) as [matcher |]; simpl; [| discriminate].
  unfold bind at 1. unfold lift at 1.
  destruct (series_astype_str _ (get_column d c)) as [ts | |] eqn:Ht;
    try discriminate.
  intros _. by apply (series_astype_str_ok_text _ _ ts).
Qed.



Lemma validate_loop_runs (rules : ruleset) (w : world) (l : nat) (d : DataFrame) :
  heap w !! l = Some d ->
  loop_runs re_compile rules d = true ->
  exists l' w', validate_loop re_compile rules l w = (Ok l', w') /\
                heap w' !! l' = Some (run_rules re_compile rules d).
Proof.
  revert w l d. induction rules as [| [c rule] rules IH]; intros w l d Hd.
  - intros _. simpl. exists l, w. split; [reflexivity |]. unfold run_rules; simpl.
    by rewrite frame_eta.
  - cbn [loop_runs validate_loop]. intros H. apply andb_prop in H as [Hr H].
    destruct (validate_rule_total re_compile w l c rule d Hd Hr) as (l1 & w1 & E1).
    pose proof (validate_rule_ok re_compile _ _ _ _ _ _ _ Hd E1) as Hd1.
    destruct (IH w1 l1 _ Hd1 H) as (l' & w' & E & Hout).
    exists l', w'. split; [unfold bind; by rewrite E1 |]. exact Hout.
Qed.

Lemma validate_loop_ok_runs (rules : ruleset) (w w' : world) (l l' : nat)
    (d : DataFrame) :
  heap w !! l = Some d ->
  validate_loop re_compile rules l w = (Ok l', w') ->
  loop_runs re_compile rules d = true.
Proof.
  revert w l d. induction rules as [| [c rule] rules IH]; intros w l d Hd;
    [reflexivity |].
  cbn [loop_runs validate_loop]. intros H.
  apply bind_ok_inv in H as (l1 & w1 & E1 & H).
  rewrite (validate_rule_ok_runs _ _ _ _ _ _ _ Hd E1). simpl.
  pose proof (validate_rule_ok re_compile _ _ _ _ _ _ _ Hd E1) as Hd1.
  exact (IH _ _ _ Hd1 H).
Qed.


Lemma validate_data_runs (rules : ruleset) (w : world) (df : nat) (d : DataFrame) :
  heap w !! df = Some d ->
  loop_runs re_compile rules d = true ->
  exists out w', validate_data re_compile df rules w = (Ok out, w') /\
                 heap w' !! out = Some (run_rules re_compile rules d).
Proof.
  intros Hd L. rewrite (validate_data_unfold re_compile _ _ _ _ Hd).
  set (w0 := mkWorld _ _ _).
  assert (Hd0 : heap w0 !! length (heap w) = Some d)
    by (subst w0; simpl; apply lookup_alloc).
  destruct (validate_loop_runs rules w0 _ d Hd0 L) as (l' & w2 & E & Hout).
  rewrite E, Hout. eexists _, _. split; [reflexivity |].
  rewrite when_heap. exact Hout.
Qed.

Lemma validate_data_frame_of (rules : ruleset) (w w' : world) (df out : nat)
    (d : DataFrame) :
  heap w !! df = Some d ->
  validate_data re_compile df rules w = (Ok out, w') ->
  loop_runs re_compile rules d = true /\
  heap w' !! out = Some (run_rules re_compile rules d).
Proof.
  intros Hd E.
  assert (L : loop_runs re_compile rules d = true).
  { rewrite (validate_data_unfold re_compile _ _ _ _ Hd) in E.
    set (w0 := mkWorld _ _ _) in E.
    assert (Hd0 : heap w0 !! length (heap w) = Some d)
      by (subst w0; simpl; apply lookup_alloc).
    destruct (validate_loop re_compile rules (length (heap w)) w0)
      as [[l' | e |] w2] eqn:El; try discriminate.
    exact (validate_loop_ok_runs rules w0 w2 _ l' d Hd0 El). }
  split; [exact L |].
  destruct (validate_data_runs rules w df d Hd L) as (out' & w2 & E2 & Hout).
  rewrite E in E2. by inversion E2; subst.
Qed.









(** X4.  Validation composes: validating with a rule set and then
    validating the result with a second rule set returns exactly when
    validating once with the first set followed by the second returns, and
    both give the same dataset. *)
Theorem validate_data_composes (r1 r2 : ruleset) (w : world) (df : nat)
    (d : DataFrame) :
  heap w !! df = Some d ->
  (forall o1 w1 o2 w2,
     validate_data re_compile df r1 w = (Ok o1, w1) ->
     validate_data re_compile o1 r2 w1 = (Ok o2, w2) ->
     exists o w',
       validate_data re_compile df (r1 ++ r2) w = (Ok o, w') /\
       heap w' !! o = heap w2 !! o2)
  /\ (forall o w',
        validate_data re_compile df (r1 ++ r2) w = (Ok o, w') ->
        exists o1 w1 o2 w2,
          validate_data re_compile df r1 w = (Ok o1, w1) /\
          validate_data re_compile o1 r2 w1 = (Ok o2, w2) /\
          heap w2 !! o2 = heap w' !! o).
Proof.
  intros Hd. split.
  - intros o1 w1 o2 w2 E1 E2.
    destruct (validate_data_frame_of _ _ _ _ _ _ Hd E1) as [L1 H1].
    destruct (validate_data_frame_of _ _ _ _ _ _ H1 E2) as [L2 H2].
    destruct (validate_data_runs (r1 ++ r2) w df d Hd) as (o & w' & E & Hout).
    { by rewrite loop_runs_app, L1, L2. }
    exists o, w'. split; [exact E |].
    by rewrite Hout, H2, run_rules_app.
  - intros o w' E.
    destruct (validate_data_frame_of _ _ _ _ _ _ Hd E) as [L H0].
    rewrite loop_runs_app in L. apply andb_prop in L as [L1 L2].
    destruct (validate_data_runs r1 w df d Hd L1) as (o1 & w1 & E1 & Hout1).
    destruct (validate_data_runs r2 w1 o1 _ Hout1 L2) as (o2 & w2 & E2 & Hout2).
    exists o1, w1, o2, w2. split; [exact E1 |]. split; [exact E2 |].
    by rewrite Hout2, H0, run_rules_app.
Qed.





End Validation.

(** ** Validation: missing keys, a null rule, inverted bounds *)

Section ValidationEdges.

Variable re_compile : string -> option (string -> bool).
Variable to_datetime : list cell -> list cell.

Lemma validate_data_first_raises (w : world) (df : nat) (d : DataFrame)
    (c : string) (rule : descriptor) (rest : ruleset) (e : exn) :
  heap w !! df = Some d ->
  (forall w0 l, heap w0 !! l = Some d ->
     fst (validate_rule re_compile l c rule w0) = Raise e) ->
  fst (validate_data re_compile df ((c, rule) :: rest) w) = Raise e.
Proof.
  intros Hd Hrule. rewrite (validate_data_unfold re_compile _ _ _ _ Hd).
  cbn [validate_loop]. unfold bind at 1.
  match goal with
  | |- context [validate_rule re_compile ?l c rule ?w0] =>
      pose proof (Hrule w0 l) as H;
      destruct (validate_rule re_compile l c rule w0) as [o w1]
  end.
  simpl in H. rewrite H; [reflexivity |]. simpl. apply lookup_alloc.
Qed.

Lemma transform_data_first_raises (w : world) (df : nat) (d : DataFrame)
    (c : string) (t : descriptor) (rest : ruleset) (e : exn) :
  heap w !! df = Some d ->
  (forall w0 l, heap w0 !! l = Some d ->
     fst (transform_rule to_datetime df l c t w0) = Raise e) ->
  fst (transform_data to_datetime df ((c, t) :: rest) w) = Raise e.
Proof.
  intros Hd Hrule. rewrite (transform_data_unfold to_datetime _ _ _ _ Hd).
  cbn [transform_loop]. unfold bind at 1.
  match goal with
  | |- context [transform_rule to_datetime df ?l c t ?w0] =>
      pose proof (Hrule w0 l) as H;
      destruct (transform_rule to_datetime df l c t w0) as [o w1]
  end.
  simpl in H. rewrite H; [reflexivity |]. simpl. apply lookup_alloc.
Qed.

(** X7.  A descriptor that lacks a key its kind needs, on an existing
    column, makes the engine raise [KeyError] for that key: no ['type'] in
    either engine, no ['min'] in a range rule, no ['max'] in a range rule
    on a column the comparison with the lower bound can be made on (not a
    datetime64 column, no text or timestamp cell), no ['regex'] in a
    pattern rule, no ['formula'] in a calculate transform.  Rules after it
    are not reached. *)
Theorem missing_key_raises_key_error (w : world) (df : nat) (d : DataFrame)
    (c : string) (t : descriptor) (rest : ruleset) :
  heap w !! df = Some d ->
  has_column c d = true ->
  (d_type t = None ->
   fst (validate_data re_compile df ((c, t) :: rest) w) = Raise (KeyError "type")
   /\ fst (transform_data to_datetime df ((c, t) :: rest) w)
      = Raise (KeyError "type"))
  /\ (d_type t = Some "range" -> d_min t = None ->
      fst (validate_data re_compile df ((c, t) :: rest) w) = Raise (KeyError "min"))
  /\ (forall lo, d_type t = Some "range" -> d_min t = Some lo -> d_max t = None ->
      range_ready (col_dtype d c) lo (get_column d c) = true ->
      fst (validate_data re_compile df ((c, t) :: rest) w) = Raise (KeyError "max"))
  /\ (d_type t = Some "pattern" -> d_regex t = None ->
      fst (validate_data re_compile df ((c, t) :: rest) w)
      = Raise (KeyError "regex"))
  /\ (d_type t = Some "calculate" -> d_formula t = None ->
      fst (transform_data to_datetime df ((c, t) :: rest) w)
      = Raise (KeyError "formula")).
Proof.
  intros Hd Hc. repeat split.
  - apply (validate_data_first_raises _ _ _ _ _ _ _ Hd). intros w0 l Hl.
    unfold validate_rule. unfold bind at 1. unfold read.
    by rewrite Hl, Hc, H.
  - apply (transform_data_first_raises _ _ _ _ _ _ _ Hd). intros w0 l Hl.
    unfold transform_rule. unfold bind at 1. unfold read.
    by rewrite Hl, Hc, H.
  - intros Hty Hmin.
    apply (validate_data_first_raises _ _ _ _ _ _ _ Hd). intros w0 l Hl.
    unfold validate_rule. unfold bind at 1. unfold read.
    by rewrite Hl, Hc, Hty, Hmin.
  - intros lo Hty Hmin Hmax Hcmp.
    apply (validate_data_first_raises _ _ _ _ _ _ _ Hd). intros w0 l Hl.
    unfold validate_rule. unfold bind at 1. unfold read.
    rewrite Hl, Hc, Hty, Hmax, Hmin. simpl.
    unfold bind at 1. simpl. unfold bind at 1. simpl.
    unfold bind at 1. unfold lift.
    by rewrite (series_cmp_ready _ _ _ _ Hcmp).
  - intros Hty Hre.
    apply (validate_data_first_raises _ _ _ _ _ _ _ Hd). intros w0 l Hl.
    unfold validate_rule. unfold bind at 1. unfold read.
    by rewrite Hl, Hc, Hty, Hre.
  - intros Hty Hf.
    apply (transform_data_first_raises _ _ _ _ _ _ _ Hd). intros w0 l Hl.
    unfold transform_rule. unfold bind at 1. unfold read.
    by rewrite Hl, Hc, Hty, Hf.
Qed.

Lemma in_range_inverted (lo hi : number) (v : cell) :
  (num_value hi < num_value lo)%Q -> in_range lo hi v = false.
Proof.
  intros H. unfold in_range. destruct (cell_value v) as [x |]; [| reflexivity].
  destruct (Qle_bool (num_value lo) x) eqn:E1; [| reflexivity].
  destruct (Qle_bool x (num_value hi)) eqn:E2; [| reflexivity].
  apply Qle_bool_iff in E1, E2. exfalso.
  apply (Qlt_irrefl (num_value hi)).
  apply (Qlt_le_trans _ (num_value lo)); [exact H |].
  by apply (Qle_trans _ x).
Qed.

Lemma filter_none {A} (p : A -> bool) (l : list A) :
  (forall a, p a = false) -> List.filter p l = [].
Proof. intros H. induction l as [| a l IH]; simpl; [done | by rewrite H]. Qed.

(** X8.  A range rule whose minimum exceeds its maximum removes every row:
    on a column both comparisons can be made on (an int64 or float64
    column, or an object column of numbers and missing values; not a
    datetime64 column) [validate_data] returns a dataset with the same
    columns and dtypes and no row. *)
Theorem inverted_range_keeps_nothing (w : world) (df : nat) (d : DataFrame)
    (c : string) (lo hi : number) :
  heap w !! df = Some d ->
  has_column c d = true ->
  range_ready (col_dtype d c) lo (get_column d c) = true ->
  range_ready (col_dtype d c) hi (get_column d c) = true ->
  (num_value hi < num_value lo)%Q ->
  exists out w',
    validate_data re_compile df [(c, rule_between lo hi)] w = (Ok out, w') /\
    heap w' !! out = Some (with_rows d []).
Proof.
  clear to_datetime. intros Hd Hc Hlo Hhi Hinv.
  destruct (has_column_pos _ _ Hc) as [i Hpos].
  assert (Hruns : loop_runs re_compile [(c, rule_between lo hi)] d = true).
  { simpl. unfold runs_on; simpl. by rewrite Hpos, Hlo, Hhi. }
  destruct (validate_data_runs re_compile _ w df d Hd Hruns)
    as (out & w' & E & Hout).
  exists out, w'. split; [exact E |]. rewrite Hout.
  unfold run_rules; simpl. do 2 f_equal. apply filter_none. intros r.
  unfold keeps, satisfies; simpl. rewrite Hpos. by apply in_range_inverted.
Qed.

Lemma count_false_map {A} (p : A -> bool) (l : list A) :
  count_false (map p l) = length l - length (List.filter p l).
Proof.
  unfold count_false. induction l as [| a l IH]; simpl; [reflexivity |].
  destruct (p a); simpl.
  - exact IH.
  - rewrite IH. pose proof (filter_length_le p l). lia.
Qed.

(** X9.  A not-null rule on an existing column keeps exactly the rows whose
    cell is not missing, so no remaining cell of the column is missing; the
    number logged for the rule, and as total, is the input row count minus
    the output row count, and nothing is logged for it when no row is
    removed. *)
Theorem not_null_rule_counts (w : world) (df : nat) (d : DataFrame)
    (c : string) (t : descriptor) :
  heap w !! df = Some d ->
  has_column c d = true ->
  d_type t = Some "not_null" ->
  exists out w' d',
    validate_data re_compile df [(c, t)] w = (Ok out, w') /\
    heap w' !! out = Some d' /\
    columns d' = columns d /\
    rows d' = List.filter (fun r => notna (cell_at (columns d) c r)) (rows d) /\
    forallb notna (get_column d' c) = true /\
    log w' = log w ++ (INFO, MsgValidating) ::
               (if Nat.ltb 0 (df_len d - df_len d')
                then [(INFO, MsgRemovedNull (df_len d - df_len d') c);
                      (INFO, MsgTotalRemoved (df_len d - df_len d'))]
                else []).
Proof.
  clear to_datetime. intros Hd Hc Hty.
  rewrite (validate_data_unfold re_compile _ _ _ _ Hd). cbn [validate_loop].
  unfold bind at 1. unfold validate_rule. unfold bind at 1. unfold read. simpl.
  rewrite lookup_alloc, Hc, Hty. simpl. unfold bind at 1. simpl.
  unfold bind at 1. unfold alloc at 1. simpl.
  unfold bind at 1. rewrite when_heap. simpl.
  rewrite lookup_alloc.
  set (kept := List.filter (fun r => notna (cell_at (columns d) c r)) (rows d)).
  assert (Hsel : df_select d (map notna (get_column d c))
                 = with_rows d kept).
  { unfold df_select, get_column. by rewrite select_rows_map_cell. }
  assert (Hcount : count_false (map notna (get_column d c))
                   = df_len d - length kept).
  { unfold get_column. rewrite List.map_map.
    rewrite (count_false_map (fun r => notna (cell_at (columns d) c r))).
    reflexivity. }
  rewrite Hsel, Hcount.
  change (df_len (with_rows d kept)) with (length kept).
  eexists _, _, _. split; [reflexivity |].
  split; [rewrite when_heap; simpl; apply lookup_alloc |].
  split; [reflexivity |]. split; [reflexivity |]. split.
  - unfold get_column; simpl. rewrite forallb_forall. intros v Hv.
    apply in_map_iff in Hv as (r & <- & Hr). subst kept.
    apply filter_In in Hr. tauto.
  - change (df_len (with_rows d kept)) with (length kept).
    destruct (Nat.ltb 0 (df_len d - length kept)); simpl;
      rewrite <- ?app_assoc; reflexivity.
Qed.

End ValidationEdges.

(** ** Transformation: rows and columns *)

#[global] Instance lens_kept_preorder : PreOrder lens_kept.
Proof.
  split.
  - intros w l d H. eauto.
  - intros w1 w2 w3 H12 H23 l d H.
    destruct (H12 l d H) as (d2 & H2 & E2).
    destruct (H23 l d2 H2) as (d3 & H3 & E3).
    exists d3. split; [exact H3 | congruence].
Qed.

#[global] Instance only_named_preorder (l : nat) (names : list string) :
  PreOrder (only_named l names).
Proof.
  split.
  - intros w d H. exists d. eauto.
  - intros w1 w2 w3 H12 H23 d H.
    destruct (H12 d H) as (d2 & H2 & Ec2 & El2 & Eo2).
    destruct (H23 d2 H2) as (d3 & H3 & Ec3 & El3 & Eo3).
    exists d3. split; [exact H3 |]. split; [congruence |].
    split; [congruence |]. intros c Hc. rewrite Eo3, Eo2; auto.
Qed.

Lemma length_zip_rows (f : list cell -> cell -> list cell)
    (rs : list (list cell)) (vs : list cell) :
  length vs = length rs -> length (zip_rows f rs vs) = length rs.
Proof.
  revert vs. induction rs as [| r rs IH]; intros [| v vs]; simpl; try done.
  intros H. f_equal. apply IH. lia.
Qed.

Lemma df_len_set_column (d : DataFrame) (c : string) (dt : dtype)
    (vs : list cell) :
  length vs = df_len d -> df_len (set_column d c dt vs) = df_len d.
Proof.
  intros H. unfold set_column, df_len in *.
  destruct (col_pos c (columns d)); simpl; by apply length_zip_rows.
Qed.

Lemma df_len_drop_column (d : DataFrame) (c : string) :
  df_len (drop_column d c) = df_len d.
Proof.
  unfold drop_column, df_len. destruct (col_pos c (columns d)); simpl;
    [apply length_map | reflexivity].
Qed.

Lemma lens_same_heap (w w' : world) : heap w' = heap w -> lens_kept w w'.
Proof. intros H l d Hd. exists d. by rewrite H. Qed.

Lemma lens_logging (lv : level) (m : message) : preserves lens_kept (logging lv m).
Proof. intros w. by apply lens_same_heap. Qed.

Lemma lens_update_stats (g : Stats -> Stats) : preserves lens_kept (update_stats g).
Proof. intros w. by apply lens_same_heap. Qed.

Lemma lens_alloc (d : DataFrame) : preserves lens_kept (alloc d).
Proof.
  intros w l d0 H. exists d0. split; [| reflexivity]. simpl.
  by apply lookup_app_l_Some.
Qed.

Lemma lens_write (w : world) (l : nat) (d d' : DataFrame) :
  heap w !! l = Some d -> df_len d' = df_len d ->
  lens_kept w (snd (write l d' w)).
Proof.
  intros Hd Hlen l0 d0 H0. simpl. destruct (decide (l0 = l)) as [-> | Hne].
  - exists d'. split; [| congruence].
    apply list_lookup_insert_eq. by eapply lookup_lt_Some.
  - exists d0. split; [| reflexivity]. by rewrite list_lookup_insert_ne.
Qed.

Lemma lens_assign_column (l : nat) (c : string) (v : pyval) :
  preserves lens_kept (assign_column l c v).
Proof.
  intros w. unfold assign_column, bind, read.
  destruct (heap w !! l) as [d |] eqn:Hd; simpl; [| reflexivity].
  destruct v as [z | s | dt vs | l'].
  - destruct (in_int64 z); [| reflexivity].
    apply (lens_write w l d); [exact Hd |].
    apply df_len_set_column. apply repeat_length.
  - apply (lens_write w l d); [exact Hd |].
    apply df_len_set_column. apply repeat_length.
  - destruct (Nat.eqb (length vs) (df_len d)) eqn:E; simpl; [| reflexivity].
    apply (lens_write w l d); [exact Hd |].
    apply df_len_set_column. by apply Nat.eqb_eq.
  - reflexivity.
Qed.

Lemma lens_eval_call (v : pyval) (m : string) (a : pyval) :
  preserves lens_kept (eval_call v m a).
Proof.
  intros w. unfold eval_call.
  destruct v as [| | | l]; try reflexivity.
  destruct a as [| c | |]; try reflexivity.
  destruct (String.eqb m "pop"); [| reflexivity].
  unfold bind, read. destruct (heap w !! l) as [d |] eqn:Hd; simpl;
    [| reflexivity].
  destruct (has_column c d); simpl; [| reflexivity].
  apply (lens_write w l d); [exact Hd | apply df_len_drop_column].
Qed.

Ltac pres_len :=
  repeat first
    [ apply lens_logging | apply lens_update_stats | apply lens_alloc
    | apply lens_assign_column | apply lens_eval_call | pres_step ];
  eauto.

Lemma lens_eval_expr (sc : scope) (e : expr) :
  preserves lens_kept (eval_expr sc e).
Proof. induction e; simpl; pres_len; unfold eval_subscript; pres_len. Qed.

Lemma lens_py_eval (sc : scope) (text : string) :
  preserves lens_kept (py_eval sc text).
Proof. unfold py_eval. pres_len. apply lens_eval_expr. Qed.

Section Transformation.

Variable to_datetime : list cell -> list cell.

Lemma lens_transform_rule (df l : nat) (c : string) (t : descriptor) :
  preserves lens_kept (transform_rule to_datetime df l c t).
Proof. unfold transform_rule. pres_len; apply lens_py_eval. Qed.

Lemma lens_transform_loop (df l : nat) (ts : ruleset) :
  preserves lens_kept (transform_loop to_datetime df l ts).
Proof.
  induction ts as [| [c t] ts IH]; simpl; pres_len. apply lens_transform_rule.
Qed.

Lemma transform_data_rows (w w' : world) (df out : nat)
    (d : DataFrame) (ts : ruleset) :
  heap w !! df = Some d ->
  transform_data to_datetime df ts w = (Ok out, w') ->
  exists d',
    heap w' !! out = Some d' /\
    df_len d' = df_len d /\
    transformed (stats (pipeline w')) = df_len d'.
Proof.
  intros Hd. rewrite (transform_data_unfold to_datetime _ _ _ _ Hd).
  set (w0 := mkWorld _ _ _).
  assert (Hd0 : heap w0 !! length (heap w) = Some d)
    by (subst w0; simpl; apply lookup_alloc).
  pose proof (lens_transform_loop df (length (heap w)) ts w0 _ _ Hd0)
    as (d1 & Hd1 & Hlen).
  destruct (transform_loop _ _ _ _ _) as [[u | e |] w2]; simpl in *;
    try discriminate.
  rewrite Hd1. intros H. inversion H; subst; clear H. simpl.
  exists d1. split; [exact Hd1 |]. split; [exact Hlen | reflexivity].
Qed.

(** X10.  Transformation never drops or adds a row and touches no counter
    but its own: whenever [transform_data] returns, the dataset it returns
    has as many rows as the input, the transformed counter holds that
    number, and the extracted, loaded and error counters are as before. *)
Theorem transform_data_keeps_row_count (w w' : world) (df out : nat)
    (d : DataFrame) (ts : ruleset) :
  heap w !! df = Some d ->
  transform_data to_datetime df ts w = (Ok out, w') ->
  exists d',
    heap w' !! out = Some d' /\
    df_len d' = df_len d /\
    stats (pipeline w') =
      mkStats (extracted (stats (pipeline w))) (df_len d)
              (loaded (stats (pipeline w))) (errors (stats (pipeline w))).
Proof.
  intros Hd E.
  destruct (transform_data_rows w w' df out d ts Hd E) as (d' & Hd' & Hlen & Htr).
  exists d'. split; [exact Hd' |]. split; [exact Hlen |].
  pose proof (fun f Hf => transform_data_same to_datetime f df ts Hf w) as Hst.
  rewrite E in Hst. unfold same_on in Hst. simpl in Hst.
  destruct (stats (pipeline w')) as [ex tr lo er]. simpl in *.
  rewrite Htr, Hlen. f_equal.
  - apply (Hst extracted). reflexivity.
  - apply (Hst loaded). reflexivity.
  - apply (Hst errors). reflexivity.
Qed.

End Transformation.

(** ** Transformation: the columns that are not named *)

Lemma map_zip_rows {B} (g : list cell -> B) (f : list cell -> cell -> list cell)
    (rs : list (list cell)) (vs : list cell) :
  (forall r v, g (f r v) = g r) -> length vs = length rs ->
  map g (zip_rows f rs vs) = map g rs.
Proof.
  intros Hg. revert vs. induction rs as [| r rs IH]; intros [| v vs]; simpl;
    try done.
  intros H. rewrite Hg, IH; [reflexivity | lia].
Qed.

Lemma set_column_other (d : DataFrame) (c c' : string) (dt : dtype)
    (vs : list cell) :
  has_column c d = true -> length vs = df_len d -> c' <> c ->
  get_column (set_column d c dt vs) c' = get_column d c'.
Proof.
  intros Hc Hlen Hne. destruct (has_column_pos _ _ Hc) as [i Hpos].
  unfold set_column, get_column. rewrite Hpos. simpl.
  apply map_zip_rows; [| exact Hlen].
  intros r v. unfold cell_at.
  destruct (col_pos c' (columns d)) as [j |] eqn:Hj; [| reflexivity].
  rewrite list_lookup_insert_ne; [reflexivity |].
  intros ->. apply Hne. symmetry. by eapply col_pos_inj.
Qed.

Lemma columns_set_column (d : DataFrame) (c : string) (dt : dtype)
    (vs : list cell) :
  has_column c d = true -> columns (set_column d c dt vs) = columns d.
Proof.
  intros Hc. destruct (has_column_pos _ _ Hc) as [i Hpos].
  unfold set_column. by rewrite Hpos.
Qed.

Lemma only_named_heap (l : nat) (names : list string) (w w1 w2 : world) :
  heap w2 = heap w1 -> only_named l names w w1 -> only_named l names w w2.
Proof. intros Hh H d Hd. rewrite Hh. by apply H. Qed.

Lemma only_named_refl_heap (l : nat) (names : list string) (w w' : world) :
  heap w' = heap w -> only_named l names w w'.
Proof. intros Hh. eapply only_named_heap; [exact Hh | reflexivity]. Qed.

Lemma heap_then_log {A} (m : M A) (lv : level) (msg : message) (w : world) :
  heap (snd ((m ;;; logging lv msg) w)) = heap (snd (m w)).
Proof. unfold bind. by destruct (m w) as [[a | e |] w1]. Qed.

Lemma only_named_assign (l : nat) (names : list string) (c : string)
    (dt : dtype) (vs : list cell) (w : world) (d : DataFrame) :
  heap w !! l = Some d -> has_column c d = true -> In c names ->
  only_named l names w (snd (assign_column l c (PSeries dt vs) w)).
Proof.
  intros Hd Hc Hin d0 Hd0. rewrite Hd in Hd0. inversion Hd0; subst d0.
  unfold assign_column, bind, read. rewrite Hd.
  destruct (Nat.eqb (length vs) (df_len d)) eqn:E; simpl.
  - apply Nat.eqb_eq in E. exists (set_column d c dt vs).
    split; [apply list_lookup_insert_eq; by eapply lookup_lt_Some |].
    split; [by apply columns_set_column |].
    split; [by apply df_len_set_column |].
    intros c' Hc'. apply set_column_other; auto. by intros ->.
  - exists d. eauto.
Qed.

Section Columns.

Variable to_datetime : list cell -> list cell.

Lemma only_named_transform_rule (df l : nat) (names : list string) (c : string)
    (t : descriptor) :
  In c names -> not_calculate t = true ->
  preserves (only_named l names) (transform_rule to_datetime df l c t).
Proof.
  intros Hin Hnc w. unfold transform_rule. unfold bind at 1. unfold read.
  destruct (heap w !! l) as [d |] eqn:Hd; [| reflexivity].
  destruct (has_column c d) eqn:Hc; simpl;
    [| by apply only_named_refl_heap].
  unfold not_calculate in Hnc.
  destruct (d_type t) as [ty |]; simpl; [| reflexivity].
  apply negb_true_iff in Hnc.
  unfold bind at 1. simpl.
  assert (Hstr : forall f msg,
            only_named l names w
              (snd ((vs <- lift (series_str f (col_dtype d c) (get_column d c)) ;;
                     assign_column l c (PSeries Object vs) ;;;
                     logging INFO msg) w))).
  { intros f msg. unfold bind at 1. unfold lift, series_str.
    destruct (str_accessor_ok _ (get_column d c)); [| reflexivity].
    destruct (str_result_modelled (get_column d c)); [| reflexivity].
    eapply only_named_heap; [apply heap_then_log |].
    by eapply only_named_assign. }
  assert (Hser : forall dt vs msg,
            only_named l names w
              (snd ((assign_column l c (PSeries dt vs) ;;; logging INFO msg) w))).
  { intros dt vs msg. eapply only_named_heap; [apply heap_then_log |].
    by eapply only_named_assign. }
  destruct (String.eqb ty "uppercase"); [apply Hstr |].
  destruct (String.eqb ty "lowercase"); [apply Hstr |].
  destruct (String.eqb ty "date").
  { destruct (forallb _ (to_datetime (get_column d c))); [apply Hser |].
    reflexivity. }
  destruct (String.eqb ty "category"); [reflexivity |].
  destruct (String.eqb ty "strip"); [apply Hstr |].
  rewrite Hnc. reflexivity.
Qed.

Lemma only_named_transform_loop (df l : nat) (names : list string) (ts : ruleset) :
  (forall ct, In ct ts -> In (fst ct) names) ->
  forallb (fun ct => not_calculate (snd ct)) ts = true ->
  preserves (only_named l names) (transform_loop to_datetime df l ts).
Proof.
  induction ts as [| [c t] ts IH]; simpl; intros Hnames Hnc.
  - apply preserves_ret.
  - apply andb_prop in Hnc as [H1 H2]. apply preserves_bind.
    + apply only_named_transform_rule; [| exact H1].
      apply (Hnames (c, t)). by left.
    + intros _. apply IH; [| exact H2]. intros ct Hct. apply Hnames. by right.
Qed.

(** X11.  Transformations other than calculate rewrite only the columns
    they name: whenever [transform_data] returns for a set without a
    calculate transform, the result has the column list of the input and
    every column that no transformation names holds the cells it held. *)
Theorem transform_data_touches_named_columns_only (w w' : world) (df out : nat)
    (d : DataFrame) (ts : ruleset) :
  heap w !! df = Some d ->
  forallb (fun ct => not_calculate (snd ct)) ts = true ->
  transform_data to_datetime df ts w = (Ok out, w') ->
  exists d',
    heap w' !! out = Some d' /\
    columns d' = columns d /\
    forall c, ~ In c (map fst ts) -> get_column d' c = get_column d c.
Proof.
  intros Hd Hnc. rewrite (transform_data_unfold to_datetime _ _ _ _ Hd).
  set (w0 := mkWorld _ _ _).
  assert (Hd0 : heap w0 !! length (heap w) = Some d)
    by (subst w0; simpl; apply lookup_alloc).
  pose proof (only_named_transform_loop df (length (heap w)) (map fst ts) ts)
    as Hloop.
  specialize (Hloop (fun ct Hct => in_map fst ts ct Hct) Hnc w0 d Hd0).
  destruct Hloop as (d1 & Hd1 & Hcols & _ & Hother).
  destruct (transform_loop _ _ _ _ _) as [[u | e |] w2]; simpl in *;
    try discriminate.
  rewrite Hd1. intros H. inversion H; subst; clear H. simpl.
  exists d1. split; [exact Hd1 |]. split; [exact Hcols | exact Hother].
Qed.

End Columns.

(** ** Transformation: stripping white space, and columns without strings *)








Lemma str_accessor_refuses_ints (dt : dtype) (col : list cell) :
  col <> [] -> forallb is_int col = true -> str_accessor_ok dt col = false.
Proof.
  intros Hne Hint. destruct dt; try reflexivity. simpl.
  unfold str_inferred_ok, first_value.
  destruct col as [| v col]; [done |]. simpl in Hint.
  apply andb_prop in Hint as [Hv Hcol]. destruct v; try discriminate. simpl.
  assert (H : forallb (fun v => is_int v || is_float v || is_NaN v) col = true).
  { apply forallb_forall. intros v Hv'. rewrite forallb_forall in Hcol.
    by rewrite (Hcol v Hv'). }
  by rewrite H.
Qed.

Section StringTransforms.

Variable to_datetime : list cell -> list cell.

Lemma transform_rule_strip (w : world) (df l : nat) (c : string) (t : descriptor)
    (d : DataFrame) :
  heap w !! l = Some d -> has_column c d = true ->
  d_type t = Some "strip" ->
  transform_rule to_datetime df l c t w = str_step py_strip (MsgStripped c) l c d w.
Proof.
  intros Hd Hc Hty. unfold transform_rule, str_step. unfold bind at 1. unfold read.
  rewrite Hd, Hc, Hty. simpl. unfold bind at 1. simpl.
  unfold series_str. destruct (str_accessor_ok _ (get_column d c)); [| reflexivity].
  destruct (str_result_modelled (get_column d c)); [| reflexivity].
  unfold bind at 1. unfold lift at 1. unfold assign_column.
  unfold bind at 1. unfold bind at 1. unfold read. rewrite Hd.
  rewrite length_map, length_get_column, Nat.eqb_refl. reflexivity.
Qed.


(** X13.  The case and strip transforms need strings: on an existing,
    non-empty column that holds only ints, [transform_data] raises
    [AttributeError] for an uppercase, lowercase or strip transform. *)
Theorem string_transform_refuses_int_column (w : world) (df : nat)
    (d : DataFrame) (c : string) (t : descriptor) :
  heap w !! df = Some d ->
  has_column c d = true ->
  get_column d c <> [] ->
  forallb is_int (get_column d c) = true ->
  d_type t = Some "uppercase" \/ d_type t = Some "lowercase"
    \/ d_type t = Some "strip" ->
  fst (transform_data to_datetime df [(c, t)] w) = Raise AttributeError.
Proof.
  intros Hd Hc Hne Hint Hty.
  pose proof (str_accessor_refuses_ints (col_dtype d c) _ Hne Hint) as Hno.
  destruct Hty as [Hty | [Hty | Hty]].
  - pose proof (transform_data_str to_datetime py_upper (MsgUppercased c) w df d c t
                  (fun w0 l d0 H0 Hc0 =>
                     transform_rule_upper to_datetime w0 df l c t d0 H0 Hc0 Hty)
                  Hd Hc) as H.
    by rewrite Hno in H.
  - pose proof (transform_data_str to_datetime py_lower (MsgLowercased c) w df d c t
                  (fun w0 l d0 H0 Hc0 =>
                     transform_rule_lower to_datetime w0 df l c t d0 H0 Hc0 Hty)
                  Hd Hc) as H.
    by rewrite Hno in H.
  - pose proof (transform_data_str to_datetime py_strip (MsgStripped c) w df d c t
                  (fun w0 l d0 H0 Hc0 =>
                     transform_rule_strip w0 df l c t d0 H0 Hc0 Hty)
                  Hd Hc) as H.
    by rewrite Hno in H.
Qed.

End StringTransforms.

(** ** Extraction and load *)

(** X14.  [extract_csv] on a missing file raises [FileNotFoundError]
    without reading anything, counts one error and leaves the store and the
    other counters alone; a failure of the reader is re-raised and counted
    the same way; on success the new object holds exactly the dataset read
    and the extracted counter its row count. *)
Theorem extract_csv_outcomes (env : io) (path : string) (w : world) :
  (io_exists env path = false ->
   extract_csv env path w =
     (Raise (FileNotFoundError path),
      mkWorld (with_stats (pipeline w) (one_more_error (stats (pipeline w))))
              (heap w)
              (log w ++ [(INFO, MsgExtracting path);
                         (ERROR, MsgExtractFailed (FileNotFoundError path))])))
  /\ (forall e, io_exists env path = true -> io_read_csv env path = Raise e ->
      extract_csv env path w =
        (Raise e,
         mkWorld (with_stats (pipeline w) (one_more_error (stats (pipeline w))))
                 (heap w)
                 (log w ++ [(INFO, MsgExtracting path);
                            (ERROR, MsgExtractFailed e)])))
  /\ (forall d, io_exists env path = true -> io_read_csv env path = Ok d ->
      exists w',
        extract_csv env path w = (Ok (length (heap w)), w') /\
        heap w' = heap w ++ [d] /\
        stats (pipeline w') =
          mkStats (df_len d) (transformed (stats (pipeline w)))
                  (loaded (stats (pipeline w))) (errors (stats (pipeline w)))).
Proof.
  split; [| split].
  - intros Hex. unfold extract_csv, try_except, bind, logging, raise,
      incr_errors, update_stats; simpl. rewrite Hex. simpl.
    by rewrite <- app_assoc.
  - intros e Hex Hread. unfold extract_csv, try_except, bind, logging, raise,
      lift, incr_errors, update_stats, ret; simpl. rewrite Hex, Hread. simpl.
    by rewrite <- app_assoc.
  - intros d Hex Hread. unfold extract_csv, try_except, bind, logging, raise,
      lift, alloc, update_stats, ret; simpl. rewrite Hex, Hread. simpl.
    eexists. split; [reflexivity |]. split; reflexivity.
Qed.

Lemma create_indexes_open (env : io) (t : string) (d : DataFrame) (w : world)
    (r : log_record) :
  connection (pipeline w) = ConnOpen ->
  last (log w) = Some r ->
  exists w',
    create_indexes env t (columns d) w = (Ok tt, w') /\
    pipeline w' = pipeline w /\ heap w' = heap w /\
    last (log w') =
      Some (match columns d with
            | [] => r
            | c0 :: _ =>
                match io_create_index env t c0 with
                | None => (INFO, MsgIndexCreated (index_name t c0))
                | Some e => (WARNING, MsgIndexFailed e)
                end
            end).
Proof.
  intros Hc Hlast. unfold create_indexes, try_except, bind, get_connection,
    raise_if, logging, raise, ret; simpl. rewrite Hc.
  destruct (columns d) as [| c0 cols]; simpl.
  - eexists. split; [reflexivity |]. by destruct w.
  - destruct (io_create_index env t c0); simpl;
      (eexists; split; [reflexivity |]; simpl;
       split; [reflexivity |]; split; [reflexivity |]; apply last_snoc).
Qed.

(** X15.  When the table write succeeds on an open connection,
    [load_to_db] returns normally whether or not the index can be created:
    a failing index is logged as a warning and swallowed.  The loaded
    counter is the row count of the dataset, nothing else of the pipeline
    object or the store changes, and the index is put on the first column
    only. *)
Theorem load_to_db_survives_index_failure (env : io) (df : nat) (t : string)
    (w : world) (d : DataFrame) :
  heap w !! df = Some d ->
  connection (pipeline w) = ConnOpen ->
  io_to_sql env t d = None ->
  exists w',
    load_to_db env df t w = (Ok tt, w') /\
    pipeline w' =
      with_stats (pipeline w)
        (mkStats (extracted (stats (pipeline w))) (transformed (stats (pipeline w)))
                 (df_len d) (errors (stats (pipeline w)))) /\
    heap w' = heap w /\
    last (log w') = Some (index_record env t d).
Proof.
  intros Hd Hc Hsql. unfold load_to_db, try_except.
  unfold bind at 1. unfold logging at 1. simpl.
  unfold bind at 1. unfold read at 1. simpl. rewrite Hd.
  unfold bind at 1. unfold get_connection at 1. simpl.
  unfold bind at 1. rewrite Hc, Hsql. simpl.
  unfold bind at 1. unfold update_stats at 1. simpl.
  unfold bind at 1. unfold logging at 1. simpl.
  match goal with
  | |- context [create_indexes env t (columns d) ?w0] =>
      destruct (create_indexes_open env t d w0 (INFO, MsgRowsLoaded (df_len d) t))
        as (w' & E & Hp & Hh & Hl);
        [simpl; by rewrite Hc | simpl; apply last_snoc |]
  end.
  rewrite E. exists w'. split; [reflexivity |].
  split; [rewrite Hp; simpl; unfold with_stats; by rewrite Hc |].
  split; [by rewrite Hh |]. rewrite Hl. unfold index_record.
  destruct (columns d); reflexivity.
Qed.

(** X16.  When the table write fails, [load_to_db] re-raises the error,
    counts it, and reports nothing as loaded: the loaded counter keeps its
    value and no index is attempted. *)
Theorem load_to_db_failure_is_counted (env : io) (df : nat) (t : string)
    (w : world) (d : DataFrame) (e : exn) :
  heap w !! df = Some d ->
  connection (pipeline w) = ConnOpen ->
  io_to_sql env t d = Some e ->
  load_to_db env df t w =
    (Raise e,
     mkWorld (with_stats (pipeline w) (one_more_error (stats (pipeline w))))
             (heap w)
             (log w ++ [(INFO, MsgLoading t); (ERROR, MsgLoadFailed e)])).
Proof.
  intros Hd Hc Hsql. unfold load_to_db, try_except.
  unfold bind at 1. unfold logging at 1. simpl.
  unfold bind at 1. unfold read at 1. simpl. rewrite Hd.
  unfold bind at 1. unfold get_connection at 1. simpl.
  unfold bind at 1. rewrite Hc, Hsql. simpl.
  unfold bind, logging, incr_errors, update_stats, raise; simpl.
  by rewrite <- app_assoc.
Qed.

(** ** Whole runs *)

#[global] Instance same_pipeline_preorder : PreOrder same_pipeline.
Proof.
  split.
  - intros w. reflexivity.
  - intros w1 w2 w3. unfold same_pipeline. congruence.
Qed.

Lemma pipeline_logging (lv : level) (m : message) :
  preserves same_pipeline (logging lv m).
Proof. intros w. reflexivity. Qed.

Lemma pipeline_alloc (d : DataFrame) : preserves same_pipeline (alloc d).
Proof. intros w. reflexivity. Qed.

Ltac pres_pipeline :=
  repeat first [ apply pipeline_logging | apply pipeline_alloc | pres_step ];
  eauto.

Lemma close_db_open (w : world) :
  connection (pipeline w) = ConnOpen ->
  close_db w =
    (Ok tt,
     mkWorld (mkPipeline (db_name (pipeline w)) ConnClosed (stats (pipeline w)))
             (heap w) (log w ++ [(INFO, MsgConnectionClosed)])).
Proof.
  intros Hc. unfold close_db, bind, get_connection, set_connection, logging.
  simpl. by rewrite Hc.
Qed.

Lemma extract_csv_ok_frame (env : io) (path : string) (w w' : world) (df : nat) :
  extract_csv env path w = (Ok df, w') ->
  exists d, io_read_csv env path = Ok d /\
    heap w' !! df = Some d /\
    stats (pipeline w') =
      mkStats (df_len d) (transformed (stats (pipeline w)))
              (loaded (stats (pipeline w))) (errors (stats (pipeline w))).
Proof.
  unfold extract_csv, try_except, bind, logging, lift, alloc, update_stats,
    incr_errors, raise, ret; simpl.
  destruct (io_exists env path); simpl;
    [destruct (io_read_csv env path) as [d | e' |]; simpl |];
    intros H; inversion H; subst; simpl.
  exists d. split; [reflexivity |]. split; [apply lookup_alloc | reflexivity].
Qed.

Lemma load_to_db_ok_open (env : io) (df : nat) (t : string) (w w' : world)
    (u : unit) :
  load_to_db env df t w = (Ok u, w') ->
  exists d, heap w !! df = Some d /\
    connection (pipeline w') = ConnOpen /\
    stats (pipeline w') =
      mkStats (extracted (stats (pipeline w))) (transformed (stats (pipeline w)))
              (df_len d) (errors (stats (pipeline w))).
Proof.
  intros E.
  destruct (load_to_db_ok _ _ _ _ _ _ E) as (d & Hd & Hst).
  exists d. split; [exact Hd |]. split; [| exact Hst].
  destruct (connection (pipeline w)) eqn:Hc.
  - exfalso. revert E. unfold load_to_db, try_except.
    unfold bind at 1. unfold logging at 1. simpl.
    unfold bind at 1. unfold read at 1. simpl. rewrite Hd.
    unfold bind at 1. unfold get_connection at 1. simpl.
    unfold bind at 1. rewrite Hc. simpl.
    unfold bind, logging, incr_errors, update_stats, raise; simpl. discriminate.
  - destruct (io_to_sql env t d) as [e |] eqn:Hsql.
    + exfalso. revert E. unfold load_to_db, try_except.
      unfold bind at 1. unfold logging at 1. simpl.
      unfold bind at 1. unfold read at 1. simpl. rewrite Hd.
      unfold bind at 1. unfold get_connection at 1. simpl.
      unfold bind at 1. rewrite Hc, Hsql. simpl.
      unfold bind, logging, incr_errors, update_stats, raise; simpl. discriminate.
    + revert E. unfold load_to_db, try_except.
      unfold bind at 1. unfold logging at 1. simpl.
      unfold bind at 1. unfold read at 1. simpl. rewrite Hd.
      unfold bind at 1. unfold get_connection at 1. simpl.
      unfold bind at 1. rewrite Hc, Hsql. simpl.
      unfold bind at 1. unfold update_stats at 1. simpl.
      unfold bind at 1. unfold logging at 1. simpl.
      match goal with
      | |- context [create_indexes env t (columns d) ?w0] =>
          destruct (create_indexes_open env t d w0
                      (INFO, MsgRowsLoaded (df_len d) t))
            as (w1 & E1 & Hp & _);
            [simpl; by rewrite Hc | simpl; apply last_snoc |]
      end.
      rewrite E1. intros H. inversion H; subst. rewrite Hp. simpl. exact Hc.
  - exfalso. revert E. unfold load_to_db, try_except.
    unfold bind at 1. unfold logging at 1. simpl.
    unfold bind at 1. unfold read at 1. simpl. rewrite Hd.
    unfold bind at 1. unfold get_connection at 1. simpl.
    unfold bind at 1. rewrite Hc. simpl.
    unfold bind, logging, incr_errors, update_stats, raise; simpl. discriminate.
Qed.

Section Runs.

Variable re_compile : string -> option (string -> bool).
Variable to_datetime : list cell -> list cell.

Lemma clean_data_pipeline (df : nat) : preserves same_pipeline (clean_data df).
Proof. unfold clean_data. pres_pipeline. Qed.

Lemma validate_rule_pipeline (l : nat) (c : string) (r : descriptor) :
  preserves same_pipeline (validate_rule re_compile l c r).
Proof. unfold validate_rule. pres_pipeline. Qed.

Lemma validate_loop_pipeline (rules : ruleset) (l : nat) :
  preserves same_pipeline (validate_loop re_compile rules l).
Proof.
  revert l. induction rules as [| [c r] rules IH]; intros l; simpl; pres_pipeline.
  apply validate_rule_pipeline.
Qed.

Lemma validate_data_pipeline (df : nat) (rules : ruleset) :
  preserves same_pipeline (validate_data re_compile df rules).
Proof.
  unfold validate_data, df_copy. pres_pipeline. apply validate_loop_pipeline.
Qed.

(** X17.  Cleaning and validation work on datasets only: whatever their
    outcome, [clean_data] and [validate_data] leave the statistics and the
    connection of the pipeline object as they found them. *)
Theorem cleaning_and_validation_leave_pipeline (w : world) (df : nat)
    (rules : ruleset) :
  pipeline (snd (clean_data df w)) = pipeline w
  /\ pipeline (snd (validate_data re_compile df rules w)) = pipeline w.
Proof.
  split; [apply clean_data_pipeline | apply validate_data_pipeline].
Qed.

Lemma df_len_run_rules (rules : ruleset) (d : DataFrame) :
  df_len (run_rules re_compile rules d) <= df_len d.
Proof.
  rewrite run_rules_validated. unfold df_len; simpl. apply filter_length_le.
Qed.

Lemma df_len_drop_duplicates (d : DataFrame) :
  df_len (drop_duplicates d) <= df_len d.
Proof.
  unfold df_len, drop_duplicates. destruct (columns d); [reflexivity |].
  simpl. by destruct (dedup_rows_spec (rows d) []) as (_ & _ & _ & H).
Qed.

(** X18.  In a run that succeeds, the rows loaded are never more than the
    rows extracted: the loaded counter is at most the extracted counter,
    which is the row count of the file read; with a non-empty
    transformation set the transformed counter equals the loaded counter;
    and the run ends with the connection closed, closing it being the last
    thing logged. *)
Theorem successful_run_counts (env : io) (csv table : string)
    (vr tr : option ruleset) (w w' : world) (u : unit) :
  run_pipeline re_compile to_datetime env csv table vr tr w = (Ok u, w') ->
  (exists d, io_read_csv env csv = Ok d /\
             extracted (stats (pipeline w')) = df_len d)
  /\ loaded (stats (pipeline w')) <= extracted (stats (pipeline w'))
  /\ (truthy tr = true ->
      transformed (stats (pipeline w')) = loaded (stats (pipeline w')))
  /\ connection (pipeline w') = ConnClosed
  /\ last (log w') = Some (INFO, MsgConnectionClosed).
Proof.
  intros H. rewrite run_pipeline_unfold in H.
  destruct (run_stages re_compile to_datetime env csv table vr tr (snd (log_start w)))
    as [[a | e |] w1] eqn:Hs; try discriminate.
  inversion H; subst; clear H.
  unfold run_stages in Hs.
  apply bind_ok_inv in Hs as (? & wa & Ha & Hs).
  apply bind_ok_inv in Hs as (df1 & wb & Hb & Hs).
  apply bind_ok_inv in Hs as (df2 & wc & Hc & Hs).
  apply bind_ok_inv in Hs as (df3 & wd & Hd & Hs).
  apply bind_ok_inv in Hs as (df4 & we & He & Hs).
  apply bind_ok_inv in Hs as (? & wf & Hf & Hs).
  cbv [bind get_stats logging] in Hs. simpl in Hs. inversion Hs; subst; clear Hs.
  destruct (extract_csv_ok_frame _ _ _ _ _ Hb) as (d & Hread & Hd1 & Hsb).
  pose proof (clean_data_unfold wb df1 d Hd1) as Ec.
  rewrite Hc in Ec. inversion Ec; subst df2.
  assert (Hhc : heap wc = heap wb ++ [drop_duplicates d]) by (by subst wc).
  assert (Hpc : pipeline wc = pipeline wb) by (by subst wc).
  clear Ec.
  assert (Hd2 : heap wc !! length (heap wb) = Some (drop_duplicates d))
    by (rewrite Hhc; apply lookup_alloc).
  assert (Hvalid : exists d3, heap wd !! df3 = Some d3 /\ df_len d3 <= df_len d /\
                              pipeline wd = pipeline wb).
  { destruct (truthy vr).
    - destruct (validate_data_frame_of re_compile _ _ _ _ _ _ Hd2 Hd) as [_ H3].
      eexists. split; [exact H3 |]. split.
      + etrans; [apply df_len_run_rules | apply df_len_drop_duplicates].
      + pose proof (validate_data_pipeline (length (heap wb)) (default [] vr) wc)
          as Hp. rewrite Hd in Hp. unfold same_pipeline in Hp. simpl in Hp.
        by rewrite Hp.
    - inversion Hd; subst. eexists. split; [exact Hd2 |].
      split; [apply df_len_drop_duplicates | exact Hpc]. }
  destruct Hvalid as (d3 & Hd3 & Hlen3 & Hpd).
  assert (Htrans : exists d4, heap we !! df4 = Some d4 /\ df_len d4 <= df_len d /\
                     extracted (stats (pipeline we)) = df_len d /\
                     (truthy tr = true ->
                      transformed (stats (pipeline we)) = df_len d4)).
  { destruct (truthy tr).
    - destruct (transform_data_rows to_datetime _ _ _ _ _ _ Hd3 He)
        as (d4 & Hd4 & Hlen4 & Htr4).
      pose proof (transform_data_same to_datetime extracted df3 (default [] tr)
                    (fun _ _ => eq_refl) wd) as Hex.
      rewrite He in Hex. unfold same_on in Hex. simpl in Hex.
      exists d4. split; [exact Hd4 |]. split; [lia |].
      split; [by rewrite Hex, Hpd, Hsb | intros _; exact Htr4].
    - inversion He; subst. exists d3. split; [exact Hd3 |].
      split; [exact Hlen3 |]. split; [by rewrite Hpd, Hsb | discriminate]. }
  destruct Htrans as (d4 & Hd4 & Hlen4 & Hext & Htr).
  destruct (load_to_db_ok_open _ _ _ _ _ _ Hf) as (dl & Hdl & Hopen & Hsf).
  rewrite Hd4 in Hdl. inversion Hdl; subst dl; clear Hdl.
  set (ws := mkWorld _ _ _).
  assert (Hcs : connection (pipeline ws) = ConnOpen) by exact Hopen.
  rewrite (close_db_open ws Hcs). simpl.
  split; [exists d; split; [exact Hread |]; by rewrite Hsf |].
  split; [rewrite Hsf; simpl; lia |].
  split; [intros Ht; rewrite Hsf; simpl; by apply Htr |].
  split; [reflexivity | apply last_snoc].
Qed.

(** X19.  When the connection cannot be opened, the run raises that error
    before any stage: nothing is extracted or loaded, no counter changes
    (the error counter included) and the store is as before. *)
Theorem run_without_connection (env : io) (csv table : string)
    (vr tr : option ruleset) (w : world) (e : exn) :
  io_connect env = Some e ->
  let r := run_pipeline re_compile to_datetime env csv table vr tr w in
  fst r = Raise e
  /\ stats (pipeline (snd r)) = stats (pipeline w)
  /\ heap (snd r) = heap w
  /\ In (ERROR, MsgConnectFailed e) (log (snd r))
  /\ ~ In (INFO, MsgExtracting csv) (skipn (length (log w)) (log (snd r))).
Proof.
  intros Hconn r. subst r. rewrite run_pipeline_unfold.
  unfold run_stages. unfold bind at 1. unfold connect_db, try_except.
  unfold bind at 1. unfold raise_if. rewrite Hconn. simpl.
  unfold close_db, bind, get_connection, set_connection, logging, ret; simpl.
  destruct (connection (pipeline w)); simpl;
    (split; [reflexivity |]; split; [reflexivity |]; split; [reflexivity |];
     split;
     [ repeat (apply in_or_app; first [right; left; reflexivity | left])
     | rewrite <- ?app_assoc; rewrite drop_app_length; simpl;
       intros H; repeat (destruct H as [H | H]; [discriminate |]); exact H ]).
Qed.

(** X20.  When the source file is missing, the run raises
    [FileNotFoundError], counts exactly one error, leaves the extracted,
    transformed and loaded counters and the store as they were, and still
    closes the connection it opened, closing it being the last thing
    logged. *)
Theorem run_on_missing_file (env : io) (csv table : string)
    (vr tr : option ruleset) (w : world) :
  io_connect env = None ->
  io_exists env csv = false ->
  let r := run_pipeline re_compile to_datetime env csv table vr tr w in
  fst r = Raise (FileNotFoundError csv)
  /\ stats (pipeline (snd r)) = one_more_error (stats (pipeline w))
  /\ heap (snd r) = heap w
  /\ connection (pipeline (snd r)) = ConnClosed
  /\ last (log (snd r)) = Some (INFO, MsgConnectionClosed).
Proof.
  intros Hconn Hex r. subst r. rewrite run_pipeline_unfold.
  unfold run_stages. unfold bind at 1. unfold connect_db, try_except.
  unfold bind at 1. unfold raise_if. rewrite Hconn. simpl.
  unfold bind at 1. unfold extract_csv, try_except.
  unfold bind at 1. unfold logging at 1. simpl.
  unfold bind at 1. rewrite Hex. simpl.
  unfold close_db, bind, get_connection, set_connection, logging, incr_errors,
    update_stats, raise, ret; simpl.
  split; [reflexivity |]. split; [reflexivity |]. split; [reflexivity |].
  split; [reflexivity |]. apply last_snoc.
Qed.

End Runs.

(** * The theorems on concrete runs *)

(** C5, as stated, fails: a run whose validation stage raises (a range rule
    on a column holding a string) ends with the exception and an error
    counter that was not incremented. *)
Lemma validation_failure_not_counted :
  let r := run_pipeline re_compile_literal to_datetime_coerce (io_ok df_bad_age)
             "clients.csv" "clients" (Some [("age", rule_range 18 100)]) None
             (world_of []) in
  fst r = Raise TypeError /\ errors_of (snd r) = errors_of (world_of []).
Proof. vm_compute. split; reflexivity. Qed.

Lemma run_pipeline_failure_accounting_witness :
  let w := world_of [] in
  let r := run_pipeline re_compile_literal to_datetime_coerce io_missing_file
             "clients.csv" "clients" None None w in
  fst r = Raise (FileNotFoundError "clients.csv")
  /\ released (snd r)
  /\ errors_of (snd r) = errors_of w + 1.
Proof.
  pose proof (run_pipeline_failure_accounting re_compile_literal
                to_datetime_coerce io_missing_file "clients.csv" "clients"
                None None (world_of [])) as (_ & Hrel & _ & Hext & _).
  split; [reflexivity |]. split.
  - apply Hrel. vm_compute. discriminate.
  - vm_compute. reflexivity.
Defined.

(** C6, as stated, fails: after a run that failed at extraction, a second,
    successful run on the same object reports the error of the first in its
    summary; and a run without transformations reports the transformed
    count of the run before it. *)
Lemma counters_carried_into_next_run :
  let w1 := snd (run_pipeline re_compile_literal to_datetime_coerce
                   io_missing_file "clients.csv" "clients" None None
                   (world_of [])) in
  let r2 := run_pipeline re_compile_literal to_datetime_coerce
              (io_ok df_clients) "clients.csv" "clients" None None w1 in
  fst r2 = Ok tt
  /\ In (INFO, MsgStatErrors 1) (skipn (length (log w1)) (log (snd r2)))
  /\ errors_of (snd r2) = 1.
Proof. vm_compute. split; [reflexivity |]. split; [| reflexivity]. tauto. Qed.

Lemma run_pipeline_counters_carry_over_witness :
  let w := world_of [] in
  let r := run_pipeline re_compile_literal to_datetime_coerce (io_ok df_clients)
             "clients.csv" "clients" None None w in
  fst r = Ok tt /\ errors_of (snd r) = errors_of w.
Proof.
  split; [reflexivity |].
  apply (run_pipeline_counters_carry_over re_compile_literal to_datetime_coerce
           (io_ok df_clients) "clients.csv" "clients" None None (world_of [])
           _ tt).
  vm_compute. reflexivity.
Defined.


(** C2, as stated, fails: a range rule on a column holding a string does
    not drop the row, [validate_data] raises [TypeError]. *)
Lemma range_rule_raises_on_string :
  fst (validate_data re_compile_literal 0 [("age", rule_range 18 100)]
         (world_of [df_bad_age])) = Raise TypeError.
Proof. vm_compute. reflexivity. Qed.

Lemma range_rule_keeps_in_range_witness :
  exists out w',
    validate_data re_compile_literal 0 [("age", rule_range 18 100)]
      (world_of [df_clients]) = (Ok out, w') /\
    heap w' !! out =
      Some (mkDataFrame ["name"; "age"] [Object; Float64]
              [[VStr "ann"; VFloat 25]; [VStr "dan"; VFloat 100]]).
Proof.
  pose proof (range_rule_keeps_in_range re_compile_literal
                (world_of [df_clients]) 0 df_clients "age" (NInt 18) (NInt 100)
                eq_refl eq_refl) as H.
  cbv zeta in H. destruct H as (Hok & _ & _).
  destruct Hok as (out & w' & E & Hout);
    [vm_compute; reflexivity | vm_compute; reflexivity |].
  exists out, w'. split; [exact E |]. rewrite Hout. vm_compute. reflexivity.
Defined.

(** C3, as stated, fails: the text [price * qty] names no variable of the
    scope [eval] runs in, and [transform_data] raises [NameError]. *)
Lemma bare_column_names_raise :
  fst (transform_data to_datetime_coerce 0
         [("total", transform_calculate "price * qty")] (world_of [df_prices]))
  = Raise (NameError "price").
Proof. vm_compute. reflexivity. Qed.

Lemma calculate_price_times_qty_witness :
  exists out w' d',
    transform_data to_datetime_coerce 0
      [("total", transform_calculate formula_price_qty)] (world_of [df_prices])
      = (Ok out, w') /\
    heap w' !! out = Some d' /\
    get_column d' "total" = [VInt 30; VInt 30].
Proof.
  destruct (calculate_price_times_qty to_datetime_coerce (world_of [df_prices]) 0
              df_prices "total" (transform_calculate formula_price_qty))
    as (out & w' & d' & E & Hout & _ & _ & Hcol & _);
    try reflexivity.
  - repeat constructor.
  - repeat constructor.
  - exists out, w', d'. split; [exact E |]. split; [exact Hout | exact Hcol].
Defined.

(** A product with a datetime64 column is refused whatever the cells, so
    also on a dataset without rows, where every row has price 10 and qty
    3. *)
Lemma product_of_datetime_column_raises :
  fst (transform_data to_datetime_coerce 0
         [("total", transform_calculate formula_price_qty)]
         (world_of [mkDataFrame ["price"; "qty"; "total"]
                                [Datetime64; Int64; Int64] []]))
  = Raise TypeError.
Proof. vm_compute. reflexivity. Qed.

(** C4, as stated, fails: a descriptor of an unknown kind on an existing
    column raises nothing, both engines return normally. *)
Lemma unknown_kind_raises_nothing :
  fst (validate_data re_compile_literal 0 [("age", transform_kind "unique")]
         (world_of [df_clients])) = Ok 1
  /\ fst (transform_data to_datetime_coerce 0 [("name", transform_kind "titlecase")]
            (world_of [df_clients])) = Ok 1.
Proof. vm_compute. split; reflexivity. Qed.

Lemma unknown_kind_is_skipped_witness :
  exists out w',
    validate_data re_compile_literal 0 [("age", transform_kind "unique")]
      (world_of [df_clients]) = (Ok out, w') /\
    heap w' !! out = Some df_clients /\
    log w' = [(INFO, MsgValidating)].
Proof.
  destruct (unknown_kind_is_skipped re_compile_literal to_datetime_coerce
              (world_of [df_clients]) 0 df_clients "age" "unique"
              (transform_kind "unique") eq_refl eq_refl eq_refl) as [Hv _].
  apply Hv. reflexivity.
Defined.

Lemma empty_rule_sets_are_noops_witness :
  exists out w',
    validate_data re_compile_literal 0 [] (world_of [df_clients]) = (Ok out, w')
    /\ heap w' !! out = Some df_clients.
Proof.
  destruct (empty_rule_sets_are_noops re_compile_literal to_datetime_coerce
              (world_of [df_clients]) 0 df_clients eq_refl) as [Hv _].
  exact Hv.
Defined.



Lemma absent_column_is_skipped_witness :
  exists out w',
    validate_data re_compile_literal 0 [("email", rule_not_null)]
      (world_of [df_clients]) = (Ok out, w') /\
    heap w' !! out = Some df_clients /\
    log w' = [(INFO, MsgValidating); (WARNING, MsgColumnNotFound "email")].
Proof.
  destruct (absent_column_is_skipped re_compile_literal to_datetime_coerce
              (world_of [df_clients]) 0 df_clients "email" rule_not_null
              eq_refl eq_refl) as [(out & w' & E & Hout & _ & Hlog & _) _].
  exists out, w'. split; [exact E |]. split; [exact Hout | exact Hlog].
Defined.

(** C10, as stated, fails: a calculate formula is evaluated with the
    caller's dataset in scope, and [df.pop('price')] removes a column from
    it. *)
Lemma formula_changes_the_input :
  let w := world_of [df_prices] in
  let r := transform_data to_datetime_coerce 0
             [("total", transform_calculate "df.pop('price')")] w in
  fst r = Ok 1 /\
  heap (snd r) !! 0 =
    Some (mkDataFrame ["qty"; "total"] [Int64; Float64]
            [[VInt 3; VFloat 0]; [VInt 3; VNaN]]) /\
  heap (snd r) !! 0 <> heap w !! 0.
Proof. vm_compute. split; [reflexivity |]. split; [reflexivity | discriminate]. Qed.

Lemma input_dataset_unchanged_witness :
  let w := world_of [df_clients] in
  heap (snd (clean_data 0 w)) !! 0 = Some df_clients
  /\ heap (snd (validate_data re_compile_literal 0 rules_clients w)) !! 0
     = Some df_clients
  /\ heap (snd (transform_data to_datetime_coerce 0
                  [("name", transform_kind "uppercase")] w)) !! 0
     = Some df_clients.
Proof.
  destruct (input_dataset_unchanged re_compile_literal to_datetime_coerce
              (world_of [df_clients]) 0 df_clients eq_refl) as (Hc & Hv & Ht).
  split; [exact Hc |]. split; [apply Hv |]. apply Ht. reflexivity.
Defined.

(** ** The further properties on concrete inputs *)



Lemma validate_data_composes_witness :
  let w := world_of [df_clients] in
  let r1 := validate_data re_compile_literal 0 [("age", rule_range 18 100)] w in
  let r2 := validate_data re_compile_literal 2 [("name", rule_pattern "a")]
              (snd r1) in
  exists o w',
    validate_data re_compile_literal 0
      ([("age", rule_range 18 100)] ++ [("name", rule_pattern "a")]) w
    = (Ok o, w') /\
    heap w' !! o = heap (snd r2) !! 4.
Proof.
  intros w r1 r2.
  destruct (validate_data_composes re_compile_literal
              [("age", rule_range 18 100)] [("name", rule_pattern "a")]
              w 0 df_clients eq_refl) as [Hseq _].
  apply (Hseq 2 (snd r1) 4 (snd r2)); vm_compute; reflexivity.
Defined.



Lemma missing_key_raises_key_error_witness :
  fst (validate_data re_compile_literal 0
         [("age", mkDescriptor (Some "range") (Some (NInt 18)) None None None)]
         (world_of [df_clients])) = Raise (KeyError "max").
Proof.
  destruct (missing_key_raises_key_error re_compile_literal to_datetime_coerce
              (world_of [df_clients]) 0 df_clients "age"
              (mkDescriptor (Some "range") (Some (NInt 18)) None None None) []
              eq_refl eq_refl) as (_ & _ & Hmax & _).
  apply (Hmax (NInt 18)); reflexivity.
Defined.

Lemma inverted_range_keeps_nothing_witness :
  exists out w',
    validate_data re_compile_literal 0 [("age", rule_range 100 18)]
      (world_of [df_clients]) = (Ok out, w') /\
    heap w' !! out = Some (mkDataFrame ["name"; "age"] [Object; Float64] []).
Proof.
  apply (inverted_range_keeps_nothing re_compile_literal (world_of [df_clients])
           0 df_clients "age" (NInt 100) (NInt 18)); reflexivity.
Defined.

Lemma not_null_rule_counts_witness :
  exists out w' d',
    validate_data re_compile_literal 0 [("age", rule_not_null)]
      (world_of [df_clients]) = (Ok out, w') /\
    heap w' !! out = Some d' /\
    df_len d' = 3 /\
    log w' = [(INFO, MsgValidating); (INFO, MsgRemovedNull 1 "age");
              (INFO, MsgTotalRemoved 1)].
Proof.
  destruct (not_null_rule_counts re_compile_literal (world_of [df_clients]) 0
              df_clients "age" rule_not_null eq_refl eq_refl eq_refl)
    as (out & w' & d' & E & Hout & _ & Hrows & _ & Hlog).
  exists out, w', d'. split; [exact E |]. split; [exact Hout |].
  assert (Hlen : df_len d' = 3) by (unfold df_len; rewrite Hrows; reflexivity).
  split; [exact Hlen |]. rewrite Hlog, Hlen. reflexivity.
Defined.

Lemma transform_data_keeps_row_count_witness :
  let w := world_of [df_prices] in
  let r := transform_data to_datetime_coerce 0
             [("total", transform_calculate "df_transformed.pop('price')")] w in
  exists d', heap (snd r) !! 1 = Some d' /\ df_len d' = 2 /\
             transformed (stats (pipeline (snd r))) = 2.
Proof.
  intros w r.
  destruct (transform_data_keeps_row_count to_datetime_coerce w (snd r) 0 1
              df_prices
              [("total", transform_calculate "df_transformed.pop('price')")]
              eq_refl) as (d' & Hd' & Hlen & Hst).
  - vm_compute. reflexivity.
  - exists d'. split; [exact Hd' |]. split; [exact Hlen |]. by rewrite Hst.
Defined.

Lemma transform_data_touches_named_columns_only_witness :
  let w := world_of [df_cities] in
  let r := transform_data to_datetime_coerce 0 [("city", transform_kind "strip")] w in
  exists d', heap (snd r) !! 1 = Some d' /\
             columns d' = ["id"; "city"] /\
             get_column d' "id" = [VInt 1; VInt 2; VInt 3].
Proof.
  intros w r.
  destruct (transform_data_touches_named_columns_only to_datetime_coerce w (snd r)
              0 1 df_cities [("city", transform_kind "strip")] eq_refl eq_refl)
    as (d' & Hd' & Hcols & Hother).
  - vm_compute. reflexivity.
  - exists d'. split; [exact Hd' |]. split; [exact Hcols |].
    rewrite (Hother "id"); [reflexivity |].
    simpl. intros [H | []]. discriminate.
Defined.


Lemma string_transform_refuses_int_column_witness :
  fst (transform_data to_datetime_coerce 0 [("id", transform_kind "uppercase")]
         (world_of [df_cities])) = Raise AttributeError.
Proof.
  apply (string_transform_refuses_int_column to_datetime_coerce
           (world_of [df_cities]) 0 df_cities "id" (transform_kind "uppercase"));
    try reflexivity.
  - discriminate.
  - left. reflexivity.
Defined.

Lemma extract_csv_outcomes_witness :
  fst (extract_csv io_missing_file "clients.csv" (world_of []))
  = Raise (FileNotFoundError "clients.csv")
  /\ exists w', extract_csv (io_ok df_clients) "clients.csv" (world_of [])
                = (Ok 0, w') /\ heap w' = [df_clients].
Proof.
  split.
  - destruct (extract_csv_outcomes io_missing_file "clients.csv" (world_of []))
      as (Hmiss & _ & _).
    rewrite Hmiss; reflexivity.
  - destruct (extract_csv_outcomes (io_ok df_clients) "clients.csv" (world_of []))
      as (_ & _ & Hok).
    destruct (Hok df_clients eq_refl eq_refl) as (w' & E & Hh & _).
    exists w'. split; [exact E | exact Hh].
Defined.

Lemma load_to_db_survives_index_failure_witness :
  exists w',
    load_to_db (io_no_index df_clients) 0 "clients" (world_open [df_clients])
    = (Ok tt, w') /\
    loaded (stats (pipeline w')) = 4 /\
    last (log w') = Some (WARNING, MsgIndexFailed (ExternalError "index")).
Proof.
  destruct (load_to_db_survives_index_failure (io_no_index df_clients) 0 "clients"
              (world_open [df_clients]) df_clients eq_refl eq_refl eq_refl)
    as (w' & E & Hp & _ & Hlast).
  exists w'. split; [exact E |]. split; [by rewrite Hp | exact Hlast].
Defined.

Lemma load_to_db_failure_is_counted_witness :
  let r := load_to_db (io_no_table df_clients) 0 "clients"
             (world_open [df_clients]) in
  fst r = Raise (ExternalError "table")
  /\ loaded (stats (pipeline (snd r))) = 0
  /\ errors (stats (pipeline (snd r))) = 1.
Proof.
  intros r. subst r.
  rewrite (load_to_db_failure_is_counted (io_no_table df_clients) 0 "clients"
             (world_open [df_clients]) df_clients (ExternalError "table")
             eq_refl eq_refl eq_refl).
  split; [reflexivity |]. split; reflexivity.
Defined.

Lemma successful_run_counts_witness :
  let r := run_pipeline re_compile_literal to_datetime_coerce (io_ok df_repeats)
             "clients.csv" "clients" (Some [("age", rule_not_null)])
             (Some [("name", transform_kind "uppercase")]) (world_of []) in
  loaded (stats (pipeline (snd r))) <= extracted (stats (pipeline (snd r)))
  /\ connection (pipeline (snd r)) = ConnClosed.
Proof.
  intros r.
  destruct (successful_run_counts re_compile_literal to_datetime_coerce
              (io_ok df_repeats) "clients.csv" "clients"
              (Some [("age", rule_not_null)])
              (Some [("name", transform_kind "uppercase")]) (world_of [])
              (snd r) tt) as (_ & Hle & _ & Hclosed & _).
  - vm_compute. reflexivity.
  - split; [exact Hle | exact Hclosed].
Defined.

Lemma run_without_connection_witness :
  let r := run_pipeline re_compile_literal to_datetime_coerce io_no_connection
             "clients.csv" "clients" None None (world_of []) in
  fst r = Raise (ExternalError "connect")
  /\ stats (pipeline (snd r)) = mkStats 0 0 0 0.
Proof.
  intros r.
  destruct (run_without_connection re_compile_literal to_datetime_coerce
              io_no_connection "clients.csv" "clients" None None (world_of [])
              (ExternalError "connect") eq_refl) as (Hr & Hst & _).
  split; [exact Hr | exact Hst].
Defined.

Lemma run_on_missing_file_witness :
  let r := run_pipeline re_compile_literal to_datetime_coerce io_missing_file
             "clients.csv" "clients" None None (world_of []) in
  fst r = Raise (FileNotFoundError "clients.csv")
  /\ errors (stats (pipeline (snd r))) = 1
  /\ connection (pipeline (snd r)) = ConnClosed.
Proof.
  intros r.
  destruct (run_on_missing_file re_compile_literal to_datetime_coerce
              io_missing_file "clients.csv" "clients" None None (world_of [])
              eq_refl eq_refl) as (Hr & Hst & _ & Hc & _).
  subst r. split; [exact Hr |]. split; [by rewrite Hst | exact Hc].
Defined.
